(** * GMDC importer: the scene-building operator of [blender_import.py]

    A shallow embedding of [ImportGMDC.execute], [parse_data],
    [import_skeleton] and [do_import], together with a small model of the
    part of the host editor's Python API these functions call.

    Conventions of the embedding:
    - Python floats are modelled by exact rationals ([Qc]); rounding is
      outside the model, so every numeric identity below is an identity of
      exact arithmetic.
    - Python integers that come from the file (bone indices, face indices,
      parent indices) are [Z], and indexing a list with them follows
      Python's rule for negative indices ([py_index]).
    - The host scene is an explicit store ([World]); the operator's
      functions are computations in a state-and-exception monad ([M]).
      Every [print] and every call that the claims speak about is also
      appended to an event log, in program order.
    - The host stores the name it is asked for.  It renames an empty,
      over-long or already taken name; statements that depend on a name
      being kept say so with [storable] and [names_kept]. *)

From stdpp Require Import base list strings numbers.
From Stdlib Require Import QArith Qcanon HexString.

Set Default Proof Using "Type".
Open Scope Qc_scope.

(** ** Vectors and quaternions ([mathutils]) *)

Record vec2 := V2 { ux : Qc; uy : Qc }.
Record vec3 := V3 { vx : Qc; vy : Qc; vz : Qc }.
Record quat := Quat { qw : Qc; qx : Qc; qy : Qc; qz : Qc }.

#[global] Instance vec2_eq_dec : EqDecision vec2.
Proof. solve_decision. Defined.
#[global] Instance vec3_eq_dec : EqDecision vec3.
Proof. solve_decision. Defined.
#[global] Instance quat_eq_dec : EqDecision quat.
Proof. solve_decision. Defined.

Definition vec3_zero : vec3 := V3 0 0 0.
Definition vec2_zero : vec2 := V2 0 0.
Definition vec3_one : vec3 := V3 1 1 1.

Definition vec3_add (a b : vec3) : vec3 :=
  V3 (vx a + vx b) (vy a + vy b) (vz a + vz b).

(** Component-wise product, the action of a diagonal scale matrix. *)
Definition vec3_scale (s v : vec3) : vec3 :=
  V3 (vx s * vx v) (vy s * vy v) (vz s * vz v).

(** [Vector.__eq__] *)
Definition vec3_eqb (a b : vec3) : bool := bool_decide (a = b).

(** Hamilton product. *)
Definition quat_mul (a b : quat) : quat :=
  Quat (qw a * qw b - qx a * qx b - qy a * qy b - qz a * qz b)
       (qw a * qx b + qx a * qw b + qy a * qz b - qz a * qy b)
       (qw a * qy b - qx a * qz b + qy a * qw b + qz a * qx b)
       (qw a * qz b + qx a * qy b - qy a * qx b + qz a * qw b).

Definition quat_conj (q : quat) : quat := Quat (qw q) (- qx q) (- qy q) (- qz q).

(** [Quaternion * Vector]: the vector conjugated by the quaternion. *)
Definition quat_rotate (q : quat) (v : vec3) : vec3 :=
  let r := quat_mul (quat_mul q (Quat 0 (vx v) (vy v) (vz v))) (quat_conj q) in
  V3 (qx r) (qy r) (qz r).

(** ** Python list indexing *)

(** [l[i]] for a Python integer [i]: a negative index counts from the end;
    out of range is [None] (an [IndexError] at the call site). *)
Definition py_index {A} (l : list A) (i : Z) : option A :=
  if bool_decide (0 ≤ i)%Z then l !! Z.to_nat i
  else if bool_decide (- Z.of_nat (length l) ≤ i)%Z
       then l !! Z.to_nat (Z.of_nat (length l) + i)
       else None.

(** The position [py_index] reads, when it reads one. *)
Definition py_position {A} (l : list A) (i : Z) : option nat :=
  if bool_decide (0 ≤ i)%Z then
    if bool_decide (Z.to_nat i < length l)%nat then Some (Z.to_nat i) else None
  else if bool_decide (- Z.of_nat (length l) ≤ i)%Z
       then Some (Z.to_nat (Z.of_nat (length l) + i))
       else None.

(** ** The decoded input (modules absent from this file's source) *)

(** Modelled from the spec: the [BoneData] record of [bone_data.py]
    (name, local translation, w-first rotation quaternion, optional parent
    index), as [import_skeleton] reads it. *)
Record BoneData := {
  bd_name : string;
  bd_position : vec3;
  bd_rotation : quat;
  bd_parent : option Z
}.

(** Modelled from the spec: the [BlenderModel] record of
    [blender_model.py], with the fields [do_import] reads. *)
Record BlenderModel := {
  name : string;
  vertices : list vec3;
  faces : list (list Z);
  normals : list vec3;
  uvs : list vec2;
  bone_assign : list (list Z);
  bone_weight : list (list Qc)
}.

(** What [BlenderModel.groups_from_gmdc] hands back: the [False] sentinel
    or a list of groups. *)
Inductive GroupsResult :=
| GroupsFalse
| GroupsList (models : list BlenderModel).

(** The [GMDC] object returned by [GMDC.from_file_data].  Its methods live
    in [rcol/gmdc.py]; what they return for a given file is a parameter of
    the embedding. *)
Record GMDC := {
  load_header_result : bool;          (* [gmdc_data.load_header()] *)
  header_file_type : Z;               (* [gmdc_data.header.file_type] *)
  groups_from_gmdc_result : GroupsResult;
  build_bones_result : list BoneData
}.

(** ** The host scene *)

Inductive AssignMode := REPLACE | ADD | SUBTRACT.

Inductive ObjectMode := OBJECT | EDIT.

Inductive PyVal :=
| PStr (s : string)
| PInt (z : Z)
| PIntList (l : list Z)
| PVec (v : vec3).

Inductive Event :=
| EvPrint (args : list PyVal)
| EvLoadHeader
| EvLoadData
| EvGroupsFromGmdc
| EvBuildBones
| EvVertexGroupAdd (ob : nat) (group : string) (index : list nat)
                   (weight : Qc) (type : AssignMode).

#[global] Instance AssignMode_eq_dec : EqDecision AssignMode.
Proof. solve_decision. Defined.
#[global] Instance PyVal_eq_dec : EqDecision PyVal.
Proof. solve_decision. Defined.
#[global] Instance Event_eq_dec : EqDecision Event.
Proof. solve_decision. Defined.

Record MeshVertex := { co : vec3; normal : vec3 }.

Record MeshPolygon := {
  loop_start : nat;
  loop_total : nat;
  poly_vertices : list Z
}.

(** [polygon.loop_indices] *)
Definition loop_indices (p : MeshPolygon) : list nat :=
  seq (loop_start p) (loop_total p).

Record UVLayer := { uv_name : string; uv_data : list vec2 }.

Record Mesh := {
  mesh_name : string;
  mesh_vertices : list MeshVertex;
  mesh_polygons : list MeshPolygon;
  mesh_loops : nat;                   (* number of face corners *)
  mesh_uv_layers : list UVLayer
}.

Record EditBone := {
  eb_name : string;
  eb_head : vec3;
  eb_tail : vec3;
  eb_parent : option nat;             (* position in the same bone list *)
  eb_props : list (string * Qc)       (* custom properties, [bone['k']] *)
}.

Record Armature := {
  arm_draw_type : string;
  arm_bones : list EditBone
}.

(** One vertex group: the weight of each vertex that belongs to it. *)
Record VertexGroup := {
  vg_name : string;
  vg_weights : list (nat * Qc)
}.

Inductive ObData :=
| DataMesh (h : nat)
| DataArmature (h : nat).

Record Object := {
  ob_name : string;
  ob_data : ObData;
  ob_scale : vec3;
  ob_select : bool;
  ob_show_x_ray : bool;
  ob_vertex_groups : list VertexGroup
}.

(** Data blocks are addressed by their position in the store. *)
Record World := {
  meshes : list Mesh;                 (* [bpy.data.meshes] *)
  armatures : list Armature;          (* [bpy.data.armatures] *)
  objects : list Object;              (* [bpy.data.objects] *)
  scene_objects : list nat;           (* [bpy.context.scene.objects] *)
  active_object : option nat;         (* [bpy.context.object] *)
  mode : ObjectMode;
  log : list Event
}.

Definition empty_world : World :=
  {| meshes := []; armatures := []; objects := []; scene_objects := [];
     active_object := None; mode := OBJECT; log := [] |}.

Definition set_meshes (f : list Mesh → list Mesh) (w : World) : World :=
  {| meshes := f (meshes w); armatures := armatures w; objects := objects w;
     scene_objects := scene_objects w; active_object := active_object w;
     mode := mode w; log := log w |}.

Definition set_armatures (f : list Armature → list Armature) (w : World) : World :=
  {| meshes := meshes w; armatures := f (armatures w); objects := objects w;
     scene_objects := scene_objects w; active_object := active_object w;
     mode := mode w; log := log w |}.

Definition set_objects (f : list Object → list Object) (w : World) : World :=
  {| meshes := meshes w; armatures := armatures w; objects := f (objects w);
     scene_objects := scene_objects w; active_object := active_object w;
     mode := mode w; log := log w |}.

Definition set_scene_objects (f : list nat → list nat) (w : World) : World :=
  {| meshes := meshes w; armatures := armatures w; objects := objects w;
     scene_objects := f (scene_objects w); active_object := active_object w;
     mode := mode w; log := log w |}.

Definition set_active_object (a : option nat) (w : World) : World :=
  {| meshes := meshes w; armatures := armatures w; objects := objects w;
     scene_objects := scene_objects w; active_object := a;
     mode := mode w; log := log w |}.

Definition set_mode (m : ObjectMode) (w : World) : World :=
  {| meshes := meshes w; armatures := armatures w; objects := objects w;
     scene_objects := scene_objects w; active_object := active_object w;
     mode := m; log := log w |}.

Definition add_log (e : Event) (w : World) : World :=
  {| meshes := meshes w; armatures := armatures w; objects := objects w;
     scene_objects := scene_objects w; active_object := active_object w;
     mode := mode w; log := log w ++ [e] |}.

(** ** The state-and-exception monad *)

Inductive exn :=
| IndexError          (* a Python sequence indexed out of range *)
| KeyError            (* a host collection asked for a missing name *)
| ReferenceError.     (* a handle to a data block that does not exist *)

Inductive outcome (A : Type) :=
| Ok (a : A) (w : World)
| Raise (e : exn) (w : World).
Arguments Ok {A} a w.
Arguments Raise {A} e w.

Definition M (A : Type) : Type := World → outcome A.

#[global] Instance M_ret : MRet M := λ A a w, Ok a w.
#[global] Instance M_bind : MBind M := λ A B f m w,
  match m w with
  | Ok a w' => f a w'
  | Raise e w' => Raise e w'
  end.

Definition raise {A} (e : exn) : M A := λ w, Raise e w.

Definition lift_opt {A} (e : exn) (o : option A) : M A :=
  match o with Some a => mret a | None => raise e end.

Definition modify (f : World → World) : M unit := λ w, Ok tt (f w).

(** [for x in l: body x] *)
Fixpoint for_each {A} (l : list A) (body : A → M unit) : M unit :=
  match l with
  | [] => mret tt
  | x :: l' => body x;; for_each l' body
  end.

(** A [for] loop that threads one local variable. *)
Fixpoint fold_loop {A B} (body : B → A → M B) (b : B) (l : list A) : M B :=
  match l with
  | [] => mret b
  | x :: l' => b' ← body b x; fold_loop body b' l'
  end.

(** [enumerate(l)] *)
Definition enumerate {A} (l : list A) : list (nat * A) := zip (seq 0 (length l)) l.

Definition print (args : list PyVal) : M unit := modify (add_log (EvPrint args)).

(** ** Host API: meshes *)

Definition get_mesh (h : nat) : M Mesh :=
  λ w, lift_opt ReferenceError (meshes w !! h) w.

Definition modify_mesh (h : nat) (f : Mesh → Mesh) : M unit :=
  get_mesh h;; modify (set_meshes (alter f h)).

(** [bpy.data.meshes.new(name)]; the name is stored as given. *)
Definition meshes_new (nm : string) : M nat := λ w,
  Ok (length (meshes w))
     (set_meshes (λ ms, ms ++ [{| mesh_name := nm; mesh_vertices := [];
                                  mesh_polygons := []; mesh_loops := 0;
                                  mesh_uv_layers := [] |}]) w).

(** [bpy.data.objects.new(name, mesh)]: a new object, not selected and not
    yet linked to any scene; the name is stored as given. *)
Definition objects_new (nm : string) (mesh : nat) : M nat := λ w,
  Ok (length (objects w))
     (set_objects (λ os, os ++ [{| ob_name := nm; ob_data := DataMesh mesh;
                                   ob_scale := vec3_one; ob_select := false;
                                   ob_show_x_ray := false;
                                   ob_vertex_groups := [] |}]) w).

(** [bpy.context.scene.objects.link(object)] *)
Definition scene_objects_link (ob : nat) : M unit :=
  modify (set_scene_objects (λ l, l ++ [ob])).

(** The polygons [from_pydata] lays out: face [k] owns the loops that
    follow those of the faces before it. *)
Fixpoint layout_polygons (start : nat) (fs : list (list Z)) : list MeshPolygon :=
  match fs with
  | [] => []
  | f :: fs' =>
      {| loop_start := start; loop_total := length f; poly_vertices := f |}
        :: layout_polygons (start + length f) fs'
  end.

Definition total_loops (fs : list (list Z)) : nat :=
  foldr (λ f n, length f + n)%nat 0%nat fs.

(** [mesh.from_pydata(vertices, [], faces)]; the indices in [faces] are
    stored as given. *)
Definition from_pydata (h : nat) (vs : list vec3) (fs : list (list Z)) : M unit :=
  modify_mesh h (λ m,
    {| mesh_name := mesh_name m;
       mesh_vertices :=
         mesh_vertices m ++ map (λ v, {| co := v; normal := vec3_zero |}) vs;
       mesh_polygons := mesh_polygons m ++ layout_polygons (mesh_loops m) fs;
       mesh_loops := mesh_loops m + total_loops fs;
       mesh_uv_layers := mesh_uv_layers m |}).

Definition set_normal (n : vec3) (v : MeshVertex) : MeshVertex :=
  {| co := co v; normal := n |}.

Definition set_mesh_vertices (f : list MeshVertex → list MeshVertex) (m : Mesh) : Mesh :=
  {| mesh_name := mesh_name m; mesh_vertices := f (mesh_vertices m);
     mesh_polygons := mesh_polygons m; mesh_loops := mesh_loops m;
     mesh_uv_layers := mesh_uv_layers m |}.

Definition set_mesh_uv_layers (f : list UVLayer → list UVLayer) (m : Mesh) : Mesh :=
  {| mesh_name := mesh_name m; mesh_vertices := mesh_vertices m;
     mesh_polygons := mesh_polygons m; mesh_loops := mesh_loops m;
     mesh_uv_layers := f (mesh_uv_layers m) |}.

(** [mesh.vertices[i].normal = n] *)
Definition set_vertex_normal (h i : nat) (n : vec3) : M unit :=
  m ← get_mesh h;
  lift_opt IndexError (mesh_vertices m !! i);;
  modify_mesh h (set_mesh_vertices (alter (set_normal n) i)).

(** [mesh.uv_textures.new(name)]: a layer with one entry per loop. *)
Definition uv_textures_new (h : nat) (nm : string) : M unit :=
  modify_mesh h (λ m, set_mesh_uv_layers
    (λ ls, ls ++ [{| uv_name := nm; uv_data := replicate (mesh_loops m) vec2_zero |}]) m).

(** [mesh.uv_layers.active.data[loopindex]]: the active layer is the first
    one of the mesh. *)
Definition uv_layers_active_data (h loopindex : nat) : M vec2 :=
  m ← get_mesh h;
  layer ← lift_opt ReferenceError (mesh_uv_layers m !! 0%nat);
  lift_opt IndexError (uv_data layer !! loopindex).

Definition set_uv_data (f : list vec2 → list vec2) (l : UVLayer) : UVLayer :=
  {| uv_name := uv_name l; uv_data := f (uv_data l) |}.

(** [meshuvloop.uv = uv] *)
Definition set_loop_uv (h loopindex : nat) (uv : vec2) : M unit :=
  modify_mesh h (set_mesh_uv_layers (alter (set_uv_data (<[loopindex := uv]>)) 0%nat)).

(** ** Host API: objects and vertex groups *)

Definition get_object (ob : nat) : M Object :=
  λ w, lift_opt ReferenceError (objects w !! ob) w.

Definition modify_object (ob : nat) (f : Object → Object) : M unit :=
  get_object ob;; modify (set_objects (alter f ob)).

Definition set_ob_vertex_groups
    (f : list VertexGroup → list VertexGroup) (o : Object) : Object :=
  {| ob_name := ob_name o; ob_data := ob_data o; ob_scale := ob_scale o;
     ob_select := ob_select o; ob_show_x_ray := ob_show_x_ray o;
     ob_vertex_groups := f (ob_vertex_groups o) |}.

Definition set_ob_scale (s : vec3) (o : Object) : Object :=
  {| ob_name := ob_name o; ob_data := ob_data o; ob_scale := s;
     ob_select := ob_select o; ob_show_x_ray := ob_show_x_ray o;
     ob_vertex_groups := ob_vertex_groups o |}.

Definition set_ob_select (b : bool) (o : Object) : Object :=
  {| ob_name := ob_name o; ob_data := ob_data o; ob_scale := ob_scale o;
     ob_select := b; ob_show_x_ray := ob_show_x_ray o;
     ob_vertex_groups := ob_vertex_groups o |}.

Definition set_ob_show_x_ray (b : bool) (o : Object) : Object :=
  {| ob_name := ob_name o; ob_data := ob_data o; ob_scale := ob_scale o;
     ob_select := ob_select o; ob_show_x_ray := b;
     ob_vertex_groups := ob_vertex_groups o |}.

Definition set_ob_name (nm : string) (o : Object) : Object :=
  {| ob_name := nm; ob_data := ob_data o; ob_scale := ob_scale o;
     ob_select := ob_select o; ob_show_x_ray := ob_show_x_ray o;
     ob_vertex_groups := ob_vertex_groups o |}.

(** [object.vertex_groups.new(name)]; the name is stored as given. *)
Definition vertex_groups_new (ob : nat) (nm : string) : M unit :=
  modify_object ob (set_ob_vertex_groups
    (λ gs, gs ++ [{| vg_name := nm; vg_weights := [] |}])).

(** Position of the first group called [nm]. *)
Fixpoint find_group (nm : string) (gs : list VertexGroup) : option nat :=
  match gs with
  | [] => None
  | g :: gs' => if bool_decide (vg_name g = nm) then Some 0%nat
                else S <$> find_group nm gs'
  end.

(** [object.vertex_groups[name]] *)
Definition vertex_groups_find (ob : nat) (nm : string) : M nat :=
  o ← get_object ob;
  lift_opt KeyError (find_group nm (ob_vertex_groups o)).

(** The [weight] argument of [VertexGroup.add] is declared with the range
    [0, 1]: the host brings a value outside it to the nearer bound. *)
Definition clamp_weight (x : Qc) : Qc :=
  if bool_decide (x < 0) then 0 else if bool_decide (1 < x) then 1 else x.

(** One vertex entering a group under an assign mode.  A vertex that is
    not yet a member joins with the given weight (nothing happens when
    subtracting).  For a member, REPLACE stores the weight, ADD adds it and
    stops at one, SUBTRACT subtracts it and drops the vertex from the
    group when nothing positive is left. *)
Fixpoint assign_weight (mode : AssignMode) (i : nat) (w : Qc)
    (ws : list (nat * Qc)) : list (nat * Qc) :=
  match ws with
  | [] => match mode with SUBTRACT => [] | _ => [(i, clamp_weight w)] end
  | (k, old) :: ws' =>
      if bool_decide (k = i) then
        match mode with
        | REPLACE => (k, clamp_weight w) :: ws'
        | ADD =>
            (k, if bool_decide (1 ≤ old + clamp_weight w) then 1
                else old + clamp_weight w) :: ws'
        | SUBTRACT =>
            if bool_decide (old - clamp_weight w ≤ 0) then ws'
            else (k, old - clamp_weight w) :: ws'
        end
      else (k, old) :: assign_weight mode i w ws'
  end.

Definition set_vg_weights (f : list (nat * Qc) → list (nat * Qc))
    (g : VertexGroup) : VertexGroup :=
  {| vg_name := vg_name g; vg_weights := f (vg_weights g) |}.

(** [vertgroup.add(index, weight, type)] for the group at position [gi] of
    object [ob].  The log keeps the weight as the caller passed it; the
    group stores what [assign_weight] makes of it. *)
Definition vertex_group_add (ob gi : nat) (index : list nat) (w : Qc)
    (mode : AssignMode) : M unit :=
  o ← get_object ob;
  g ← lift_opt ReferenceError (ob_vertex_groups o !! gi);
  modify (add_log (EvVertexGroupAdd ob (vg_name g) index w mode));;
  modify_object ob (set_ob_vertex_groups
    (alter (set_vg_weights (λ ws, foldl (λ acc i, assign_weight mode i w acc) ws index)) gi)).

(** [group.weight(i)], as an option. *)
Fixpoint weight_of (ws : list (nat * Qc)) (i : nat) : option Qc :=
  match ws with
  | [] => None
  | (k, w) :: ws' => if bool_decide (k = i) then Some w else weight_of ws' i
  end.

(** ** Host API: armatures and operators *)

Definition get_armature (h : nat) : M Armature :=
  λ w, lift_opt ReferenceError (armatures w !! h) w.

Definition set_arm_bones (f : list EditBone → list EditBone) (a : Armature) : Armature :=
  {| arm_draw_type := arm_draw_type a; arm_bones := f (arm_bones a) |}.

Definition set_arm_draw_type (t : string) (a : Armature) : Armature :=
  {| arm_draw_type := t; arm_bones := arm_bones a |}.

Definition modify_armature (h : nat) (f : Armature → Armature) : M unit :=
  get_armature h;; modify (set_armatures (alter f h)).

Definition get_bone (amt b : nat) : M EditBone :=
  a ← get_armature amt;
  lift_opt ReferenceError (arm_bones a !! b).

Definition modify_bone (amt b : nat) (f : EditBone → EditBone) : M unit :=
  get_bone amt b;; modify_armature amt (set_arm_bones (alter f b)).

Definition set_eb_head (v : vec3) (b : EditBone) : EditBone :=
  {| eb_name := eb_name b; eb_head := v; eb_tail := eb_tail b;
     eb_parent := eb_parent b; eb_props := eb_props b |}.

Definition set_eb_tail (v : vec3) (b : EditBone) : EditBone :=
  {| eb_name := eb_name b; eb_head := eb_head b; eb_tail := v;
     eb_parent := eb_parent b; eb_props := eb_props b |}.

Definition set_eb_parent (p : option nat) (b : EditBone) : EditBone :=
  {| eb_name := eb_name b; eb_head := eb_head b; eb_tail := eb_tail b;
     eb_parent := p; eb_props := eb_props b |}.

(** [d[k] = v] on an insertion-ordered dictionary. *)
Fixpoint dict_set (k : string) (v : Qc) (d : list (string * Qc)) : list (string * Qc) :=
  match d with
  | [] => [(k, v)]
  | (k', v') :: d' =>
      if bool_decide (k' = k) then (k', v) :: d' else (k', v') :: dict_set k v d'
  end.

Definition set_eb_prop (k : string) (v : Qc) (b : EditBone) : EditBone :=
  {| eb_name := eb_name b; eb_head := eb_head b; eb_tail := eb_tail b;
     eb_parent := eb_parent b; eb_props := dict_set k v (eb_props b) |}.

(** [bpy.ops.object.add(type='ARMATURE', enter_editmode=..., location=(0,0,0))]:
    every object is deselected, then a new armature and its object are
    created; the object is linked to the scene, selected and made active. *)
Definition bpy_ops_object_add_armature (enter_editmode : bool) : M unit := λ w,
  let amt := length (armatures w) in
  let ob := length (objects w) in
  Ok tt
    {| meshes := meshes w;
       armatures := armatures w ++ [{| arm_draw_type := "OCTAHEDRAL"; arm_bones := [] |}];
       objects := map (set_ob_select false) (objects w) ++
                  [{| ob_name := "Armature"; ob_data := DataArmature amt;
                      ob_scale := vec3_one; ob_select := true;
                      ob_show_x_ray := false; ob_vertex_groups := [] |}];
       scene_objects := scene_objects w ++ [ob];
       active_object := Some ob;
       mode := if enter_editmode then EDIT else OBJECT;
       log := log w |}.

(** [bpy.context.object] *)
Definition bpy_context_object : M nat :=
  λ w, lift_opt ReferenceError (active_object w) w.

(** [ob.data], for an armature object. *)
Definition object_armature (ob : nat) : M nat :=
  o ← get_object ob;
  match ob_data o with
  | DataArmature h => mret h
  | DataMesh _ => raise ReferenceError
  end.

(** [amt.edit_bones.new(name)]: a bone with head and tail at the origin,
    no parent and no custom property. *)
Definition edit_bones_new (amt : nat) (nm : string) : M nat :=
  a ← get_armature amt;
  modify_armature amt (set_arm_bones (λ bs, bs ++
    [{| eb_name := nm; eb_head := vec3_zero; eb_tail := vec3_zero;
        eb_parent := None; eb_props := [] |}]));;
  mret (length (arm_bones a)).

(** [amt.edit_bones[p]] for an integer [p] *)
Definition edit_bones_index (amt : nat) (p : Z) : M nat :=
  a ← get_armature amt;
  lift_opt IndexError (py_position (arm_bones a) p).

(** [bpy.ops.object.mode_set(mode=m)] *)
Definition bpy_ops_object_mode_set (m : ObjectMode) : M unit :=
  modify (set_mode m).

(** [bpy.ops.transform.resize(value=v)]: the scale of every selected
    object is multiplied, component by component. *)
Definition bpy_ops_transform_resize (v : vec3) : M unit :=
  modify (set_objects (map (λ o,
    if ob_select o then set_ob_scale (vec3_scale v (ob_scale o)) o else o))).

Definition scale_bone (s : vec3) (b : EditBone) : EditBone :=
  set_eb_tail (vec3_scale s (eb_tail b)) (set_eb_head (vec3_scale s (eb_head b)) b).

Definition scale_mesh_vertex (s : vec3) (v : MeshVertex) : MeshVertex :=
  {| co := vec3_scale s (co v); normal := normal v |}.

(** The scale of one selected object baked into its data block. *)
Definition apply_object_scale (w : World) (o : Object) : World :=
  if ob_select o then
    match ob_data o with
    | DataArmature h =>
        set_armatures (alter (set_arm_bones (map (scale_bone (ob_scale o)))) h) w
    | DataMesh h =>
        set_meshes (alter (set_mesh_vertices (map (scale_mesh_vertex (ob_scale o)))) h) w
    end
  else w.

(** [bpy.ops.object.transform_apply(location, rotation, scale)]: with
    [scale] set, the scale of each selected object is baked into its data
    and the object's scale goes back to one.  Locations and rotations are
    not part of the model. *)
Definition bpy_ops_object_transform_apply (location rotation scale : bool) : M unit :=
  if scale then
    modify (λ w,
      set_objects (map (λ o, if ob_select o then set_ob_scale vec3_one o else o))
                  (foldl apply_object_scale w (objects w)))
  else mret tt.

(** ** Calls into the decoder (modules absent from this file's source) *)

Definition load_header (data : GMDC) : M bool :=
  modify (add_log EvLoadHeader);; mret (load_header_result data).

Definition load_data (data : GMDC) : M unit :=
  modify (add_log EvLoadData).

Definition groups_from_gmdc (data : GMDC) : M GroupsResult :=
  modify (add_log EvGroupsFromGmdc);; mret (groups_from_gmdc_result data).

Definition build_bones (data : GMDC) : M (list BoneData) :=
  modify (add_log EvBuildBones);; mret (build_bones_result data).

(** ** The operator: [ImportGMDC] *)

Definition newline : string := String (Ascii.ascii_of_nat 10) EmptyString.

(** The length by which a zero-length bone is stretched: [0.00001]. *)
Definition bone_epsilon : Qc := Q2Qc (1 # 100000).

Inductive ExecResult :=
| ReturnFalse                (* [return False] *)
| ReturnFinished.            (* [return {'FINISHED'}] *)

Inductive ParseResult :=
| ParseFalse
| ParseGroups (b_models : GroupsResult).

Definition error_message (b_model : BlenderModel) : string :=
  "ERROR: Group " +:+ name b_model +:+ "'s vertex index counts don't match.".

Definition imported_message (b_model : BlenderModel) : string :=
  "Group " +:+ name b_model +:+ " imported." +:+ newline.

(** The test of lines 160-161. *)
Definition counts_mismatch (b_model : BlenderModel) : bool :=
  negb (length (vertices b_model) =? length (bone_assign b_model))%nat
  || negb (length (vertices b_model) =? length (bone_weight b_model))%nat.

Section Operator.

(** [BoneData.bone_parent_table], a class attribute of [bone_data.py]:
    a list of rows whose first component is a bone name.  The table
    itself and the type of the other components are parameters. *)
Context {Row : Type}.
Variable bone_parent_table : list (string * Row).

(** *** [import_skeleton], the body of the loop over [skeldata] *)
Definition build_bone (amt : nat) (bonedata : BoneData) : M unit :=
  bone ← edit_bones_new amt (bd_name bonedata);
  let trans := bd_position bonedata in
  let rot := bd_rotation bonedata in
  modify_bone amt bone (set_eb_tail (quat_rotate rot trans));;
  match bd_parent bonedata with
  | Some p =>
      parent ← edit_bones_index amt p;
      modify_bone amt bone (set_eb_parent (Some parent));;
      pb ← get_bone amt parent;
      modify_bone amt bone (set_eb_head (eb_tail pb))
  | None => mret tt
  end;;
  b ← get_bone amt bone;
  (if vec3_eqb (eb_tail b) (eb_head b)
   then (* Blender does not support 0 length bones *)
     modify_bone amt bone (set_eb_tail (vec3_add (eb_tail b) (V3 0 bone_epsilon 0)))
   else mret tt);;
  modify_bone amt bone (set_eb_prop "tX" (vx (bd_position bonedata)));;
  modify_bone amt bone (set_eb_prop "tY" (vy (bd_position bonedata)));;
  modify_bone amt bone (set_eb_prop "tZ" (vz (bd_position bonedata)));;
  modify_bone amt bone (set_eb_prop "rW" (qw (bd_rotation bonedata)));;
  modify_bone amt bone (set_eb_prop "rX" (qx (bd_rotation bonedata)));;
  modify_bone amt bone (set_eb_prop "rY" (qy (bd_rotation bonedata)));;
  modify_bone amt bone (set_eb_prop "rZ" (qz (bd_rotation bonedata))).

(** Lines 78-117: the armature object and its bones. *)
Definition build_armature (data : GMDC) : M nat :=
  skeldata ← build_bones data;
  bpy_ops_object_add_armature true;;
  ob ← bpy_context_object;
  modify_object ob (set_ob_show_x_ray true);;
  modify_object ob (set_ob_name "Armature");;
  amt ← object_armature ob;
  modify_armature amt (set_arm_draw_type "STICK");;
  for_each skeldata (build_bone amt);;
  mret ob.

Definition import_skeleton (data : GMDC) : M nat :=
  ob ← build_armature data;
  (* Go back to Object mode, scale the armature -1 along Z and apply the transform *)
  bpy_ops_object_mode_set OBJECT;;
  bpy_ops_transform_resize (V3 1 1 (-1));;
  bpy_ops_object_transform_apply false false true;;
  mret ob.

(** *** [do_import], block by block *)

(** Lines 141-143: the loop over the mesh vertices and its body. *)
Definition load_normal (mesh : nat) (b_model : BlenderModel) (i : nat) : M unit :=
  n ← lift_opt IndexError (normals b_model !! i);
  set_vertex_normal mesh i n.

Definition load_normals (mesh : nat) (b_model : BlenderModel) : M unit :=
  m ← get_mesh mesh;
  for_each (seq 0 (length (mesh_vertices m))) (load_normal mesh b_model).

(** Lines 147-152: the loop over the polygons, the loop over the loops
    of polygon [i], and its body. *)
Definition load_uv (mesh : nat) (b_model : BlenderModel) (i : nat)
    (jl : nat * nat) : M unit :=
  let '(j, loopindex) := jl in
  uv_layers_active_data mesh loopindex;;
  face ← lift_opt IndexError (faces b_model !! i);
  vertex_index ← lift_opt IndexError (face !! j);
  uv ← lift_opt IndexError (py_index (uvs b_model) vertex_index);
  set_loop_uv mesh loopindex uv.

Definition load_polygon_uvs (mesh : nat) (b_model : BlenderModel)
    (ip : nat * MeshPolygon) : M unit :=
  let '(i, polygon) := ip in
  for_each (enumerate (loop_indices polygon)) (load_uv mesh b_model i).

Definition load_uvs (mesh : nat) (b_model : BlenderModel) : M unit :=
  m ← get_mesh mesh;
  for_each (enumerate (mesh_polygons m)) (load_polygon_uvs mesh b_model).

(** Lines 166-169. *)
Definition check_coordinate (mesh : nat) (b_model : BlenderModel) (i : nat) : M unit :=
  m ← get_mesh mesh;
  v ← lift_opt IndexError (mesh_vertices m !! i);
  v' ← lift_opt IndexError (vertices b_model !! i);
  if vec3_eqb (co v) v' then mret tt
  else print [PVec (co v); PVec v'].

Definition check_coordinates (mesh : nat) (b_model : BlenderModel) : M unit :=
  m ← get_mesh mesh;
  for_each (seq 0 (length (mesh_vertices m))) (check_coordinate mesh b_model).

(** Lines 176-185: one turn of the loop over [j], threading [remainder]. *)
Definition assign_weight_at (object : nat) (b_model : BlenderModel) (i : nat)
    (remainder : Qc) (j : nat) : M Qc :=
  row ← lift_opt IndexError (bone_assign b_model !! i);
  b ← lift_opt IndexError (row !! j);
  val ← lift_opt IndexError (py_index bone_parent_table b);
  let grpname := val.1 in
  vertgroup ← vertex_groups_find object grpname;
  print [PStr grpname];;
  if negb (j =? 3)%nat then
    wrow ← lift_opt IndexError (bone_weight b_model !! i);
    weight ← lift_opt IndexError (wrow !! j);
    vertex_group_add object vertgroup [i] weight ADD;;
    mret (remainder - weight)
  else
    vertex_group_add object vertgroup [i] remainder ADD;;
    mret remainder.

(** Lines 173-185: one turn of the loop over [i]. *)
Definition assign_vertex (object : nat) (b_model : BlenderModel) (i : nat) : M unit :=
  let remainder := 1 in     (* Used for an implied 4th bone weight *)
  row ← lift_opt IndexError (bone_assign b_model !! i);
  print [PInt (Z.of_nat i); PIntList row];;
  fold_loop (assign_weight_at object b_model i) remainder (seq 0 (length row));;
  mret tt.

(** Line 156. *)
Definition new_vertex_group (object : nat) (val : string * Row) : M unit :=
  vertex_groups_new object val.1.

(** Lines 130-156: the mesh, its object and the empty vertex groups. *)
Definition build_group (b_model : BlenderModel) : M (nat * nat) :=
  print [PStr "Importing group:"; PStr (name b_model)];;
  (* Create object and mesh *)
  mesh ← meshes_new (name b_model);
  object ← objects_new (name b_model) mesh;
  scene_objects_link object;;
  (* Load vertices and faces *)
  from_pydata mesh (vertices b_model) (faces b_model);;
  (* Load normals *)
  load_normals mesh b_model;;
  (* Create UV layer and load UV coordinates *)
  uv_textures_new mesh "UVMap";;
  load_uvs mesh b_model;;
  (* Create vertex groups for bone assignments *)
  for_each bone_parent_table (new_vertex_group object);;
  mret (mesh, object).

Definition do_import (b_model : BlenderModel) (armature : nat) : M string :=
  '(mesh, object) ← build_group b_model;
  (* Check for mismatches in index counts *)
  if counts_mismatch b_model then
    print [PInt (Z.of_nat (length (vertices b_model)));
           PInt (Z.of_nat (length (bone_assign b_model)));
           PInt (Z.of_nat (length (bone_weight b_model)))];;
    mret (error_message b_model)
  else
    check_coordinates mesh b_model;;
    print [PStr "Applying bone weights"];;
    for_each (seq 0 (length (bone_assign b_model))) (assign_vertex object b_model);;
    mret (imported_message b_model).

(** *** [execute] and [parse_data] *)

(** Lines 59-60. *)
Definition import_models (b_models : list BlenderModel) (armature : nat) : M unit :=
  for_each b_models (λ model,
    r ← do_import model armature;
    print [PStr r]).

Definition unsupported_report (gmdc_data : GMDC) : list PyVal :=
  [PStr "Unsupported GMDC version";
   PStr (HexString.of_Z (header_file_type gmdc_data))].

Definition execute (gmdc_data : GMDC) : M ExecResult :=
  ok ← load_header gmdc_data;
  if negb ok then
    print (unsupported_report gmdc_data);;
    mret ReturnFalse
  else
    load_data gmdc_data;;
    b_models ← groups_from_gmdc gmdc_data;
    armature ← import_skeleton gmdc_data;
    match b_models with
    | GroupsList models => import_models models armature
    | GroupsFalse => mret tt
    end;;
    mret ReturnFinished.

Definition parse_data (gmdc_data : GMDC) : M ParseResult :=
  ok ← load_header gmdc_data;
  if negb ok then
    print (unsupported_report gmdc_data);;
    mret ParseFalse
  else
    load_data gmdc_data;;
    b_models ← groups_from_gmdc gmdc_data;
    mret (ParseGroups b_models).

End Operator.

Arguments vec3_eqb : simpl never.
Arguments vec3_add : simpl never.
Arguments vec3_scale : simpl never.
Arguments quat_rotate : simpl never.
Arguments bone_epsilon : simpl never.
Arguments Q2Qc : simpl never.

(** ** Functional descriptions of the loops

    Pure functions that say what a block of the operator leaves in the
    store.  The lemmas of the next part relate each of them to the block
    it describes; the theorems are stated on the operator itself. *)

(** The store with data block [h] replaced. *)
Definition put_armature (h : nat) (a : Armature) (w : World) : World :=
  set_armatures (<[h := a]>) w.

Definition put_bones (h : nat) (a : Armature) (bs : list EditBone) : World → World :=
  put_armature h (set_arm_bones (λ _, bs) a).

Definition fresh_bone (nm : string) : EditBone :=
  {| eb_name := nm; eb_head := vec3_zero; eb_tail := vec3_zero;
     eb_parent := None; eb_props := [] |}.

(** The custom properties of lines 110-117. *)
Definition bone_props (bd : BoneData) : list (string * Qc) :=
  [("tX", vx (bd_position bd)); ("tY", vy (bd_position bd));
   ("tZ", vz (bd_position bd)); ("rW", qw (bd_rotation bd));
   ("rX", qx (bd_rotation bd)); ("rY", qy (bd_rotation bd));
   ("rZ", qz (bd_rotation bd))].

(** Lines 104-106 as a function of the tail and the head. *)
Definition stretch (tail head : vec3) : vec3 :=
  if vec3_eqb tail head then vec3_add tail (V3 0 bone_epsilon 0) else tail.

(** The bone one turn of the loop over [skeldata] appends to the bones
    [prev] built so far; [None] when the parent index is out of range. *)
Definition built_bone (prev : list EditBone) (bd : BoneData) : option EditBone :=
  let t := quat_rotate (bd_rotation bd) (bd_position bd) in
  let cur := set_eb_tail t (fresh_bone (bd_name bd)) in
  match bd_parent bd with
  | None =>
      Some {| eb_name := bd_name bd; eb_head := vec3_zero;
              eb_tail := stretch t vec3_zero; eb_parent := None;
              eb_props := bone_props bd |}
  | Some p =>
      q ← py_position (prev ++ [cur]) p;
      pt ← eb_tail <$> (prev ++ [cur]) !! q;
      Some {| eb_name := bd_name bd; eb_head := pt;
              eb_tail := stretch t pt; eb_parent := Some q;
              eb_props := bone_props bd |}
  end.

Fixpoint built_bones (prev : list EditBone) (skeldata : list BoneData)
    : option (list EditBone) :=
  match skeldata with
  | [] => Some prev
  | bd :: rest => b ← built_bone prev bd; built_bones (prev ++ [b]) rest
  end.

(** Every parent index names a bone that exists when it is looked up:
    bone number [k] may refer to positions [0..k], or count back from the
    end with [-1..-(k+1)]. *)
Fixpoint parents_resolve (k : nat) (skeldata : list BoneData) : bool :=
  match skeldata with
  | [] => true
  | bd :: rest =>
      match bd_parent bd with
      | None => true
      | Some p => bool_decide (- Z.of_nat (S k) ≤ p ≤ Z.of_nat k)%Z
      end && parents_resolve (S k) rest
  end.

(** The store [build_armature] leaves, given the bones of its armature. *)
Definition armature_world (w : World) (bs : list EditBone) (md : ObjectMode) : World :=
  {| meshes := meshes w;
     armatures := armatures w ++ [{| arm_draw_type := "STICK"; arm_bones := bs |}];
     objects := map (set_ob_select false) (objects w) ++
                [{| ob_name := "Armature";
                    ob_data := DataArmature (length (armatures w));
                    ob_scale := vec3_one; ob_select := true;
                    ob_show_x_ray := true; ob_vertex_groups := [] |}];
     scene_objects := scene_objects w ++ [length (objects w)];
     active_object := Some (length (objects w));
     mode := md;
     log := log w ++ [EvBuildBones] |}.

(** The scale the armature object carries when the transform is applied. *)
Definition mirror_scale : vec3 := vec3_scale (V3 1 1 (-1)) vec3_one.

(** Reflection through the plane [z = 0]. *)
Definition mirror_z (v : vec3) : vec3 := V3 (vx v) (vy v) (- vz v).

Definition mirror_bone (b : EditBone) : EditBone :=
  {| eb_name := eb_name b; eb_head := mirror_z (eb_head b);
     eb_tail := mirror_z (eb_tail b); eb_parent := eb_parent b;
     eb_props := eb_props b |}.

(** *** Groups *)

(** The store after a group's mesh and object were appended to [w]. *)
Definition group_world (w : World) (m : Mesh) (o : Object) (evs : list Event) : World :=
  {| meshes := meshes w ++ [m]; armatures := armatures w;
     objects := objects w ++ [o];
     scene_objects := scene_objects w ++ [length (objects w)];
     active_object := active_object w; mode := mode w; log := log w ++ evs |}.

Definition with_uv (m : Mesh) (d : list vec2) : Mesh :=
  set_mesh_uv_layers (λ _, [{| uv_name := "UVMap"; uv_data := d |}]) m.

Definition built_mesh (b_model : BlenderModel) : option Mesh :=
  ns ← mapM (normals b_model !!.) (seq 0 (length (vertices b_model)));
  us ← mapM (py_index (uvs b_model)) (concat (faces b_model));
  Some {| mesh_name := name b_model;
          mesh_vertices :=
            zip_with (λ v n, {| co := v; normal := n |}) (vertices b_model) ns;
          mesh_polygons := layout_polygons 0 (faces b_model);
          mesh_loops := total_loops (faces b_model);
          mesh_uv_layers := [{| uv_name := "UVMap"; uv_data := us |}] |}.

Definition group_object (mesh : nat) (b_model : BlenderModel)
    (gs : list VertexGroup) : Object :=
  {| ob_name := name b_model; ob_data := DataMesh mesh; ob_scale := vec3_one;
     ob_select := false; ob_show_x_ray := false; ob_vertex_groups := gs |}.

Definition empty_groups {Row} (tbl : list (string * Row)) : list VertexGroup :=
  map (λ val, {| vg_name := val.1; vg_weights := [] |}) tbl.

Definition importing_event (b_model : BlenderModel) : Event :=
  EvPrint [PStr "Importing group:"; PStr (name b_model)].

(** *** Weights *)

(** One [vertgroup.add([i], x, 'ADD')] on the group found under [g]. *)
Definition add_to_group (g : string) (i : nat) (x : Qc)
    (gs : list VertexGroup) : list VertexGroup :=
  match find_group g gs with
  | Some gi => alter (set_vg_weights (assign_weight ADD i x)) gi gs
  | None => gs
  end.

Definition replay (i : nat) (calls : list (string * Qc))
    (gs : list VertexGroup) : list VertexGroup :=
  foldl (λ gs c, add_to_group c.1 i c.2 gs) gs calls.

Definition row_events (ob i : nat) (calls : list (string * Qc)) : list Event :=
  flat_map (λ c, [EvPrint [PStr c.1]; EvVertexGroupAdd ob c.1 [i] c.2 ADD]) calls.

Section Weights.
Context {Row : Type}.
Variable tbl : list (string * Row).

(** Lines 175-185 over the rest of a row of bone indices: the group and
    the weight of each [vertgroup.add], or [None] when an index is out
    of range. *)
Fixpoint row_calls (row : list Z) (weights : list Qc) (j : nat) (remainder : Qc)
    : option (list (string * Qc)) :=
  match row with
  | [] => Some []
  | b :: row' =>
      val ← py_index tbl b;
      if negb (j =? 3)%nat then
        weight ← weights !! j;
        rest ← row_calls row' weights (S j) (remainder - weight);
        Some ((val.1, weight) :: rest)
      else
        rest ← row_calls row' weights (S j) remainder;
        Some ((val.1, remainder) :: rest)
  end.

Definition vertex_calls (b_model : BlenderModel) (i : nat)
    : option (list (string * Qc)) :=
  row ← bone_assign b_model !! i;
  row_calls row (default [] (bone_weight b_model !! i)) 0 1.

Definition vertex_events (b_model : BlenderModel) (ob : nat)
    (ic : nat * list (string * Qc)) : list Event :=
  EvPrint [PInt (Z.of_nat ic.1);
           PIntList (default [] (bone_assign b_model !! ic.1))]
    :: row_events ob ic.1 ic.2.

Definition replay_all (ics : list (nat * list (string * Qc)))
    (gs : list VertexGroup) : list VertexGroup :=
  foldl (λ gs ic, replay ic.1 ic.2 gs) gs ics.

End Weights.

Definition counts_event (b_model : BlenderModel) : Event :=
  EvPrint [PInt (Z.of_nat (length (vertices b_model)));
           PInt (Z.of_nat (length (bone_assign b_model)));
           PInt (Z.of_nat (length (bone_weight b_model)))].

Definition applying_event : Event := EvPrint [PStr "Applying bone weights"].

(** What a group must satisfy for lines 130-156 to run through: a normal
    for every vertex, and a UV pair under every face corner's index. *)
Definition geometry_ok (b_model : BlenderModel) : bool :=
  bool_decide (length (vertices b_model) ≤ length (normals b_model))%nat
  && forallb (λ v, bool_decide (is_Some (py_index (uvs b_model) v)))
             (concat (faces b_model)).

(** *** Reading the log and the vertex groups *)

(** The group, weight and mode of a logged [vertgroup.add] on object [ob]
    whose index list contains vertex [i]. *)
Definition add_call (ob i : nat) (e : Event) : option (string * Qc * AssignMode) :=
  match e with
  | EvVertexGroupAdd ob' g index x mode =>
      if bool_decide (ob' = ob ∧ i ∈ index) then Some (g, x, mode) else None
  | _ => None
  end.

(** The [vertgroup.add] calls made for vertex [i] of object [ob], in order. *)
Definition vertex_adds (ob i : nat) (evs : list Event)
    : list (string * Qc * AssignMode) :=
  omap (add_call ob i) evs.

(** The events appended to the log between two stores. *)
Definition new_events (w w' : World) : list Event :=
  drop (length (log w)) (log w').

Definition tag_add (c : string * Qc) : string * Qc * AssignMode := (c.1, c.2, ADD).

(** A group with another table of bone weights. *)
Definition with_bone_weight (bw : list (list Qc)) (b_model : BlenderModel)
    : BlenderModel :=
  {| name := name b_model; vertices := vertices b_model; faces := faces b_model;
     normals := normals b_model; uvs := uvs b_model;
     bone_assign := bone_assign b_model; bone_weight := bw |}.

(** [object.vertex_groups[g].weight(i)], as an option. *)
Definition group_weight (gs : list VertexGroup) (g : string) (i : nat) : option Qc :=
  gi ← find_group g gs;
  grp ← gs !! gi;
  weight_of (vg_weights grp) i.

(** A stored weight after one more contribution in mode ADD: the first
    contribution is stored (within the host's range), a later one is added
    to what is stored, and the result stops at one. *)
Definition accumulate (acc : option Qc) (x : Qc) : option Qc :=
  Some (match acc with
        | Some old => if bool_decide (1 ≤ old + clamp_weight x) then 1
                      else old + clamp_weight x
        | None => clamp_weight x
        end).

(** What a group stores for a vertex after the contributions [xs], in
    order: nothing without a contribution. *)
Definition total_weight (xs : list Qc) : option Qc := foldl accumulate None xs.

Definition sum_weights (xs : list Qc) : Qc := foldr Qcplus 0 xs.

(** The weights among the adds [adds] that went to group [g], in order. *)
Definition contributions (g : string) (adds : list (string * Qc * AssignMode))
    : list Qc :=
  map (λ a, a.1.2) (filter (λ a, a.1.1 = g) adds).

(** *** Stopping early, frames and readable groups *)

(** [d[k]] on an insertion-ordered dictionary; [None] for a missing key. *)
Fixpoint dict_get (k : string) (d : list (string * Qc)) : option Qc :=
  match d with
  | [] => None
  | (k', v) :: d' => if bool_decide (k' = k) then Some v else dict_get k d'
  end.

(** The store a computation stops in, whether it returns or raises. *)
Definition final_world {A} (r : outcome A) : World :=
  match r with Ok _ w => w | Raise _ w => w end.

(** A bone as lines 96-99 leave it: created, with only its tail set. *)
Definition half_bone (bd : BoneData) : EditBone :=
  set_eb_tail (quat_rotate (bd_rotation bd) (bd_position bd))
              (fresh_bone (bd_name bd)).

(** The bones in the armature when the loop over [skeldata] stops: all of
    them, or those built before the first bone whose parent index is out
    of range, followed by that bone as line 101 found it. *)
Fixpoint bones_at_stop (prev : list EditBone) (skeldata : list BoneData)
    : list EditBone :=
  match skeldata with
  | [] => prev
  | bd :: rest =>
      match built_bone prev bd with
      | Some b => bones_at_stop (prev ++ [b]) rest
      | None => prev ++ [half_bone bd]
      end
  end.

(** Position of the first bone whose parent index names no bone that
    exists when line 101 looks it up; [k] is the number of bones built
    before [skeldata]. *)
Fixpoint first_bad_parent (k : nat) (skeldata : list BoneData) : option nat :=
  match skeldata with
  | [] => None
  | bd :: rest =>
      match bd_parent bd with
      | Some p =>
          if bool_decide (- Z.of_nat (S k) ≤ p ≤ Z.of_nat k)%Z
          then first_bad_parent (S k) rest
          else Some k
      | None => first_bad_parent (S k) rest
      end
  end.

(** What a computation guarantees about the store it stops in, whether
    it returns or raises. *)
Definition preserves {A} (R : World → World → Prop) (m : M A) : Prop :=
  ∀ w, R w (final_world (m w)).

(** [w'] differs from [w] at most in the meshes from position [nm] on, in
    the objects from position [no] on, and by events added to the log. *)
Record frame (nm no : nat) (w w' : World) : Prop := {
  frame_armatures : armatures w' = armatures w;
  frame_scene : scene_objects w' = scene_objects w;
  frame_active : active_object w' = active_object w;
  frame_mode : mode w' = mode w;
  frame_meshes : take nm (meshes w') = take nm (meshes w);
  frame_meshes_length : length (meshes w') = length (meshes w);
  frame_objects : take no (objects w') = take no (objects w);
  frame_objects_length : length (objects w') = length (objects w);
  frame_log : log w `prefix_of` log w'
}.

(** The store as lines 130-135 leave it. *)
Definition created_world (b_model : BlenderModel) (w : World) : World :=
  group_world w
    {| mesh_name := name b_model; mesh_vertices := []; mesh_polygons := [];
       mesh_loops := 0; mesh_uv_layers := [] |}
    (group_object (length (meshes w)) b_model [])
    [importing_event b_model].

Section Fill.
Context {Row : Type}.
Variable bone_parent_table : list (string * Row).

(** Lines 137-156, for the mesh and the object of lines 133-135. *)
Definition fill_group (mesh object : nat) (b_model : BlenderModel) : M (nat * nat) :=
  from_pydata mesh (vertices b_model) (faces b_model);;
  load_normals mesh b_model;;
  uv_textures_new mesh "UVMap";;
  load_uvs mesh b_model;;
  for_each bone_parent_table (new_vertex_group object);;
  mret (mesh, object).

(** Lines 158-187, for the mesh and the object of lines 133-135. *)
Definition assign_group (mesh object : nat) (b_model : BlenderModel) : M string :=
  if counts_mismatch b_model then
    print [PInt (Z.of_nat (length (vertices b_model)));
           PInt (Z.of_nat (length (bone_assign b_model)));
           PInt (Z.of_nat (length (bone_weight b_model)))];;
    mret (error_message b_model)
  else
    check_coordinates mesh b_model;;
    print [PStr "Applying bone weights"];;
    for_each (seq 0 (length (bone_assign b_model)))
             (assign_vertex bone_parent_table object b_model);;
    mret (imported_message b_model).

End Fill.

Section Readable.
Context {Row : Type}.
Variable bone_parent_table : list (string * Row).

(** What lines 175-185 need from one vertex: every bone index of its row
    names a row of the bone table, and there is a weight at every
    position of the row except position 3. *)
Definition row_ok (row : list Z) (weights : list Qc) : bool :=
  forallb (λ b, bool_decide (is_Some (py_index bone_parent_table b))) row
  && forallb (λ j, (j =? 3)%nat || bool_decide (j < length weights)%nat)
             (seq 0 (length row)).

(** Every row of [bone_assign] passes, with the weights stored under the
    same position. *)
Definition weights_ok (b_model : BlenderModel) : bool :=
  forallb (λ i, row_ok (default [] (bone_assign b_model !! i))
                       (default [] (bone_weight b_model !! i)))
          (seq 0 (length (bone_assign b_model))).

(** The groups [do_import] returns for: readable geometry, and either
    mismatched counts or readable weights. *)
Definition importable (b_model : BlenderModel) : bool :=
  geometry_ok b_model && (counts_mismatch b_model || weights_ok b_model).

(** The string [do_import] returns for such a group. *)
Definition report_of (b_model : BlenderModel) : string :=
  if counts_mismatch b_model then error_message b_model
  else imported_message b_model.

End Readable.

(** A name the host stores as given when it is free: not empty, and at
    most 63 bytes long. *)
Definition storable (nm : string) : bool :=
  negb (String.eqb nm "") && (String.length nm <=? 63)%nat.

(** The names [requested], asked for one after the other where the names
    [taken] are in use, are all stored as given: each is storable and
    free, and no two are the same. *)
Definition names_kept (taken requested : list string) : bool :=
  forallb (λ nm, storable nm && bool_decide (nm ∉ taken)) requested
  && bool_decide (NoDup requested).

(** The vertex groups of a new object get the names of the bone table. *)
Definition table_names_kept {Row} (tbl : list (string * Row)) : bool :=
  names_kept [] (map fst tbl).

(** A line printed by the coordinate check of lines 166-169. *)
Definition coordinate_report (e : Event) : bool :=
  match e with
  | EvPrint [PVec _; PVec _] => true
  | _ => false
  end.

(** ** Sample inputs *)

Definition demo_bones : list BoneData :=
  [ {| bd_name := "root"; bd_position := V3 0 0 0;
       bd_rotation := Quat 1 0 0 0; bd_parent := None |};
    {| bd_name := "spine"; bd_position := V3 1 0 (Q2Qc 2);
       bd_rotation := Quat 1 0 0 0; bd_parent := Some 0%Z |};
    {| bd_name := "neck"; bd_position := V3 0 1 0;
       bd_rotation := Quat 1 0 0 0; bd_parent := Some 1%Z |};
    {| bd_name := "head"; bd_position := V3 0 1 0;
       bd_rotation := Quat 1 0 0 0; bd_parent := Some (-2)%Z |} ].

Definition demo_skeleton_file : GMDC :=
  {| load_header_result := true; header_file_type := 0xAC4F8687;
     groups_from_gmdc_result := GroupsFalse; build_bones_result := demo_bones |}.

Definition demo_skeleton_world : World :=
  match import_skeleton demo_skeleton_file empty_world with
  | Ok _ w' => w'
  | Raise _ w' => w'
  end.

Definition demo_table : list (string * unit) :=
  [("auskel", tt); ("root_trans", tt); ("pelvis", tt); ("spine0", tt)].

Definition demo_group : BlenderModel :=
  {| name := "body";
     vertices := [V3 0 0 0; V3 1 0 0; V3 0 1 0];
     faces := [[0; 1; 2]; [2; 1; -3]]%Z;
     normals := [V3 0 0 1; V3 0 0 1; V3 0 0 1];
     uvs := [V2 0 0; V2 1 0; V2 0 1];
     bone_assign := [[0; 1; 2; 3]; [1; 1]; [2]]%Z;
     bone_weight := [[Q2Qc (1 # 2); Q2Qc (1 # 4); Q2Qc (1 # 8)];
                     [Q2Qc (1 # 4); Q2Qc (1 # 2); 0];
                     [1; 0; 0]] |}.

(** Three vertices, two rows of bone indices. *)
Definition demo_bad_group : BlenderModel :=
  {| name := "hair";
     vertices := [V3 0 0 0; V3 1 0 0; V3 0 1 0];
     faces := [[0; 1; 2]]%Z;
     normals := [V3 0 0 1; V3 0 0 1; V3 0 0 1];
     uvs := [V2 0 0; V2 1 0; V2 0 1];
     bone_assign := [[0; 1; 2; 3]; [1; 1]]%Z;
     bone_weight := [[Q2Qc (1 # 2); Q2Qc (1 # 4); Q2Qc (1 # 8)];
                     [Q2Qc (1 # 4); Q2Qc (1 # 2); 0];
                     [1; 0; 0]] |}.

(** The store after [demo_group] was imported into the empty scene. *)
Definition demo_group_world : World :=
  match do_import demo_table demo_group 0 empty_world with
  | Ok _ w' => w'
  | Raise _ w' => w'
  end.

Definition demo_printed_world : World :=
  add_log (EvPrint [PStr (imported_message demo_group)]) demo_group_world.

(** A skeleton whose third bone names a parent that does not exist. *)
Definition demo_broken_bones : list BoneData :=
  [ {| bd_name := "root"; bd_position := V3 0 0 0;
       bd_rotation := Quat 1 0 0 0; bd_parent := None |};
    {| bd_name := "spine"; bd_position := V3 1 0 (Q2Qc 2);
       bd_rotation := Quat 1 0 0 0; bd_parent := Some 0%Z |};
    {| bd_name := "neck"; bd_position := V3 0 1 0;
       bd_rotation := Quat 1 0 0 0; bd_parent := Some 7%Z |};
    {| bd_name := "head"; bd_position := V3 0 1 0;
       bd_rotation := Quat 1 0 0 0; bd_parent := Some 2%Z |} ].

Definition demo_broken_file : GMDC :=
  {| load_header_result := true; header_file_type := 0xAC4F8687;
     groups_from_gmdc_result := GroupsList [demo_group];
     build_bones_result := demo_broken_bones |}.

(** A scene that already holds a selected, scaled mesh object and an
    armature of one bone. *)
Definition demo_scene : World :=
  {| meshes := [ {| mesh_name := "Cube";
                    mesh_vertices := [ {| co := V3 1 1 1; normal := V3 0 0 1 |} ];
                    mesh_polygons := []; mesh_loops := 0; mesh_uv_layers := [] |} ];
     armatures := [ {| arm_draw_type := "OCTAHEDRAL";
                       arm_bones := [ {| eb_name := "Bone"; eb_head := V3 0 0 0;
                                         eb_tail := V3 0 0 1; eb_parent := None;
                                         eb_props := [] |} ] |} ];
     objects := [ {| ob_name := "Cube"; ob_data := DataMesh 0;
                     ob_scale := V3 (Q2Qc 2) (Q2Qc 2) (Q2Qc 2); ob_select := true;
                     ob_show_x_ray := false; ob_vertex_groups := [] |};
                  {| ob_name := "Rig"; ob_data := DataArmature 0;
                     ob_scale := vec3_one; ob_select := true;
                     ob_show_x_ray := false; ob_vertex_groups := [] |} ];
     scene_objects := [0; 1]%nat;
     active_object := Some 0%nat; mode := OBJECT; log := [] |}.

(** A group whose second vertex names bone 9, past the end of
    [demo_table]. *)
Definition demo_unreadable_group : BlenderModel :=
  {| name := "shoes";
     vertices := [V3 0 0 0; V3 1 0 0; V3 0 1 0];
     faces := [[0; 1; 2]]%Z;
     normals := [V3 0 0 1; V3 0 0 1; V3 0 0 1];
     uvs := [V2 0 0; V2 1 0; V2 0 1];
     bone_assign := [[0]; [1; 9]; [2]]%Z;
     bone_weight := [[1; 0; 0]; [Q2Qc (1 # 2); Q2Qc (1 # 2); 0]; [1; 0; 0]] |}.

Definition demo_whole_file : GMDC :=
  {| load_header_result := true; header_file_type := 0xAC4F8687;
     groups_from_gmdc_result := GroupsList [demo_group; demo_bad_group];
     build_bones_result := demo_bones |}.


(** Three vertices, two rows of bone indices, and only two normals. *)
Definition demo_short_normals_group : BlenderModel :=
  {| name := "skirt";
     vertices := [V3 0 0 0; V3 1 0 0; V3 0 1 0];
     faces := [[0; 1; 2]]%Z;
     normals := [V3 0 0 1; V3 0 0 1];
     uvs := [V2 0 0; V2 1 0; V2 0 1];
     bone_assign := [[0; 1; 2; 3]; [1; 1]]%Z;
     bone_weight := [[Q2Qc (1 # 2); Q2Qc (1 # 4); Q2Qc (1 # 8)];
                     [Q2Qc (1 # 4); Q2Qc (1 # 2); 0];
                     [1; 0; 0]] |}.

(** * Properties *)

(** ** Running computations *)

(** Closed decidable facts, by evaluation. *)
Ltac by_compute :=
  match goal with
  | |- ?P => apply (@bool_decide_unpack P _); vm_compute; exact I
  end.

Lemma bind_run {A B} (m : M A) (f : A → M B) w :
  (m ≫= f) w = match m w with Ok a w' => f a w' | Raise e w' => Raise e w' end.
Proof. reflexivity. Qed.

Lemma ret_bind {A B} (a : A) (f : A → M B) w : (mret a ≫= f) w = f a w.
Proof. reflexivity. Qed.

Lemma world_eta w :
  {| meshes := meshes w; armatures := armatures w; objects := objects w;
     scene_objects := scene_objects w; active_object := active_object w;
     mode := mode w; log := log w |} = w.
Proof. by destruct w. Qed.

Lemma list_alter_insert_eq {A} (f : A → A) (l : list A) i x :
  alter f i (<[i := x]> l) = <[i := f x]> l.
Proof.
  revert i; induction l as [|y l IH]; intros [|i]; try done.
  cbn. f_equal. apply IH.
Qed.

Lemma alter_last {A} (f : A → A) (l : list A) x :
  alter f (length l) (l ++ [x]) = l ++ [f x].
Proof. induction l as [|y l IH]; [done|]. cbn. f_equal. apply IH. Qed.

Lemma insert_last {A} (l : list A) x y :
  <[length l := y]> (l ++ [x]) = l ++ [y].
Proof. induction l as [|z l IH]; [done|]. cbn. f_equal. apply IH. Qed.

Lemma put_armature_put h a1 a2 w :
  put_armature h a2 (put_armature h a1 w) = put_armature h a2 w.
Proof. unfold put_armature, set_armatures; simpl. by rewrite list_insert_insert_eq. Qed.

Lemma put_armature_id h a w : armatures w !! h = Some a → put_armature h a w = w.
Proof.
  intros H. unfold put_armature, set_armatures. rewrite list_insert_id; [|done].
  apply world_eta.
Qed.

Lemma get_armature_put h a w :
  (h < length (armatures w))%nat →
  get_armature h (put_armature h a w) = Ok a (put_armature h a w).
Proof.
  intros H. unfold get_armature, put_armature; simpl.
  by rewrite list_lookup_insert_eq.
Qed.

Lemma modify_armature_put h f a w :
  (h < length (armatures w))%nat →
  modify_armature h f (put_armature h a w) = Ok tt (put_armature h (f a) w).
Proof.
  intros H. unfold modify_armature. rewrite bind_run, get_armature_put by done.
  unfold modify, put_armature, set_armatures; simpl.
  by rewrite list_alter_insert_eq.
Qed.

Lemma get_bone_put h a bs b w :
  (h < length (armatures w))%nat →
  get_bone h b (put_bones h a bs w) = lift_opt ReferenceError (bs !! b) (put_bones h a bs w).
Proof.
  intros H. unfold get_bone, put_bones. by rewrite bind_run, get_armature_put.
Qed.

Lemma modify_bone_put h a prev cur f w :
  (h < length (armatures w))%nat →
  modify_bone h (length prev) f (put_bones h a (prev ++ [cur]) w)
  = Ok tt (put_bones h a (prev ++ [f cur]) w).
Proof.
  intros H. unfold modify_bone. rewrite bind_run, get_bone_put by done.
  rewrite list_lookup_middle by done. simpl.
  unfold put_bones. rewrite modify_armature_put by done.
  unfold set_arm_bones; simpl. by rewrite alter_last.
Qed.

Lemma edit_bones_new_put h a bs nm w :
  (h < length (armatures w))%nat →
  edit_bones_new h nm (put_bones h a bs w)
  = Ok (length bs) (put_bones h a (bs ++ [fresh_bone nm]) w).
Proof.
  intros H. unfold edit_bones_new, put_bones.
  rewrite bind_run, get_armature_put by done.
  rewrite bind_run, modify_armature_put by done. done.
Qed.

Lemma edit_bones_index_put h a bs p w :
  (h < length (armatures w))%nat →
  edit_bones_index h p (put_bones h a bs w)
  = lift_opt IndexError (py_position bs p) (put_bones h a bs w).
Proof.
  intros H. unfold edit_bones_index, put_bones.
  by rewrite bind_run, get_armature_put.
Qed.

Lemma py_position_lt {A} (l : list A) i q : py_position l i = Some q → (q < length l)%nat.
Proof.
  unfold py_position. repeat case_bool_decide; intros; simplify_eq; lia.
Qed.

Lemma py_index_position {A} (l : list A) i :
  py_index l i = py_position l i ≫= (l !!.).
Proof.
  unfold py_index, py_position. repeat case_bool_decide; simpl; try done.
  apply lookup_ge_None. lia.
Qed.

Lemma lookup_last_tail (prev : list EditBone) cur (f : EditBone → EditBone) q :
  (∀ b, eb_tail (f b) = eb_tail b) →
  eb_tail <$> (prev ++ [f cur]) !! q = eb_tail <$> (prev ++ [cur]) !! q.
Proof.
  intros Hf. destruct (decide (q < length prev)%nat).
  - by rewrite !lookup_app_l.
  - rewrite !lookup_app_r by lia.
    destruct (q - length prev)%nat; simpl; [by rewrite Hf|done].
Qed.

Ltac mred :=
  repeat first [rewrite bind_run
               | progress cbn [lift_opt mret M_ret raise modify]
               | progress unfold modify].

Ltac wred :=
  cbn [meshes armatures objects scene_objects active_object mode log
       add_log set_meshes set_armatures set_objects set_scene_objects
       set_active_object set_mode].

Lemma build_bone_put h a prev bd w :
  (h < length (armatures w))%nat →
  match built_bone prev bd with
  | Some b => build_bone h bd (put_bones h a prev w)
              = Ok tt (put_bones h a (prev ++ [b]) w)
  | None => ∃ w', build_bone h bd (put_bones h a prev w) = Raise IndexError w'
  end.
Proof.
  intros H. unfold build_bone, built_bone.
  mred. rewrite edit_bones_new_put by done. mred.
  rewrite modify_bone_put by done. mred.
  set (cur := set_eb_tail _ _).
  destruct (bd_parent bd) as [p|].
  - mred. rewrite edit_bones_index_put by done.
    destruct (py_position _ p) as [q|] eqn:Hq; mred; [|eexists; reflexivity].
    assert (Hlt := py_position_lt _ _ _ Hq).
    rewrite modify_bone_put by done. mred. rewrite get_bone_put by done.
    destruct (lookup_lt_is_Some_2 (prev ++ [set_eb_parent (Some q) cur]) q) as [pb Hpb].
    { rewrite length_app in *. done. }
    assert (Ht := lookup_last_tail prev cur (set_eb_parent (Some q)) q (λ _, eq_refl)).
    rewrite Hpb in Ht. cbn [mbind option_bind]. rewrite <- Ht, Hpb.
    cbn [fmap option_fmap option_map mbind option_bind]. mred.
    rewrite modify_bone_put by done. mred.
    rewrite get_bone_put, list_lookup_middle by done. mred.
    unfold stretch. cbn [eb_tail eb_head set_eb_head set_eb_parent set_eb_tail cur fresh_bone].
    destruct (vec3_eqb _ _); mred; repeat (rewrite modify_bone_put by done; mred);
      reflexivity.
  - mred. rewrite get_bone_put, list_lookup_middle by done. mred.
    unfold stretch. cbn [eb_tail eb_head set_eb_head set_eb_parent set_eb_tail cur fresh_bone].
    destruct (vec3_eqb _ _); mred; repeat (rewrite modify_bone_put by done; mred);
      reflexivity.
Qed.

Lemma build_loop_put h a skeldata : ∀ prev w,
  (h < length (armatures w))%nat →
  match built_bones prev skeldata with
  | Some bs => for_each skeldata (build_bone h) (put_bones h a prev w)
               = Ok tt (put_bones h a bs w)
  | None => ∃ w', for_each skeldata (build_bone h) (put_bones h a prev w)
                  = Raise IndexError w'
  end.
Proof.
  induction skeldata as [|bd rest IH]; intros prev w H; [done|].
  cbn [built_bones for_each]. mred.
  pose proof (build_bone_put h a prev bd w H) as Hb.
  destruct (built_bone prev bd) as [b|]; cbn [mbind option_bind].
  - rewrite Hb. apply IH, H.
  - destruct Hb as [w' ->]. eauto.
Qed.

Lemma modify_object_last f w l o :
  objects w = l ++ [o] →
  modify_object (length l) f w = Ok tt (set_objects (λ _, l ++ [f o]) w).
Proof.
  intros H. unfold modify_object, get_object. mred.
  rewrite H, list_lookup_middle by done. mred.
  unfold set_objects. by rewrite H, alter_last.
Qed.

Lemma build_armature_spec gmdc w :
  match built_bones [] (build_bones_result gmdc) with
  | Some bs => build_armature gmdc w = Ok (length (objects w)) (armature_world w bs EDIT)
  | None => ∃ w', build_armature gmdc w = Raise IndexError w'
  end.
Proof.
  unfold build_armature, build_bones, bpy_ops_object_add_armature, bpy_context_object.
  mred. wred. mred.
  set (o := {| ob_name := "Armature"; ob_data := _ |}).
  set (l := map (set_ob_select false) (objects w)).
  assert (Hl : length (objects w) = length l) by (unfold l; by rewrite length_map).
  rewrite Hl.
  rewrite (modify_object_last _ _ l o) by done. mred.
  rewrite (modify_object_last _ _ l (set_ob_show_x_ray true o)) by done. mred.
  unfold object_armature, get_object. mred.
  cbn [objects set_objects]. rewrite list_lookup_middle by done. mred.
  cbn [ob_data set_ob_name set_ob_show_x_ray o]. mred.
  set (a0 := {| arm_draw_type := "STICK"; arm_bones := [] |}).
  match goal with |- context [modify_armature _ _ ?W] => set (W0 := W) end.
  assert (Hlen : (length (armatures w) < length (armatures W0))%nat).
  { cbn. rewrite length_app. cbn. lia. }
  assert (HW0 : W0 = put_armature (length (armatures w))
            {| arm_draw_type := "OCTAHEDRAL"; arm_bones := [] |} W0).
  { symmetry. apply put_armature_id. cbn. by rewrite list_lookup_middle. }
  assert (Hmod : modify_armature (length (armatures w)) (set_arm_draw_type "STICK") W0
                 = Ok tt (put_bones (length (armatures w)) a0 [] W0)).
  { change (put_bones ?h a0 [] W0)
      with (put_armature h (set_arm_draw_type "STICK"
              {| arm_draw_type := "OCTAHEDRAL"; arm_bones := [] |}) W0).
    rewrite <- modify_armature_put by done. by rewrite <- HW0. }
  rewrite Hmod. mred.
  pose proof (build_loop_put (length (armatures w)) a0 (build_bones_result gmdc) [] W0 Hlen) as Hloop.
  destruct (built_bones [] _) as [bs|].
  - rewrite Hloop. mred. f_equal.
    unfold put_bones, put_armature, set_armatures, armature_world. cbn.
    by rewrite insert_last, Hl.
  - destruct Hloop as [w' ->]. by eexists.
Qed.

Lemma foldl_apply_deselected w l :
  foldl apply_object_scale w (map (set_ob_select false) l) = w.
Proof. induction l as [|o l IH]; [done|]. cbn. apply IH. Qed.

Lemma map_if_deselected (g : Object → Object) l :
  map (λ o, if ob_select o then g o else o) (map (set_ob_select false) l)
  = map (set_ob_select false) l.
Proof. rewrite map_map. by apply map_ext. Qed.

Lemma import_skeleton_spec gmdc w :
  match built_bones [] (build_bones_result gmdc) with
  | Some bs => import_skeleton gmdc w
               = Ok (length (objects w))
                    (armature_world w (map (scale_bone mirror_scale) bs) OBJECT)
  | None => ∃ w', import_skeleton gmdc w = Raise IndexError w'
  end.
Proof.
  unfold import_skeleton. mred.
  pose proof (build_armature_spec gmdc w) as Hb.
  destruct (built_bones [] _) as [bs|]; [|destruct Hb as [w' ->]; by eexists].
  rewrite Hb.
  unfold bpy_ops_object_mode_set, bpy_ops_transform_resize,
    bpy_ops_object_transform_apply. mred.
  f_equal. unfold armature_world. wred.
  rewrite !map_app, !map_if_deselected. cbn [map ob_select set_ob_scale].
  rewrite foldl_app, foldl_apply_deselected.
  cbn [foldl]. unfold apply_object_scale.
  cbn [ob_select ob_data ob_scale set_ob_scale].
  unfold set_objects, set_armatures, set_mode. wred.
  rewrite !map_app, !map_if_deselected. cbn [map ob_select set_ob_scale].
  by rewrite alter_last.
Qed.

Lemma vec3_scale_mirror v : vec3_scale mirror_scale v = mirror_z v.
Proof.
  unfold mirror_scale, vec3_scale, mirror_z, vec3_one; cbn [vx vy vz].
  f_equal; ring.
Qed.

Lemma scale_bone_mirror b : scale_bone mirror_scale b = mirror_bone b.
Proof.
  unfold scale_bone, mirror_bone, set_eb_tail, set_eb_head; cbn [eb_head eb_tail eb_name eb_parent eb_props].
  by rewrite !vec3_scale_mirror.
Qed.

Lemma mirror_z_involutive v : mirror_z (mirror_z v) = v.
Proof. destruct v as [x y z]. unfold mirror_z; cbn [vx vy vz]. f_equal. ring. Qed.


Lemma mirror_z_zero : mirror_z vec3_zero = vec3_zero.
Proof. unfold mirror_z, vec3_zero; cbn [vx vy vz]. f_equal. Qed.





Lemma built_bones_lookup skel : ∀ prev bs,
  built_bones prev skel = Some bs →
  length bs = (length prev + length skel)%nat ∧
  take (length prev) bs = prev ∧
  ∀ k bd, skel !! k = Some bd →
    ∃ b, bs !! (length prev + k)%nat = Some b ∧
         built_bone (take (length prev + k) bs) bd = Some b.
Proof.
  induction skel as [|bd0 rest IH]; intros prev bs H; cbn [built_bones] in H.
  - simplify_eq. split; [cbn; lia|]. split; [by rewrite firstn_all|]. intros k bd [=].
  - destruct (built_bone prev bd0) as [b0|] eqn:Hb0; [|done]. cbn in H.
    destruct (IH _ _ H) as (Hlen & Htake & Hk). rewrite length_app in *. cbn in *.
    assert (Hprev : take (length prev) bs = prev).
    { transitivity (take (length prev) (take (length prev + 1) bs)).
      - rewrite take_take. f_equal. lia.
      - rewrite Htake. apply take_app_length. }
    split; [lia|]. split; [done|].
    intros [|k] bd Hbd; cbn in Hbd.
    + simplify_eq. rewrite Nat.add_0_r, Hprev. eexists; split; [|done].
      rewrite <- (take_drop (length prev + 1) bs), Htake.
      rewrite lookup_app_l by (rewrite length_app; cbn; lia).
      by rewrite list_lookup_middle.
    + destruct (Hk k bd Hbd) as (b & ? & ?).
      replace (length prev + S k)%nat with (length prev + 1 + k)%nat by lia. eauto.
Qed.

Lemma py_position_in_range {A} (l : list A) (p : Z) :
  (- Z.of_nat (length l) ≤ p < Z.of_nat (length l))%Z →
  is_Some (py_position l p).
Proof.
  intros H. unfold py_position. repeat case_bool_decide; eauto; lia.
Qed.

Lemma built_bone_resolves prev bd :
  match bd_parent bd with
  | None => True
  | Some p => (- Z.of_nat (S (length prev)) ≤ p ≤ Z.of_nat (length prev))%Z
  end →
  is_Some (built_bone prev bd).
Proof.
  unfold built_bone. destruct (bd_parent bd) as [p|]; [|eauto].
  set (l := prev ++ _). intros H.
  assert (Hl : length l = S (length prev)) by (unfold l; rewrite length_app; cbn; lia).
  destruct (py_position_in_range l p) as [q Hq]; [lia|].
  rewrite Hq. cbn [mbind option_bind].
  destruct (lookup_lt_is_Some_2 l q (py_position_lt _ _ _ Hq)) as [pb ->].
  cbn. eauto.
Qed.

Lemma built_bones_resolve skel : ∀ prev,
  parents_resolve (length prev) skel = true → is_Some (built_bones prev skel).
Proof.
  induction skel as [|bd rest IH]; intros prev H; cbn [built_bones]; [eauto|].
  cbn [parents_resolve] in H. apply andb_prop in H as [Hp Hrest].
  destruct (built_bone_resolves prev bd) as [b Hb].
  { destruct (bd_parent bd); [|done]. by apply bool_decide_eq_true in Hp. }
  rewrite Hb. cbn [mbind option_bind]. apply IH.
  rewrite length_app. cbn [length]. by rewrite Nat.add_1_r.
Qed.

(** What [import_skeleton] returns, read off [import_skeleton_spec]. *)
Lemma import_skeleton_ok gmdc w ob w' :
  import_skeleton gmdc w = Ok ob w' →
  ∃ bs, built_bones [] (build_bones_result gmdc) = Some bs ∧
        ob = length (objects w) ∧
        w' = armature_world w (map mirror_bone bs) OBJECT.
Proof.
  intros H. pose proof (import_skeleton_spec gmdc w) as Hs.
  destruct (built_bones [] _) as [bs|].
  - rewrite Hs in H. injection H as <- <-. exists bs.
    split; [done|]. split; [done|]. f_equal.
    apply map_ext. intros b. apply scale_bone_mirror.
  - destruct Hs as [w'' Hs]. by rewrite Hs in H.
Qed.

Lemma armature_world_lookup w bs md :
  armatures (armature_world w bs md) !! length (armatures w)
  = Some {| arm_draw_type := "STICK"; arm_bones := bs |}.
Proof. cbn. by rewrite list_lookup_middle. Qed.

Lemma py_position_length {A B} (l1 : list A) (l2 : list B) i :
  length l1 = length l2 → py_position l1 i = py_position l2 i.
Proof. intros H. unfold py_position. by rewrite H. Qed.

(** The shape of bone number [k] when [import_skeleton] returns. *)
Lemma final_bone_shape gmdc w ob w' :
  import_skeleton gmdc w = Ok ob w' →
  ∃ a, armatures w' !! length (armatures w) = Some a ∧
    length (arm_bones a) = length (build_bones_result gmdc) ∧
    ∀ k bd, build_bones_result gmdc !! k = Some bd →
    ∃ b, arm_bones a !! k = Some b ∧
      eb_name b = bd_name bd ∧
      eb_props b = bone_props bd ∧
      eb_tail b = mirror_z (stretch (quat_rotate (bd_rotation bd) (bd_position bd))
                                    (mirror_z (eb_head b))) ∧
      match bd_parent bd with
      | None => eb_head b = vec3_zero ∧ eb_parent b = None
      | Some p =>
          ∃ q, py_position (take (S k) (arm_bones a)) p = Some q ∧
               eb_parent b = Some q ∧
               ((q < k)%nat → ∃ pb, arm_bones a !! q = Some pb ∧ eb_head b = eb_tail pb)
      end.
Proof.
  intros H. apply import_skeleton_ok in H as (bs & Hbs & -> & ->).
  eexists. split; [apply armature_world_lookup|]. cbn [arm_bones].
  apply built_bones_lookup in Hbs as (Hlen & _ & Hk). cbn [length] in Hlen, Hk.
  split; [by rewrite length_map|].
  intros k bd Hbd. destruct (Hk k bd Hbd) as (b0 & Hb0 & Hbuilt). cbn in Hb0, Hbuilt.
  exists (mirror_bone b0). split; [by rewrite list_lookup_fmap, Hb0|].
  assert (Hklt : (k < length bs)%nat) by (by apply lookup_lt_Some in Hb0).
  unfold built_bone in Hbuilt. destruct (bd_parent bd) as [p|].
  - destruct (py_position _ p) as [q|] eqn:Hq; [|done]. cbn [mbind option_bind] in Hbuilt.
    destruct (_ !! q) as [pb0|] eqn:Hpb0; [|done]. cbn in Hbuilt. simplify_eq.
    cbn [mirror_bone eb_name eb_props eb_tail eb_head eb_parent].
    rewrite mirror_z_involutive. do 3 (split; [done|]).
    exists q. split; [|split; [done|]].
    + rewrite <- Hq. apply py_position_length.
      rewrite length_app, !length_take, length_map. cbn [length]. lia.
    + intros Hqk. rewrite lookup_app_l in Hpb0 by (rewrite length_take; lia).
      rewrite lookup_take_lt in Hpb0 by done.
      exists (mirror_bone pb0). by rewrite list_lookup_fmap, Hpb0.
  - simplify_eq. cbn [mirror_bone eb_name eb_props eb_tail eb_head eb_parent].
    by rewrite mirror_z_involutive, mirror_z_zero.
Qed.

(** ** The skeleton *)

(** C2, as the code has it: when [import_skeleton] returns, bone number
    [k] of the new armature has its tail at the bone's rotation applied to
    the bone's translation (moved by the fixed epsilon along Y when that
    point is the bone's head), reflected through [z = 0] with the rest of
    the skeleton; the parent's tail is not added to it.  A bone whose
    parent comes earlier in the list has its head at that parent's tail,
    and a bone with no parent has its head at the origin. *)
Theorem import_skeleton_bone_positions gmdc w ob w' :
  import_skeleton gmdc w = Ok ob w' →
  ∃ a, armatures w' !! length (armatures w) = Some a ∧
    length (arm_bones a) = length (build_bones_result gmdc) ∧
    ∀ k bd, build_bones_result gmdc !! k = Some bd →
    ∃ b, arm_bones a !! k = Some b ∧
      eb_tail b = mirror_z (stretch (quat_rotate (bd_rotation bd) (bd_position bd))
                                    (mirror_z (eb_head b))) ∧
      match bd_parent bd with
      | None => eb_head b = vec3_zero
      | Some p =>
          ∃ q, py_position (take (S k) (arm_bones a)) p = Some q ∧
               eb_parent b = Some q ∧
               ((q < k)%nat → ∃ pb, arm_bones a !! q = Some pb ∧ eb_head b = eb_tail pb)
      end.
Proof.
  intros H. destruct (final_bone_shape _ _ _ _ H) as (a & Ha & Hlen & Hk).
  exists a. split; [done|]. split; [done|].
  intros k bd Hbd. destruct (Hk k bd Hbd) as (b & Hb & _ & _ & Htail & Hpar).
  exists b. split; [done|]. split; [done|].
  destruct (bd_parent bd); [done|]. by destruct Hpar.
Qed.

Lemma import_skeleton_bone_positions_witness :
  ∃ a, armatures demo_skeleton_world !! length (armatures empty_world) = Some a ∧
    length (arm_bones a) = length (build_bones_result demo_skeleton_file) ∧
    ∀ k bd, build_bones_result demo_skeleton_file !! k = Some bd →
    ∃ b, arm_bones a !! k = Some b ∧
      eb_tail b = mirror_z (stretch (quat_rotate (bd_rotation bd) (bd_position bd))
                                    (mirror_z (eb_head b))) ∧
      match bd_parent bd with
      | None => eb_head b = vec3_zero
      | Some p =>
          ∃ q, py_position (take (S k) (arm_bones a)) p = Some q ∧
               eb_parent b = Some q ∧
               ((q < k)%nat → ∃ pb, arm_bones a !! q = Some pb ∧ eb_head b = eb_tail pb)
      end.
Proof.
  apply (import_skeleton_bone_positions demo_skeleton_file empty_world 0%nat).
  vm_compute. reflexivity.
Defined.

(** The chain rule of C2 fails on the code: with a root whose tail is
    (1,0,0) and a child of that root whose rotated translation is (0,1,0),
    the child's tail is (0,1,0), not (1,1,0). *)
Lemma chain_rule_counterexample :
  let file :=
    {| load_header_result := true; header_file_type := 0xAC4F8687;
       groups_from_gmdc_result := GroupsFalse;
       build_bones_result :=
         [ {| bd_name := "root"; bd_position := V3 1 0 0;
              bd_rotation := Quat 1 0 0 0; bd_parent := None |};
           {| bd_name := "child"; bd_position := V3 0 1 0;
              bd_rotation := Quat 1 0 0 0; bd_parent := Some 0%Z |} ] |} in
  ∃ ob w' a root child,
    import_skeleton file empty_world = Ok ob w' ∧
    armatures w' !! 0%nat = Some a ∧
    arm_bones a !! 0%nat = Some root ∧
    arm_bones a !! 1%nat = Some child ∧
    eb_parent child = Some 0%nat ∧
    eb_tail root = V3 1 0 0 ∧
    quat_rotate (Quat 1 0 0 0) (V3 0 1 0) = V3 0 1 0 ∧
    eb_tail child = V3 0 1 0 ∧
    eb_tail child ≠ vec3_add (eb_tail root) (quat_rotate (Quat 1 0 0 0) (V3 0 1 0)).
Proof.
  cbv zeta. do 5 eexists.
  split; [vm_compute; reflexivity|].
  split; [reflexivity|]. split; [reflexivity|]. split; [reflexivity|].
  split; [reflexivity|].
  repeat split; by_compute.
Qed.




(** C7: the last three lines of [import_skeleton] reflect the finished
    skeleton through [z = 0] in one step: every bone of the new armature
    gets the same reflection of its head and of its tail, applied once,
    with its name, parent and stored [tX..rZ] properties as the loop left
    them; the meshes, the objects (the armature object keeps scale one),
    the scene, the other armatures and the log are as they were when the
    last bone was built. *)
Theorem import_skeleton_mirrors_once gmdc w ob w' :
  import_skeleton gmdc w = Ok ob w' →
  ∃ w1 a1,
    build_armature gmdc w = Ok ob w1 ∧
    armatures w1 !! length (armatures w) = Some a1 ∧
    armatures w' =
      <[length (armatures w) :=
          {| arm_draw_type := arm_draw_type a1;
             arm_bones := map mirror_bone (arm_bones a1) |}]> (armatures w1) ∧
    meshes w' = meshes w1 ∧
    objects w' = objects w1 ∧
    scene_objects w' = scene_objects w1 ∧
    active_object w' = active_object w1 ∧
    log w' = log w1 ∧
    mode w' = OBJECT.
Proof.
  intros H. apply import_skeleton_ok in H as (bs & Hbs & -> & ->).
  pose proof (build_armature_spec gmdc w) as Hb. rewrite Hbs in Hb.
  eexists _, _. split; [exact Hb|]. split; [apply armature_world_lookup|].
  cbn. by rewrite insert_last.
Qed.

Lemma import_skeleton_mirrors_once_witness :
  ∃ w1 a1,
    build_armature demo_skeleton_file empty_world = Ok 0%nat w1 ∧
    armatures w1 !! length (armatures empty_world) = Some a1 ∧
    armatures demo_skeleton_world =
      <[length (armatures empty_world) :=
          {| arm_draw_type := arm_draw_type a1;
             arm_bones := map mirror_bone (arm_bones a1) |}]> (armatures w1) ∧
    meshes demo_skeleton_world = meshes w1 ∧
    objects demo_skeleton_world = objects w1 ∧
    scene_objects demo_skeleton_world = scene_objects w1 ∧
    active_object demo_skeleton_world = active_object w1 ∧
    log demo_skeleton_world = log w1 ∧
    mode demo_skeleton_world = OBJECT.
Proof.
  apply (import_skeleton_mirrors_once demo_skeleton_file empty_world 0%nat).
  vm_compute. reflexivity.
Defined.

(** ** [execute] and [parse_data] *)

Section Execute.

Context {Row : Type}.
Variable bone_parent_table : list (string * Row).

(** C4: when [load_header] reports an unsupported header, [execute]
    (and [parse_data]) return [False] right after printing the
    unsupported version: the log gains the header check and that one
    line, with no call to [load_data], [groups_from_gmdc] or
    [build_bones], and no mesh, armature or object is created. *)
Theorem execute_unsupported_header gmdc w :
  load_header_result gmdc = false →
  ∃ w',
    execute bone_parent_table gmdc w = Ok ReturnFalse w' ∧
    parse_data gmdc w = Ok ParseFalse w' ∧
    log w' = log w ++ [EvLoadHeader; EvPrint (unsupported_report gmdc)] ∧
    meshes w' = meshes w ∧
    armatures w' = armatures w ∧
    objects w' = objects w ∧
    scene_objects w' = scene_objects w.
Proof.
  intros H. eexists.
  split; [unfold execute, load_header, print; mred; rewrite H; reflexivity|].
  split; [unfold parse_data, load_header, print; mred; rewrite H; reflexivity|].
  cbn. by rewrite <- app_assoc.
Qed.

(** C8: when the header is supported and [groups_from_gmdc] returns
    [False], [execute] still runs [import_skeleton] and returns
    [{'FINISHED'}] in the store [import_skeleton] leaves: the armature
    has one bone per bone record, and no mesh and no object other than
    the armature's is created.  (Every parent index is taken to name a
    bone that exists when it is looked up.) *)
Theorem execute_without_geometry gmdc w :
  load_header_result gmdc = true →
  groups_from_gmdc_result gmdc = GroupsFalse →
  parents_resolve 0 (build_bones_result gmdc) = true →
  ∃ ob w',
    import_skeleton gmdc
      (add_log EvGroupsFromGmdc (add_log EvLoadData (add_log EvLoadHeader w)))
      = Ok ob w' ∧
    execute bone_parent_table gmdc w = Ok ReturnFinished w' ∧
    meshes w' = meshes w ∧
    length (objects w') = S (length (objects w)) ∧
    log w' = log w ++ [EvLoadHeader; EvLoadData; EvGroupsFromGmdc; EvBuildBones] ∧
    ∃ a, armatures w' !! length (armatures w) = Some a ∧
         length (arm_bones a) = length (build_bones_result gmdc).
Proof.
  intros Hh Hg Hp.
  destruct (built_bones_resolve _ [] Hp) as [bs Hbs].
  set (w0 := add_log EvGroupsFromGmdc _).
  pose proof (import_skeleton_spec gmdc w0) as Hs. rewrite Hbs in Hs.
  eexists _, _. split; [exact Hs|].
  split.
  { unfold execute, load_header, load_data, groups_from_gmdc. mred.
    rewrite Hh, Hg. cbn [negb]. mred. fold w0. rewrite Hs. reflexivity. }
  apply built_bones_lookup in Hbs as (Hlen & _ & _).
  cbn. rewrite !length_app, !length_map. cbn.
  split; [done|]. split; [lia|]. split; [by rewrite <- !app_assoc|].
  eexists. split; [by rewrite list_lookup_middle|].
  cbn. by rewrite length_map.
Qed.

End Execute.

Lemma execute_unsupported_header_witness :
  let gmdc := {| load_header_result := false; header_file_type := 0x1234;
                 groups_from_gmdc_result := GroupsFalse;
                 build_bones_result := demo_bones |} in
  ∃ w',
    execute ([] : list (string * unit)) gmdc empty_world = Ok ReturnFalse w' ∧
    parse_data gmdc empty_world = Ok ParseFalse w' ∧
    log w' = log empty_world ++ [EvLoadHeader; EvPrint (unsupported_report gmdc)] ∧
    meshes w' = meshes empty_world ∧
    armatures w' = armatures empty_world ∧
    objects w' = objects empty_world ∧
    scene_objects w' = scene_objects empty_world.
Proof.
  cbv zeta. apply execute_unsupported_header. reflexivity.
Defined.

Lemma execute_without_geometry_witness :
  ∃ ob w',
    import_skeleton demo_skeleton_file
      (add_log EvGroupsFromGmdc (add_log EvLoadData (add_log EvLoadHeader empty_world)))
      = Ok ob w' ∧
    execute ([] : list (string * unit)) demo_skeleton_file empty_world
      = Ok ReturnFinished w' ∧
    meshes w' = meshes empty_world ∧
    length (objects w') = S (length (objects empty_world)) ∧
    log w' = log empty_world
             ++ [EvLoadHeader; EvLoadData; EvGroupsFromGmdc; EvBuildBones] ∧
    ∃ a, armatures w' !! length (armatures empty_world) = Some a ∧
         length (arm_bones a) = length (build_bones_result demo_skeleton_file).
Proof.
  apply execute_without_geometry; reflexivity.
Defined.

(** ** Building a group *)

Lemma alter_then_zip {A B} (f : B → A → A) s (vs : list A) v n ns :
  vs !! s = Some v →
  take (S s) (alter (f n) s vs) ++ zip_with f ns (drop (S s) (alter (f n) s vs))
  = take s vs ++ zip_with f (n :: ns) (drop s vs).
Proof.
  intros Hv. rewrite drop_alter_lt by lia.
  rewrite (take_S_r _ _ (f n v)) by (by rewrite list_lookup_alter_eq, Hv).
  rewrite take_alter_ge by lia.
  rewrite (drop_S vs v s) by done. cbn. by rewrite <- app_assoc.
Qed.

Lemma take_S_insert {A} (l : list A) k x :
  (k < length l)%nat → take (S k) (<[k := x]> l) = take k l ++ [x].
Proof.
  intros H. rewrite (take_S_r _ _ x) by (by rewrite list_lookup_insert_eq).
  by rewrite take_insert_ge.
Qed.

Lemma insert_then_fill {A} (d : list A) k u us n :
  (k < length d)%nat →
  take (S k) (<[k := u]> d) ++ us ++ drop (S k + n) (<[k := u]> d)
  = take k d ++ (u :: us) ++ drop (k + S n) d.
Proof.
  intros H. rewrite take_S_insert by done. rewrite drop_insert_lt by lia.
  rewrite <- app_assoc. cbn. do 2 f_equal.
  replace (k + S n)%nat with (S (k + n)) by lia. done.
Qed.

Lemma fill_then_fill {A} (d : list A) s a b :
  (s + length a ≤ length d)%nat →
  take (s + length a) (take s d ++ a ++ drop (s + length a) d) ++ b ++
    drop (s + length a + length b) (take s d ++ a ++ drop (s + length a) d)
  = take s d ++ (a ++ b) ++ drop (s + length (a ++ b)) d.
Proof.
  intros H.
  assert (Hs : length (take s d) = s) by (rewrite length_take; lia).
  rewrite (app_assoc (take s d) a).
  rewrite take_app_length' by (rewrite length_app; lia).
  rewrite drop_app_ge by (rewrite length_app; lia).
  rewrite length_app, Hs, drop_drop, length_app.
  rewrite <- !app_assoc. do 4 f_equal. lia.
Qed.

Lemma drop_cons_inv {A} (l : list A) j x r :
  drop j l = x :: r → l !! j = Some x ∧ drop (S j) l = r.
Proof.
  intros H. split.
  - rewrite <- (Nat.add_0_r j), <- lookup_drop. by rewrite H.
  - replace (S j) with (j + 1)%nat by lia. by rewrite <- drop_drop, H.
Qed.

Lemma mapM_app {A B} (f : A → option B) l1 l2 :
  mapM f (l1 ++ l2) = k1 ← mapM f l1; k2 ← mapM f l2; Some (k1 ++ k2).
Proof.
  induction l1 as [|x l1 IH]; cbn.
  - by destruct (mapM f l2).
  - destruct (f x); cbn; [|done]. rewrite IH.
    destruct (mapM f l1); cbn; [|done]. by destruct (mapM f l2).
Qed.

Lemma mapM_length {A B} (f : A → option B) l k :
  mapM f l = Some k → length k = length l.
Proof. intros H. apply mapM_Some_1 in H. symmetry. by eapply Forall2_length. Qed.

Lemma length_layout_polygons fs : ∀ s, length (layout_polygons s fs) = length fs.
Proof. induction fs as [|f fs IH]; intros s; cbn; [done|]. by rewrite IH. Qed.

Lemma total_loops_concat fs : total_loops fs = length (concat fs).
Proof.
  induction fs as [|f fs IH]; [done|].
  cbn [total_loops foldr concat]. rewrite length_app. by f_equal.
Qed.

Section GroupWorld.
Variable w : World.

Local Abbreviation mh := (length (meshes w)).
Local Abbreviation ob := (length (objects w)).
Local Abbreviation st := (group_world w).

Lemma get_mesh_st m o evs : get_mesh mh (st m o evs) = Ok m (st m o evs).
Proof. unfold get_mesh; cbn. by rewrite list_lookup_middle. Qed.

Lemma modify_mesh_st f m o evs :
  modify_mesh mh f (st m o evs) = Ok tt (st (f m) o evs).
Proof.
  unfold modify_mesh. mred. rewrite get_mesh_st. mred.
  unfold group_world, set_meshes; cbn. by rewrite alter_last.
Qed.

Lemma get_object_st m o evs : get_object ob (st m o evs) = Ok o (st m o evs).
Proof. unfold get_object; cbn. by rewrite list_lookup_middle. Qed.

Lemma modify_object_st f m o evs :
  modify_object ob f (st m o evs) = Ok tt (st m (f o) evs).
Proof.
  unfold modify_object. mred. rewrite get_object_st. mred.
  unfold group_world, set_objects; cbn. by rewrite alter_last.
Qed.

Lemma add_log_st e m o evs : add_log e (st m o evs) = st m o (evs ++ [e]).
Proof. unfold group_world, add_log; cbn. by rewrite <- app_assoc. Qed.

Lemma print_st args m o evs :
  print args (st m o evs) = Ok tt (st m o (evs ++ [EvPrint args])).
Proof. unfold print. mred. by rewrite add_log_st. Qed.

Lemma set_vertex_normal_st i n m o evs :
  set_vertex_normal mh i n (st m o evs)
  = match mesh_vertices m !! i with
    | Some _ => Ok tt (st (set_mesh_vertices (alter (set_normal n) i) m) o evs)
    | None => Raise IndexError (st m o evs)
    end.
Proof.
  unfold set_vertex_normal. mred. rewrite get_mesh_st. mred.
  destruct (_ !! i); mred; [|done]. by rewrite modify_mesh_st.
Qed.

Lemma uv_layers_active_data_st i m d o evs :
  uv_layers_active_data mh i (st (with_uv m d) o evs)
  = lift_opt IndexError (d !! i) (st (with_uv m d) o evs).
Proof. unfold uv_layers_active_data. mred. by rewrite get_mesh_st. Qed.

Lemma set_loop_uv_st i uv m d o evs :
  set_loop_uv mh i uv (st (with_uv m d) o evs)
  = Ok tt (st (with_uv m (<[i := uv]> d)) o evs).
Proof. unfold set_loop_uv. by rewrite modify_mesh_st. Qed.

Lemma vertex_groups_find_st nm m o evs :
  vertex_groups_find ob nm (st m o evs)
  = lift_opt KeyError (find_group nm (ob_vertex_groups o)) (st m o evs).
Proof. unfold vertex_groups_find. mred. by rewrite get_object_st. Qed.

Lemma vertex_group_add_st gi index x mode m o evs :
  vertex_group_add ob gi index x mode (st m o evs)
  = match ob_vertex_groups o !! gi with
    | Some g =>
        Ok tt (st m
          (set_ob_vertex_groups (alter (set_vg_weights (λ ws,
             foldl (λ acc i, assign_weight mode i x acc) ws index)) gi) o)
          (evs ++ [EvVertexGroupAdd ob (vg_name g) index x mode]))
    | None => Raise ReferenceError (st m o evs)
    end.
Proof.
  unfold vertex_group_add. mred. rewrite get_object_st. mred.
  destruct (_ !! gi); mred; [|done].
  by rewrite add_log_st, modify_object_st.
Qed.

(** Lines 141-143, from vertex [s] on. *)
Lemma load_normals_from b_model len : ∀ s m o evs,
  length (mesh_vertices m) = (s + len)%nat →
  match mapM (normals b_model !!.) (seq s len) with
  | Some ns =>
      for_each (seq s len) (load_normal mh b_model) (st m o evs)
      = Ok tt (st (set_mesh_vertices (λ vs,
                 take s vs ++ zip_with set_normal ns (drop s vs)) m) o evs)
  | None =>
      ∃ w', for_each (seq s len) (load_normal mh b_model) (st m o evs)
            = Raise IndexError w'
  end.
Proof.
  induction len as [|len IH]; intros s m o evs Hlen.
  - cbn. f_equal. destruct m as [nm vs ps lp uv]; unfold set_mesh_vertices; cbn in *.
    rewrite Nat.add_0_r in Hlen. rewrite take_ge by lia.
    by rewrite app_nil_r.
  - cbn [seq for_each mapM]. mred. unfold load_normal at 1 3. mred.
    destruct (normals b_model !! s) as [n|] eqn:Hn; cbn [mbind option_bind]; mred;
      [|by eexists].
    rewrite set_vertex_normal_st.
    destruct (lookup_lt_is_Some_2 (mesh_vertices m) s) as [v Hv]; [lia|].
    rewrite Hv.
    specialize (IH (S s) (set_mesh_vertices (alter (set_normal n) s) m) o evs).
    destruct (mapM _ (seq (S s) len)) as [ns|]; cbn [mbind option_bind mret option_ret].
    + rewrite IH by (cbn; rewrite length_alter; lia). do 2 f_equal.
      destruct m as [nm vs ps lp uv]; unfold set_mesh_vertices; cbn in *. f_equal.
      by apply (alter_then_zip set_normal s vs v).
    + apply IH. cbn. rewrite length_alter. lia.
Qed.

(** Lines 148-152 for polygon [i], from corner [j] on. *)
Lemma load_face_uvs b_model i face start rest : ∀ j d m o evs,
  faces b_model !! i = Some face →
  drop j face = rest →
  (start + length face ≤ length d)%nat →
  match mapM (py_index (uvs b_model)) rest with
  | Some us =>
      for_each (zip (seq j (length rest)) (seq (start + j) (length rest)))
        (load_uv mh b_model i) (st (with_uv m d) o evs)
      = Ok tt (st (with_uv m (take (start + j) d ++ us ++
                              drop (start + j + length rest) d)) o evs)
  | None =>
      ∃ w', for_each (zip (seq j (length rest)) (seq (start + j) (length rest)))
        (load_uv mh b_model i) (st (with_uv m d) o evs)
        = Raise IndexError w'
  end.
Proof.
  induction rest as [|v rest IH]; intros j d m o evs Hface Hdrop Hlen.
  - cbn. rewrite Nat.add_0_r, take_drop. done.
  - apply drop_cons_inv in Hdrop as [Hv Hdrop].
    assert (j < length face)%nat by (by apply lookup_lt_Some in Hv).
    cbn [length seq zip zip_with for_each mapM]. mred.
    unfold load_uv at 1 3. mred.
    rewrite uv_layers_active_data_st.
    destruct (lookup_lt_is_Some_2 d (start + j)) as [u0 Hu0]; [lia|].
    rewrite Hu0, Hface. mred. rewrite Hv. mred.
    destruct (py_index (uvs b_model) v) as [u|]; cbn [mbind option_bind]; mred;
      [|by eexists].
    rewrite set_loop_uv_st.
    specialize (IH (S j) (<[(start + j)%nat := u]> d) m o evs Hface Hdrop).
    rewrite length_insert, Nat.add_succ_r in IH. specialize (IH Hlen).
    destruct (mapM _ rest) as [us|]; cbn [mbind option_bind mret option_ret].
    + rewrite IH. do 3 f_equal.
      apply insert_then_fill. lia.
    + apply IH.
Qed.

(** Lines 147-152, from polygon [i] on. *)
Lemma load_uvs_from b_model fs : ∀ i start d m o evs,
  drop i (faces b_model) = fs →
  (start + total_loops fs ≤ length d)%nat →
  match mapM (py_index (uvs b_model)) (concat fs) with
  | Some us =>
      for_each (zip (seq i (length fs)) (layout_polygons start fs))
        (load_polygon_uvs mh b_model) (st (with_uv m d) o evs)
      = Ok tt (st (with_uv m (take start d ++ us ++ drop (start + length us) d))
                  o evs)
  | None =>
      ∃ w', for_each (zip (seq i (length fs)) (layout_polygons start fs))
        (load_polygon_uvs mh b_model) (st (with_uv m d) o evs)
        = Raise IndexError w'
  end.
Proof.
  induction fs as [|f fs IH]; intros i start d m o evs Hdrop Hlen.
  - cbn. rewrite Nat.add_0_r, take_drop. done.
  - apply drop_cons_inv in Hdrop as [Hf Hdrop].
    cbn [total_loops foldr] in Hlen. fold (total_loops fs) in Hlen.
    cbn [length seq layout_polygons zip zip_with for_each concat]. mred.
    unfold load_polygon_uvs at 1 3, enumerate, loop_indices. cbn [loop_start loop_total].
    rewrite length_seq, mapM_app.
    pose proof (load_face_uvs b_model i f start f 0%nat d m o evs Hf eq_refl) as Hin.
    rewrite Nat.add_0_r in Hin. specialize (Hin ltac:(lia)).
    destruct (mapM _ f) as [us1|] eqn:Hus1; cbn [mbind option_bind].
    + rewrite Hin. apply mapM_length in Hus1.
      specialize (IH (S i) (start + length f)%nat
        (take start d ++ us1 ++ drop (start + length f) d) m o evs Hdrop).
      rewrite !length_app, length_take, length_drop, Hus1 in IH.
      specialize (IH ltac:(lia)).
      destruct (mapM _ (concat fs)) as [us2|]; cbn [mbind option_bind].
      * rewrite IH. do 3 f_equal. rewrite <- Hus1. apply fill_then_fill. lia.
      * apply IH.
    + destruct Hin as [w' ->]. destruct (mapM _ (concat fs)); by eexists.
Qed.

(** Lines 155-156. *)
Lemma new_vertex_groups_st {Row} (tbl : list (string * Row)) : ∀ m o evs,
  for_each tbl (new_vertex_group ob) (st m o evs)
  = Ok tt (st m (set_ob_vertex_groups (λ gs,
             gs ++ map (λ val, {| vg_name := val.1; vg_weights := [] |}) tbl) o) evs).
Proof.
  induction tbl as [|val tbl IH]; intros m o evs.
  - cbn. do 2 f_equal. destruct o; unfold set_ob_vertex_groups; cbn.
    by rewrite app_nil_r.
  - cbn [for_each]. mred. unfold new_vertex_group at 1, vertex_groups_new.
    rewrite modify_object_st, IH. do 2 f_equal.
    destruct o; unfold set_ob_vertex_groups; cbn. by rewrite <- app_assoc.
Qed.

End GroupWorld.

Lemma zip_with_set_normal ns : ∀ vs,
  zip_with set_normal ns (map (λ v, {| co := v; normal := vec3_zero |}) vs)
  = zip_with (λ v n, {| co := v; normal := n |}) vs ns.
Proof.
  induction ns as [|n ns IH]; intros [|v vs]; cbn; try done.
  by rewrite IH.
Qed.

Lemma build_group_spec {Row} (tbl : list (string * Row)) b_model w :
  match built_mesh b_model with
  | Some mesh =>
      build_group tbl b_model w
      = Ok (length (meshes w), length (objects w))
           (group_world w mesh
              (group_object (length (meshes w)) b_model (empty_groups tbl))
              [importing_event b_model])
  | None => ∃ w', build_group tbl b_model w = Raise IndexError w'
  end.
Proof.
  unfold build_group, built_mesh.
  unfold print, meshes_new, objects_new, scene_objects_link. mred. wred. mred.
  set (m0 := {| mesh_name := name b_model; mesh_vertices := [] |}).
  set (o0 := {| ob_name := name b_model; ob_data := _ |}).
  match goal with |- context [from_pydata _ _ _ ?W] =>
    change W with (group_world w m0 o0 [importing_event b_model]) end.
  unfold from_pydata. rewrite modify_mesh_st. mred.
  unfold load_normals. mred. rewrite get_mesh_st. mred.
  cbn [mesh_vertices mesh_name mesh_polygons mesh_loops mesh_uv_layers m0 app].
  rewrite length_map.
  match goal with |- context [for_each _ (load_normal _ _) (group_world w ?m _ _)] =>
    pose proof (load_normals_from w b_model (length (vertices b_model)) 0%nat m
                  o0 [importing_event b_model]) as Hn
  end.
  cbn [mesh_vertices] in Hn. rewrite length_map in Hn. specialize (Hn eq_refl).
  destruct (mapM (λ i, normals b_model !! i) (seq 0 _)) as [ns|];
    cbn [mbind option_bind]; [|destruct Hn as [w' ->]; by eexists].
  rewrite Hn. clear Hn. mred.
  unfold uv_textures_new. rewrite modify_mesh_st. mred.
  unfold set_mesh_vertices, set_mesh_uv_layers.
  cbn [mesh_vertices mesh_name mesh_polygons mesh_loops mesh_uv_layers app take drop Nat.add].
  rewrite take_0, drop_0. cbn [app]. rewrite zip_with_set_normal.
  unfold load_uvs. mred. rewrite get_mesh_st. mred.
  cbn [mesh_polygons]. unfold enumerate. rewrite !length_layout_polygons.
  set (m1 := {| mesh_name := name b_model;
                mesh_vertices := zip_with (λ v n, {| co := v; normal := n |})
                                   (vertices b_model) ns;
                mesh_polygons := layout_polygons 0 (faces b_model);
                mesh_loops := total_loops (faces b_model);
                mesh_uv_layers := [] |}).
  match goal with |- context [for_each _ _ (group_world w ?m _ _)] =>
    change m with (with_uv m1 (replicate (total_loops (faces b_model)) vec2_zero))
  end.
  pose proof (load_uvs_from w b_model (faces b_model) 0%nat 0%nat
    (replicate (total_loops (faces b_model)) vec2_zero) m1 o0
    [importing_event b_model] eq_refl) as Hu.
  rewrite length_replicate in Hu. specialize (Hu ltac:(lia)).
  destruct (mapM (py_index (uvs b_model)) (concat _)) as [us|] eqn:Hus;
    cbn [mbind option_bind]; [|destruct Hu as [w' ->]; by eexists].
  rewrite Hu. clear Hu. mred.
  rewrite new_vertex_groups_st. mred. do 2 f_equal.
  apply mapM_length in Hus.
  rewrite take_0. cbn [app Nat.add]. rewrite drop_ge, app_nil_r
    by (rewrite length_replicate, total_loops_concat; lia).
  done.
Qed.

(** ** Assigning weights *)

Lemma py_index_elem_of {A} (l : list A) i x : py_index l i = Some x → x ∈ l.
Proof.
  unfold py_index. repeat case_bool_decide; try done; apply list_elem_of_lookup_2.
Qed.

Lemma find_group_Some nm gs :
  nm ∈ map vg_name gs →
  ∃ gi g, find_group nm gs = Some gi ∧ gs !! gi = Some g ∧ vg_name g = nm.
Proof.
  induction gs as [|g gs IH]; cbn; [by intros ?%elem_of_nil|].
  intros Hin. case_bool_decide as Hg.
  - by exists 0%nat, g.
  - apply elem_of_cons in Hin as [?|Hin]; [done|].
    destruct (IH Hin) as (gi & g' & -> & ? & ?). by exists (S gi), g'.
Qed.

Lemma map_vg_name_alter f gi gs :
  (∀ g, vg_name (f g) = vg_name g) →
  map vg_name (alter f gi gs) = map vg_name gs.
Proof.
  intros Hf. revert gi. induction gs as [|g gs IH]; intros [|gi]; cbn; try done.
  - by rewrite Hf.
  - by rewrite IH.
Qed.

Lemma map_vg_name_add g i x gs :
  map vg_name (add_to_group g i x gs) = map vg_name gs.
Proof.
  unfold add_to_group. destruct (find_group g gs); [|done].
  by apply map_vg_name_alter.
Qed.

Lemma map_vg_name_replay i calls : ∀ gs,
  map vg_name (replay i calls gs) = map vg_name gs.
Proof.
  induction calls as [|c calls IH]; intros gs; [done|].
  unfold replay in *. cbn [foldl]. by rewrite IH, map_vg_name_add.
Qed.

Lemma set_ob_vertex_groups_twice f g o :
  set_ob_vertex_groups f (set_ob_vertex_groups g o) = set_ob_vertex_groups (f ∘ g) o.
Proof. done. Qed.

Lemma replay_step i g x calls o gi :
  find_group g (ob_vertex_groups o) = Some gi →
  set_ob_vertex_groups (replay i calls)
    (set_ob_vertex_groups (alter (set_vg_weights (λ ws,
       foldl (λ acc i, assign_weight ADD i x acc) ws [i])) gi) o)
  = set_ob_vertex_groups (replay i ((g, x) :: calls)) o.
Proof.
  intros H. destruct o as [nm dt sc sl xr gs]; unfold set_ob_vertex_groups; cbn in *.
  f_equal. unfold replay. cbn [foldl fst snd]. unfold add_to_group at 3.
  by rewrite H.
Qed.

Section WeightsRun.
Context {Row : Type}.
Variables (tbl : list (string * Row)) (w : World) (b_model : BlenderModel).

Local Abbreviation ob := (length (objects w)).
Local Abbreviation st := (group_world w).

(** Lines 175-185 for vertex [i], from position [j] of its row on. *)
Lemma assign_row_st i row rest : ∀ j remainder mesh o evs,
  bone_assign b_model !! i = Some row →
  drop j row = rest →
  map vg_name (ob_vertex_groups o) = map fst tbl →
  match row_calls tbl rest (default [] (bone_weight b_model !! i)) j remainder with
  | Some calls =>
      ∃ remainder',
        fold_loop (assign_weight_at tbl ob b_model i) remainder
          (seq j (length rest)) (st mesh o evs)
        = Ok remainder'
             (st mesh (set_ob_vertex_groups (replay i calls) o)
                 (evs ++ row_events ob i calls))
  | None =>
      ∃ w', fold_loop (assign_weight_at tbl ob b_model i) remainder
              (seq j (length rest)) (st mesh o evs) = Raise IndexError w'
  end.
Proof.
  induction rest as [|b rest IH]; intros j remainder mesh o evs Hrow Hdrop Hnames.
  - cbn [row_calls length seq fold_loop row_events flat_map replay foldl]. mred.
    exists remainder. rewrite app_nil_r. by destruct o.
  - apply drop_cons_inv in Hdrop as [Hb Hdrop].
    cbn [length seq fold_loop row_calls]. mred.
    unfold assign_weight_at at 1 3. mred. rewrite Hrow. mred. rewrite Hb. mred.
    destruct (py_index tbl b) as [val|] eqn:Hval; cbn [mbind option_bind]; mred;
      [|by eexists].
    rewrite vertex_groups_find_st.
    destruct (find_group_Some val.1 (ob_vertex_groups o)) as (gi & g & Hgi & Hg & Hname).
    { rewrite Hnames. apply list_elem_of_fmap. exists val. split; [done|].
      by eapply py_index_elem_of. }
    rewrite Hgi. mred. rewrite print_st. mred.
    destruct (negb (j =? 3)%nat) eqn:Hj.
    + mred. destruct (bone_weight b_model !! i) as [wrow|];
        cbn [default from_option id lookup list_lookup mbind option_bind]; mred;
        [|by eexists].
      destruct (wrow !! j) as [x|]; cbn [mbind option_bind]; mred; [|by eexists].
      rewrite vertex_group_add_st, Hg. mred.
      match goal with |- context [fold_loop _ _ _ (st mesh ?o' ?evs')] =>
        specialize (IH (S j) (remainder - x) mesh o' evs' Hrow Hdrop) end.
      cbn [ob_vertex_groups set_ob_vertex_groups] in IH.
      rewrite map_vg_name_alter in IH by done. specialize (IH Hnames).
      destruct (row_calls _ rest _ _ _) as [calls|]; cbn [mbind option_bind].
      * destruct IH as [r' ->]. exists r'. rewrite Hname.
        by rewrite (replay_step _ val.1 _ _ _ gi), <- !app_assoc.
      * exact IH.
    + mred. rewrite vertex_group_add_st, Hg. mred.
      match goal with |- context [fold_loop _ _ _ (st mesh ?o' ?evs')] =>
        specialize (IH (S j) remainder mesh o' evs' Hrow Hdrop) end.
      cbn [ob_vertex_groups set_ob_vertex_groups] in IH.
      rewrite map_vg_name_alter in IH by done. specialize (IH Hnames).
      destruct (row_calls _ rest _ _ _) as [calls|]; cbn [mbind option_bind].
      * destruct IH as [r' ->]. exists r'. rewrite Hname.
        by rewrite (replay_step _ val.1 _ _ _ gi), <- !app_assoc.
      * exact IH.
Qed.

(** Lines 173-185 for vertex [i]. *)
Lemma assign_vertex_st i mesh o evs :
  map vg_name (ob_vertex_groups o) = map fst tbl →
  match vertex_calls tbl b_model i with
  | Some calls =>
      assign_vertex tbl ob b_model i (st mesh o evs)
      = Ok tt (st mesh (set_ob_vertex_groups (replay i calls) o)
                  (evs ++ vertex_events b_model ob (i, calls)))
  | None =>
      ∃ w', assign_vertex tbl ob b_model i (st mesh o evs) = Raise IndexError w'
  end.
Proof.
  intros Hnames. unfold vertex_calls, assign_vertex, vertex_events. cbn [fst snd].
  destruct (bone_assign b_model !! i) as [row|] eqn:Hrow;
    cbn [mbind option_bind default from_option id]; mred; [|by eexists].
  rewrite print_st. mred.
  pose proof (assign_row_st i row row 0%nat 1 mesh o
    (evs ++ [EvPrint [PInt (Z.of_nat i); PIntList row]]) Hrow eq_refl Hnames) as H.
  destruct (row_calls _ _ _ _ _) as [calls|].
  - destruct H as [r' ->]. mred. by rewrite <- app_assoc.
  - by destruct H as [w' ->]; eexists.
Qed.

(** Line 172 over the vertices [ids]. *)
Lemma assign_vertices_st mesh (ids : list nat) : ∀ o evs,
  map vg_name (ob_vertex_groups o) = map fst tbl →
  match mapM (vertex_calls tbl b_model) ids with
  | Some css =>
      for_each ids (assign_vertex tbl ob b_model) (st mesh o evs)
      = Ok tt (st mesh (set_ob_vertex_groups (replay_all (zip ids css)) o)
                  (evs ++ flat_map (vertex_events b_model ob) (zip ids css)))
  | None =>
      ∃ w', for_each ids (assign_vertex tbl ob b_model) (st mesh o evs)
            = Raise IndexError w'
  end.
Proof.
  induction ids as [|i ids IH]; intros o evs Hnames.
  - cbn. rewrite app_nil_r. by destruct o.
  - cbn [mapM for_each]. mred.
    pose proof (assign_vertex_st i mesh o evs Hnames) as Hi.
    destruct (vertex_calls tbl b_model i) as [calls|]; cbn [mbind option_bind];
      [|by destruct Hi as [w' ->]; eexists].
    rewrite Hi.
    match goal with |- context [for_each _ _ (st mesh ?o' ?evs')] =>
      specialize (IH o' evs') end.
    cbn [ob_vertex_groups set_ob_vertex_groups] in IH.
    rewrite map_vg_name_replay in IH. specialize (IH Hnames).
    destruct (mapM _ ids) as [css|]; cbn [mbind option_bind mret option_ret].
    + rewrite IH. cbn [zip zip_with flat_map].
      rewrite <- !app_assoc. by destruct o.
    + exact IH.
Qed.

(** Lines 166-169: the coordinates just loaded compare equal. *)
Lemma check_coordinates_from mesh o evs ns len : ∀ s,
  mesh_vertices mesh
    = zip_with (λ v n, {| co := v; normal := n |}) (vertices b_model) ns →
  (s + len ≤ length (mesh_vertices mesh))%nat →
  for_each (seq s len) (check_coordinate (length (meshes w)) b_model) (st mesh o evs)
  = Ok tt (st mesh o evs).
Proof.
  intros s Hvs. revert s. induction len as [|len IH]; intros s Hlen; [done|].
  cbn [seq for_each]. mred. unfold check_coordinate at 1. mred.
  rewrite get_mesh_st. mred.
  destruct (lookup_lt_is_Some_2 (mesh_vertices mesh) s) as [v Hv]; [lia|].
  rewrite Hv. mred.
  rewrite Hvs in Hv. apply lookup_zip_with_Some in Hv as (v' & n & -> & Hv' & _).
  rewrite Hv'. mred. cbn [co]. unfold vec3_eqb.
  rewrite bool_decide_eq_true_2 by done. mred. apply IH. lia.
Qed.

End WeightsRun.

Lemma built_mesh_Some b_model mesh :
  built_mesh b_model = Some mesh →
  ∃ ns us,
    mapM (normals b_model !!.) (seq 0 (length (vertices b_model))) = Some ns ∧
    mapM (py_index (uvs b_model)) (concat (faces b_model)) = Some us ∧
    mesh = {| mesh_name := name b_model;
              mesh_vertices :=
                zip_with (λ v n, {| co := v; normal := n |}) (vertices b_model) ns;
              mesh_polygons := layout_polygons 0 (faces b_model);
              mesh_loops := total_loops (faces b_model);
              mesh_uv_layers := [{| uv_name := "UVMap"; uv_data := us |}] |}.
Proof.
  unfold built_mesh. intros H.
  destruct (mapM _ (seq 0 _)) as [ns|]; [|done]. cbn [mbind option_bind] in H.
  destruct (mapM _ (concat _)) as [us|]; [|done]. cbn in H. simplify_eq. eauto.
Qed.

Lemma map_vg_name_empty_groups {Row} (tbl : list (string * Row)) :
  map vg_name (empty_groups tbl) = map fst tbl.
Proof. unfold empty_groups. rewrite map_map. done. Qed.

Lemma do_import_spec {Row} (tbl : list (string * Row)) b_model armature w :
  match built_mesh b_model with
  | None => ∃ w', do_import tbl b_model armature w = Raise IndexError w'
  | Some mesh =>
      if counts_mismatch b_model then
        do_import tbl b_model armature w
        = Ok (error_message b_model)
             (group_world w mesh
                (group_object (length (meshes w)) b_model (empty_groups tbl))
                [importing_event b_model; counts_event b_model])
      else
        let ids := seq 0 (length (bone_assign b_model)) in
        match mapM (vertex_calls tbl b_model) ids with
        | Some css =>
            do_import tbl b_model armature w
            = Ok (imported_message b_model)
                 (group_world w mesh
                    (group_object (length (meshes w)) b_model
                       (replay_all (zip ids css) (empty_groups tbl)))
                    ([importing_event b_model; applying_event] ++
                     flat_map (vertex_events b_model (length (objects w))) (zip ids css)))
        | None => ∃ w', do_import tbl b_model armature w = Raise IndexError w'
        end
  end.
Proof.
  unfold do_import. mred.
  pose proof (build_group_spec tbl b_model w) as Hb.
  destruct (built_mesh b_model) as [mesh|] eqn:Hmesh;
    [|by destruct Hb as [w' ->]; eexists].
  rewrite Hb. cbv beta iota.
  destruct (counts_mismatch b_model).
  { mred. by rewrite print_st. }
  mred. unfold check_coordinates. mred. rewrite get_mesh_st. mred.
  apply built_mesh_Some in Hmesh as (ns & us & _ & _ & Hshape).
  rewrite (check_coordinates_from w b_model mesh _ _ ns) by (by rewrite ?Hshape).
  mred. rewrite print_st. mred. cbv zeta.
  match goal with |- context [for_each ?ids _ (group_world w mesh ?o ?evs)] =>
    pose proof (assign_vertices_st tbl w b_model mesh ids o evs
                  (map_vg_name_empty_groups tbl)) as Hw
  end.
  destruct (mapM _ _) as [css|]; [|by destruct Hw as [w' ->]; eexists].
  rewrite Hw. mred. done.
Qed.

(** ** Groups whose counts do not match *)

Lemma for_each_app {A} (l1 l2 : list A) (body : A → M unit) w :
  for_each (l1 ++ l2) body w
  = match for_each l1 body w with
    | Ok _ w1 => for_each l2 body w1
    | Raise e w1 => Raise e w1
    end.
Proof.
  revert w. induction l1 as [|x l1 IH]; intros w; [done|].
  cbn [app for_each]. mred. destruct (body x w); [apply IH|done].
Qed.

Lemma geometry_ok_built_mesh b_model :
  geometry_ok b_model = true →
  ∃ us,
    Forall2 (λ v u, py_index (uvs b_model) v = Some u) (concat (faces b_model)) us ∧
    built_mesh b_model
    = Some {| mesh_name := name b_model;
              mesh_vertices :=
                zip_with (λ v n, {| co := v; normal := n |})
                         (vertices b_model) (normals b_model);
              mesh_polygons := layout_polygons 0 (faces b_model);
              mesh_loops := total_loops (faces b_model);
              mesh_uv_layers := [{| uv_name := "UVMap"; uv_data := us |}] |}.
Proof.
  unfold geometry_ok. intros [Hn Hu]%andb_prop.
  apply bool_decide_eq_true in Hn. apply Is_true_true, forallb_True in Hu.
  assert (Hns : mapM (normals b_model !!.) (seq 0 (length (vertices b_model)))
                = Some (take (length (vertices b_model)) (normals b_model))).
  { apply mapM_Some_2, Forall2_same_length_lookup_2.
    - rewrite length_seq, length_take. lia.
    - intros i x y [-> Hi]%lookup_seq Hy. cbn.
      by rewrite lookup_take_lt in Hy. }
  destruct (mapM_is_Some_2 (py_index (uvs b_model)) (concat (faces b_model)))
    as [us Hus].
  { apply Forall_forall. intros v Hv. rewrite Forall_forall in Hu.
    exact (bool_decide_unpack _ (Hu v Hv)). }
  exists us. split; [by apply mapM_Some_1|].
  unfold built_mesh. rewrite Hns, Hus. cbn [mbind option_bind].
  by rewrite zip_with_take_r.
Qed.

(** What [do_import] does with a group whose counts do not match. *)
Lemma do_import_mismatch {Row} (tbl : list (string * Row)) b_model armature w :
  counts_mismatch b_model = true →
  geometry_ok b_model = true →
  ∃ us,
    Forall2 (λ v u, py_index (uvs b_model) v = Some u) (concat (faces b_model)) us ∧
    do_import tbl b_model armature w
    = Ok (error_message b_model)
         (group_world w
            {| mesh_name := name b_model;
               mesh_vertices :=
                 zip_with (λ v n, {| co := v; normal := n |})
                          (vertices b_model) (normals b_model);
               mesh_polygons := layout_polygons 0 (faces b_model);
               mesh_loops := total_loops (faces b_model);
               mesh_uv_layers := [{| uv_name := "UVMap"; uv_data := us |}] |}
            (group_object (length (meshes w)) b_model (empty_groups tbl))
            [importing_event b_model; counts_event b_model]).
Proof.
  intros Hc Hg. destruct (geometry_ok_built_mesh _ Hg) as (us & Hus & Hm).
  exists us. split; [done|].
  pose proof (do_import_spec tbl b_model armature w) as H.
  by rewrite Hm, Hc in H.
Qed.

Section Mismatch.

Context {Row : Type}.
Variable bone_parent_table : list (string * Row).

(** C9: when [do_import] returns the mismatch error for a group, the
    group's mesh and object are already in the store and stay there: the
    mesh has the group's vertices with their normals, its faces and a
    "UVMap" layer holding the UV pair of every face corner; the object
    is linked to the scene and carries one vertex group per row of the
    bone table, each without any weight. *)
Theorem do_import_mismatch_not_rolled_back b_model armature w :
  counts_mismatch b_model = true →
  geometry_ok b_model = true →
  ∃ w' mesh o us,
    do_import bone_parent_table b_model armature w
      = Ok (error_message b_model) w' ∧
    meshes w' = meshes w ++ [mesh] ∧
    objects w' = objects w ++ [o] ∧
    scene_objects w' = scene_objects w ++ [length (objects w)] ∧
    mesh_name mesh = name b_model ∧
    mesh_vertices mesh
      = zip_with (λ v n, {| co := v; normal := n |})
                 (vertices b_model) (normals b_model) ∧
    mesh_polygons mesh = layout_polygons 0 (faces b_model) ∧
    mesh_uv_layers mesh = [{| uv_name := "UVMap"; uv_data := us |}] ∧
    Forall2 (λ v u, py_index (uvs b_model) v = Some u)
            (concat (faces b_model)) us ∧
    ob_name o = name b_model ∧
    ob_data o = DataMesh (length (meshes w)) ∧
    ob_vertex_groups o
      = map (λ val, {| vg_name := val.1; vg_weights := [] |}) bone_parent_table.
Proof.
  intros Hc Hg.
  destruct (do_import_mismatch bone_parent_table _ armature w Hc Hg)
    as (us & Hus & H).
  eexists _, _, _, us. split; [exact H|]. by repeat split.
Qed.

(** C3, as the code has it: a group with readable geometry whose vertex
    count differs from its bone_assign or bone_weight count makes
    [do_import] return the error message that
    names the group; nothing but the two printed lines is logged (no
    [vertgroup.add]) and the group's vertex groups are left without
    weights.  The loop of [execute] prints the message and goes on with
    the groups that follow, from the store the failed group left.  (The
    group's geometry is taken to be readable: a normal for each vertex,
    a UV pair for each face corner.) *)
Theorem import_models_mismatch_continues pre bad post armature w0 w :
  counts_mismatch bad = true →
  geometry_ok bad = true →
  import_models bone_parent_table pre armature w0 = Ok tt w →
  ∃ w1 o,
    do_import bone_parent_table bad armature w = Ok (error_message bad) w1 ∧
    error_message bad
      = "ERROR: Group " +:+ name bad +:+ "'s vertex index counts don't match." ∧
    log w1 = log w ++ [importing_event bad; counts_event bad] ∧
    objects w1 = objects w ++ [o] ∧
    Forall (λ g, vg_weights g = []) (ob_vertex_groups o) ∧
    import_models bone_parent_table (pre ++ bad :: post) armature w0
      = import_models bone_parent_table post armature
          (add_log (EvPrint [PStr (error_message bad)]) w1).
Proof.
  intros Hc Hg Hpre.
  destruct (do_import_mismatch bone_parent_table _ armature w Hc Hg)
    as (us & Hus & H).
  eexists _, _. split; [exact H|]. split; [done|]. split; [done|].
  split; [done|]. split.
  { cbn. unfold empty_groups. by apply Forall_fmap, Forall_true. }
  unfold import_models. rewrite for_each_app.
  fold (import_models bone_parent_table pre armature w0). rewrite Hpre.
  cbn [for_each]. mred. rewrite H. mred. unfold print at 1. mred. done.
Qed.

End Mismatch.

Lemma do_import_mismatch_not_rolled_back_witness :
  ∃ w' mesh o us,
    do_import demo_table demo_bad_group 0 demo_printed_world
      = Ok (error_message demo_bad_group) w' ∧
    meshes w' = meshes demo_printed_world ++ [mesh] ∧
    objects w' = objects demo_printed_world ++ [o] ∧
    scene_objects w'
      = scene_objects demo_printed_world ++ [length (objects demo_printed_world)] ∧
    mesh_name mesh = name demo_bad_group ∧
    mesh_vertices mesh
      = zip_with (λ v n, {| co := v; normal := n |})
                 (vertices demo_bad_group) (normals demo_bad_group) ∧
    mesh_polygons mesh = layout_polygons 0 (faces demo_bad_group) ∧
    mesh_uv_layers mesh = [{| uv_name := "UVMap"; uv_data := us |}] ∧
    Forall2 (λ v u, py_index (uvs demo_bad_group) v = Some u)
            (concat (faces demo_bad_group)) us ∧
    ob_name o = name demo_bad_group ∧
    ob_data o = DataMesh (length (meshes demo_printed_world)) ∧
    ob_vertex_groups o
      = map (λ val, {| vg_name := val.1; vg_weights := [] |}) demo_table.
Proof.
  apply do_import_mismatch_not_rolled_back; reflexivity.
Defined.

Lemma import_models_mismatch_continues_witness :
  ∃ w1 o,
    do_import demo_table demo_bad_group 0 demo_printed_world
      = Ok (error_message demo_bad_group) w1 ∧
    error_message demo_bad_group
      = "ERROR: Group " +:+ name demo_bad_group
        +:+ "'s vertex index counts don't match." ∧
    log w1 = log demo_printed_world
             ++ [importing_event demo_bad_group; counts_event demo_bad_group] ∧
    objects w1 = objects demo_printed_world ++ [o] ∧
    Forall (λ g, vg_weights g = []) (ob_vertex_groups o) ∧
    import_models demo_table ([demo_group] ++ demo_bad_group :: [demo_group]) 0
        empty_world
      = import_models demo_table [demo_group] 0
          (add_log (EvPrint [PStr (error_message demo_bad_group)]) w1).
Proof.
  apply import_models_mismatch_continues; [reflexivity|reflexivity|].
  vm_compute. reflexivity.
Defined.

(** A mismatched group with a normal missing never reaches the check of
    lines 160-164: line 142 raises [IndexError], and the loop of
    [execute] stops without importing the group that follows. *)
Lemma mismatch_unreadable_counterexample :
  counts_mismatch demo_short_normals_group = true ∧
  ∃ w1,
    do_import demo_table demo_short_normals_group 0 empty_world
      = Raise IndexError w1 ∧
    import_models demo_table [demo_short_normals_group; demo_group] 0 empty_world
      = Raise IndexError w1 ∧
    length (meshes w1) = 1%nat ∧
    length (objects w1) = 1%nat.
Proof.
  split; [reflexivity|]. eexists.
  split; [vm_compute; reflexivity|].
  split; [vm_compute; reflexivity|]. split; reflexivity.
Qed.

(** ** Weights of an imported group *)

Section RowCalls.
Context {Row : Type}.
Variable tbl : list (string * Row).

Lemma row_calls_length rest weights : ∀ j remainder calls,
  row_calls tbl rest weights j remainder = Some calls →
  length calls = length rest.
Proof.
  induction rest as [|b rest IH]; intros j remainder calls H; cbn in H.
  - by simplify_eq.
  - destruct (py_index tbl b); [|done]. cbn in H.
    destruct (negb (j =? 3)%nat).
    + destruct (weights !! j); [|done]. cbn in H.
      destruct (row_calls _ _ _ _ _) eqn:Hr; [|done]. cbn in H. simplify_eq.
      cbn. f_equal. by eapply IH.
    + destruct (row_calls _ _ _ _ _) eqn:Hr; [|done]. cbn in H. simplify_eq.
      cbn. f_equal. by eapply IH.
Qed.

Lemma row_calls_lookup rest weights : ∀ j remainder calls k g x,
  row_calls tbl rest weights j remainder = Some calls →
  calls !! k = Some (g, x) →
  (∃ b val, rest !! k = Some b ∧ py_index tbl b = Some val ∧ g = val.1) ∧
  ((j + k ≠ 3)%nat → weights !! (j + k)%nat = Some x).
Proof.
  induction rest as [|b rest IH]; intros j remainder calls k g x H Hk; cbn in H.
  - by simplify_eq.
  - destruct (py_index tbl b) as [val|] eqn:Hval; [|done]. cbn in H.
    destruct (negb (j =? 3)%nat) eqn:Hj.
    + destruct (weights !! j) as [wt|] eqn:Hwt; [|done]. cbn in H.
      destruct (row_calls _ _ _ _ _) as [cs|] eqn:Hr; [|done]. cbn in H. simplify_eq.
      destruct k as [|k]; cbn in Hk.
      * simplify_eq. split; [by exists b, val|]. by rewrite Nat.add_0_r.
      * destruct (IH _ _ _ _ _ _ Hr Hk) as [? Hw]. split; [done|].
        rewrite Nat.add_succ_r. exact Hw.
    + destruct (row_calls _ _ _ _ _) as [cs|] eqn:Hr; [|done]. cbn in H. simplify_eq.
      apply negb_false_iff, Nat.eqb_eq in Hj. subst j.
      destruct k as [|k]; cbn in Hk.
      * simplify_eq. split; [by exists b, val|]. lia.
      * destruct (IH _ _ _ _ _ _ Hr Hk) as [? Hw]. split; [done|].
        rewrite Nat.add_succ_r. exact Hw.
Qed.

Lemma row_calls_fourth row weights b3 calls :
  row !! 3%nat = Some b3 →
  row_calls tbl row weights 0 1 = Some calls →
  ∃ w0 w1 w2 wrest g0 g1 g2 val more,
    weights = w0 :: w1 :: w2 :: wrest ∧
    py_index tbl b3 = Some val ∧
    calls = (g0, w0) :: (g1, w1) :: (g2, w2) :: (val.1, 1 - w0 - w1 - w2) :: more.
Proof.
  destruct row as [|b0 [|b1 [|b2 [|b3' row]]]]; try done. intros [= ->] H.
  cbn in H.
  destruct (py_index tbl b0) as [v0|]; [|done]. cbn in H.
  destruct weights as [|w0 [|w1 [|w2 wrest]]]; cbn in H; try done.
  - destruct (py_index tbl b1); [|done]. done.
  - destruct (py_index tbl b1); [|done]. cbn in H.
    destruct (py_index tbl b2); [|done]. done.
  - destruct (py_index tbl b1) as [v1|]; [|done]. cbn in H.
    destruct (py_index tbl b2) as [v2|]; [|done]. cbn in H.
    destruct (py_index tbl b3) as [v3|]; [|done]. cbn in H.
    destruct (row_calls _ _ _ _ _) as [more|]; [|done]. cbn in H. simplify_eq.
    by eexists _, _, _, _, _, _, _, _, _.
Qed.

End RowCalls.

Lemma vertex_adds_app ob i evs1 evs2 :
  vertex_adds ob i (evs1 ++ evs2) = vertex_adds ob i evs1 ++ vertex_adds ob i evs2.
Proof. apply omap_app. Qed.

Lemma vertex_adds_row_events ob i i' calls :
  vertex_adds ob i (row_events ob i' calls)
  = if bool_decide (i = i') then map tag_add calls else [].
Proof.
  induction calls as [|c calls IH].
  - by case_bool_decide.
  - cbn [row_events flat_map]. rewrite vertex_adds_app.
    fold (row_events ob i' calls). rewrite IH.
    unfold vertex_adds. cbn [omap list_omap add_call].
    case_bool_decide as Hi.
    + subst. rewrite bool_decide_eq_true_2; [done|].
      split; [done|]. by apply list_elem_of_singleton.
    + rewrite bool_decide_eq_false_2; [done|].
      intros [_ ?%list_elem_of_singleton]. done.
Qed.

Lemma vertex_adds_vertex_events b_model ob i ic :
  vertex_adds ob i (vertex_events b_model ob ic)
  = if bool_decide (i = ic.1) then map tag_add ic.2 else [].
Proof.
  unfold vertex_events. change (?e :: ?l) with ([e] ++ l).
  rewrite vertex_adds_app. apply vertex_adds_row_events.
Qed.

Lemma vertex_adds_other b_model ob i ics :
  i ∉ ics.*1 → vertex_adds ob i (flat_map (vertex_events b_model ob) ics) = [].
Proof.
  induction ics as [|ic ics IH]; [done|]. cbn [flat_map fmap list_fmap].
  intros [Hi Hrest]%not_elem_of_cons.
  rewrite vertex_adds_app, vertex_adds_vertex_events.
  rewrite bool_decide_eq_false_2 by done. by apply IH.
Qed.

Lemma vertex_adds_all b_model ob i cs ics :
  NoDup ics.*1 → (i, cs) ∈ ics →
  vertex_adds ob i (flat_map (vertex_events b_model ob) ics) = map tag_add cs.
Proof.
  induction ics as [|ic ics IH]; [by intros _ ?%elem_of_nil|].
  cbn [flat_map fmap list_fmap].
  intros [Hic Hnd]%list.NoDup_cons [<-|Hin]%elem_of_cons;
    rewrite vertex_adds_app, vertex_adds_vertex_events.
  - cbn [fst snd]. rewrite bool_decide_eq_true_2 by done.
    rewrite vertex_adds_other by done. by rewrite app_nil_r.
  - rewrite bool_decide_eq_false_2.
    + by apply IH.
    + intros ->. apply Hic. change (ic.1) with ((ic.1, cs).1).
      by apply list_elem_of_fmap_2.
Qed.

Lemma imported_not_error b_model : error_message b_model ≠ imported_message b_model.
Proof. unfold error_message, imported_message. cbn. discriminate. Qed.

Lemma counts_match b_model :
  counts_mismatch b_model = false →
  length (vertices b_model) = length (bone_assign b_model) ∧
  length (vertices b_model) = length (bone_weight b_model).
Proof.
  unfold counts_mismatch. intros [H1 H2]%orb_false_elim.
  apply negb_false_iff, Nat.eqb_eq in H1, H2. done.
Qed.

Lemma new_events_group_world w mesh o evs :
  new_events w (group_world w mesh o evs) = evs.
Proof. unfold new_events. cbn. by rewrite drop_app_length. Qed.

Section Imported.
Context {Row : Type}.
Variable tbl : list (string * Row).

(** The store [do_import] returns with the "imported" message. *)
Lemma do_import_imported b_model armature w w' :
  do_import tbl b_model armature w = Ok (imported_message b_model) w' →
  let ids := seq 0 (length (bone_assign b_model)) in
  ∃ mesh css,
    counts_mismatch b_model = false ∧
    mapM (vertex_calls tbl b_model) ids = Some css ∧
    w' = group_world w mesh
           (group_object (length (meshes w)) b_model
              (replay_all (zip ids css) (empty_groups tbl)))
           ([importing_event b_model; applying_event] ++
            flat_map (vertex_events b_model (length (objects w))) (zip ids css)).
Proof.
  intros H. pose proof (do_import_spec tbl b_model armature w) as Hs.
  destruct (built_mesh b_model) as [mesh|];
    [|by destruct Hs as [w'' Hs]; rewrite Hs in H].
  destruct (counts_mismatch b_model).
  { rewrite Hs in H. destruct (imported_not_error b_model). congruence. }
  cbv zeta in Hs. destruct (mapM _ _) as [css|] eqn:Hcss;
    [|by destruct Hs as [w'' Hs]; rewrite Hs in H].
  rewrite Hs in H. exists mesh, css. split; [done|]. split; [done|]. congruence.
Qed.

(** The [vertgroup.add] calls logged for vertex [i] of an imported group. *)
Lemma imported_vertex_adds b_model armature w w' i row :
  do_import tbl b_model armature w = Ok (imported_message b_model) w' →
  bone_assign b_model !! i = Some row →
  ∃ wrow cs,
    bone_weight b_model !! i = Some wrow ∧
    row_calls tbl row wrow 0 1 = Some cs ∧
    vertex_adds (length (objects w)) i (new_events w w') = map tag_add cs.
Proof.
  intros H Hrow. apply do_import_imported in H as (mesh & css & Hc & Hcss & ->).
  apply counts_match in Hc as [Hc1 Hc2].
  assert (Hi : (i < length (bone_assign b_model))%nat) by (by eapply lookup_lt_Some).
  destruct (lookup_lt_is_Some_2 (bone_weight b_model) i) as [wrow Hwrow]; [lia|].
  apply mapM_Some_1 in Hcss.
  destruct (Forall2_lookup_l _ _ _ i i Hcss) as (cs & Hcs & Hcalls).
  { by apply lookup_seq_lt. }
  unfold vertex_calls in Hcalls. rewrite Hrow, Hwrow in Hcalls. cbn in Hcalls.
  exists wrow, cs. split; [done|]. split; [done|].
  rewrite new_events_group_world, vertex_adds_app.
  change (vertex_adds _ i [_; _]) with (@nil (string * Qc * AssignMode)).
  cbn [app]. apply vertex_adds_all.
  - rewrite fst_zip; [apply NoDup_seq|].
    apply Forall2_length in Hcss. lia.
  - apply list_elem_of_lookup. exists i. apply lookup_zip_Some.
    split; [by apply lookup_seq_lt|done].
Qed.

End Imported.

Lemma fold_loop_ext {A B} (f g : B → A → M B) l : ∀ b w,
  (∀ b x w, x ∈ l → f b x w = g b x w) →
  fold_loop f b l w = fold_loop g b l w.
Proof.
  induction l as [|x l IH]; intros b w H; [done|].
  cbn [fold_loop]. mred. rewrite H by (by left).
  destruct (g b x w); [|done]. apply IH. intros. apply H. by right.
Qed.

Lemma for_each_ext {A} (f g : A → M unit) l : ∀ w,
  (∀ x w, f x w = g x w) → for_each l f w = for_each l g w.
Proof.
  induction l as [|x l IH]; intros w H; [done|].
  cbn [for_each]. mred. rewrite H. destruct (g x w); [|done]. by apply IH.
Qed.

Section Fourth.
Context {Row : Type}.
Variable bone_parent_table : list (string * Row).

(** With four bone indices, the weights past the third are never read. *)
Lemma do_import_first_three b_model armature w i row wrow :
  bone_assign b_model !! i = Some row →
  length row = 4%nat →
  bone_weight b_model !! i = Some wrow →
  do_import bone_parent_table
    (with_bone_weight (<[i := take 3 wrow]> (bone_weight b_model)) b_model)
    armature w
  = do_import bone_parent_table b_model armature w.
Proof.
  intros Hrow Hlen Hwrow. unfold do_import. mred.
  change (build_group bone_parent_table (with_bone_weight _ b_model))
    with (build_group bone_parent_table b_model).
  destruct (build_group bone_parent_table b_model w) as [[mesh object] w1|]; [|done].
  cbv beta iota.
  assert (Hc : counts_mismatch (with_bone_weight (<[i := take 3 wrow]>
                 (bone_weight b_model)) b_model) = counts_mismatch b_model).
  { unfold counts_mismatch. cbn. by rewrite length_insert. }
  rewrite Hc. destruct (counts_mismatch b_model).
  { cbn [vertices bone_assign bone_weight with_bone_weight].
    by rewrite length_insert. }
  mred.
  change (check_coordinates mesh (with_bone_weight _ b_model))
    with (check_coordinates mesh b_model).
  destruct (check_coordinates mesh b_model w1) as [[] w2|]; [|done].
  mred. destruct (print _ w2) as [[] w3|]; [|done].
  cbn [bone_assign with_bone_weight]. mred.
  rewrite (for_each_ext _ (assign_vertex bone_parent_table object b_model)); [done|].
  intros i' w4. unfold assign_vertex. cbn [bone_assign with_bone_weight]. mred.
  destruct (bone_assign b_model !! i') as [row'|] eqn:Hrow'; mred; [|done].
  destruct (print _ w4) as [[] w5|]; [|done]. mred.
  rewrite (fold_loop_ext _ (assign_weight_at bone_parent_table object b_model i'));
    [done|].
  intros rem j w6 Hj. apply elem_of_seq in Hj as [_ Hj]. cbn in Hj.
  unfold assign_weight_at. cbn [bone_assign bone_weight with_bone_weight]. mred.
  rewrite Hrow'. mred.
  destruct (row' !! j); mred; [|done].
  destruct (py_index _ _); mred; [|done].
  destruct (vertex_groups_find _ _ w6) as [gi w7|]; [|done].
  unfold print. mred.
  destruct (negb (j =? 3)%nat) eqn:Hj3; [|done]. mred.
  destruct (decide (i' = i)) as [->|Hne].
  - rewrite list_lookup_insert_eq by (by eapply lookup_lt_Some).
    rewrite Hwrow. mred. simplify_eq.
    apply negb_true_iff, Nat.eqb_neq in Hj3.
    by rewrite lookup_take_lt by lia.
  - by rewrite list_lookup_insert_ne.
Qed.

(** C1: for a group that [do_import] reports as imported, every vertex
    with a 4th bone index gets, as its 4th [vertgroup.add], the weight
    1.0 minus its first three explicit weights, added (mode ADD) to the
    vertex group named by the bone table row of that 4th index; the three
    explicit weights and this one sum to 1.0 (in exact arithmetic). *)
Theorem do_import_implicit_fourth_weight b_model armature w w' i row b3 :
  do_import bone_parent_table b_model armature w
    = Ok (imported_message b_model) w' →
  bone_assign b_model !! i = Some row →
  row !! 3%nat = Some b3 →
  ∃ val w0 w1 w2 wrest g0 g1 g2 more,
    py_index bone_parent_table b3 = Some val ∧
    bone_weight b_model !! i = Some (w0 :: w1 :: w2 :: wrest) ∧
    vertex_adds (length (objects w)) i (new_events w w')
      = (g0, w0, ADD) :: (g1, w1, ADD) :: (g2, w2, ADD)
        :: (val.1, 1 - w0 - w1 - w2, ADD) :: more ∧
    w0 + w1 + w2 + (1 - w0 - w1 - w2) = 1.
Proof.
  intros H Hrow Hb3.
  destruct (imported_vertex_adds _ _ _ _ _ _ _ H Hrow) as (wrow & cs & Hw & Hcs & Ha).
  destruct (row_calls_fourth _ _ _ _ _ Hb3 Hcs)
    as (w0 & w1 & w2 & wrest & g0 & g1 & g2 & val & more & -> & Hval & ->).
  exists val, w0, w1, w2, wrest, g0, g1, g2, (map tag_add more).
  split; [done|]. split; [done|]. split; [done|]. ring.
Qed.

(** C10: for a group that [do_import] reports as imported, vertex [i]
    gets exactly one [vertgroup.add] per entry of [bone_assign[i]], in
    order and always with mode ADD; the add at position [j] goes to the
    group named by the bone table row of [bone_assign[i][j]]; at every
    position but 3 its weight is [bone_weight[i][j]], and only at position
    3 it is the remainder 1.0 minus the first three weights.  So a vertex
    with at most 3 bone indices gets no remainder weight.  With exactly 4
    bone indices the entries of [bone_weight[i]] past the third are never
    read: cutting the row down to its first three entries does not change
    what [do_import] does. *)
Theorem do_import_remainder_only_at_fourth b_model armature w w' i row :
  do_import bone_parent_table b_model armature w
    = Ok (imported_message b_model) w' →
  bone_assign b_model !! i = Some row →
  ∃ wrow,
    bone_weight b_model !! i = Some wrow ∧
    length (vertex_adds (length (objects w)) i (new_events w w')) = length row ∧
    (∀ j g x mode,
       vertex_adds (length (objects w)) i (new_events w w') !! j = Some (g, x, mode) →
       mode = ADD ∧
       (∃ b val, row !! j = Some b ∧ py_index bone_parent_table b = Some val ∧
                 g = val.1) ∧
       (j ≠ 3%nat → wrow !! j = Some x) ∧
       (j = 3%nat → ∃ w0 w1 w2 wrest,
                      wrow = w0 :: w1 :: w2 :: wrest ∧ x = 1 - w0 - w1 - w2)) ∧
    ((length row ≤ 3)%nat →
       map (λ a, a.1.2) (vertex_adds (length (objects w)) i (new_events w w'))
       = take (length row) wrow) ∧
    (length row = 4%nat →
       do_import bone_parent_table
         (with_bone_weight (<[i := take 3 wrow]> (bone_weight b_model)) b_model)
         armature w
       = do_import bone_parent_table b_model armature w).
Proof.
  intros H Hrow.
  destruct (imported_vertex_adds _ _ _ _ _ _ _ H Hrow) as (wrow & cs & Hw & Hcs & Ha).
  exists wrow. split; [done|]. rewrite Ha.
  pose proof (row_calls_length _ _ _ _ _ _ Hcs) as Hlen.
  split; [by rewrite length_map|]. split; [|split].
  - intros j g x mode Hj. rewrite list_lookup_fmap in Hj.
    destruct (cs !! j) as [[g' x']|] eqn:Hcj; [|done].
    unfold tag_add in Hj. cbn in Hj. simplify_eq.
    destruct (row_calls_lookup _ _ _ _ _ _ _ _ _ Hcs Hcj) as [Hname Hexp].
    split; [done|]. split; [done|]. split; [exact Hexp|].
    intros ->. destruct (lookup_lt_is_Some_2 row 3) as [b3 Hb3].
    { rewrite <- Hlen. by eapply lookup_lt_Some. }
    destruct (row_calls_fourth _ _ _ _ _ Hb3 Hcs)
      as (w0 & w1 & w2 & wrest & g0 & g1 & g2 & val & more & -> & Hval & ->).
    cbn in Hcj. simplify_eq. by exists w0, w1, w2, wrest.
  - intros Hshort. apply list_eq. intros j.
    rewrite !list_lookup_fmap.
    destruct (decide (j < length row)%nat) as [Hj|Hj].
    + rewrite lookup_take_lt by done.
      destruct (lookup_lt_is_Some_2 cs j) as [[g x] Hcj]; [lia|].
      rewrite Hcj. cbn.
      destruct (row_calls_lookup _ _ _ _ _ _ _ _ _ Hcs Hcj) as [_ Hexp].
      symmetry. apply Hexp. lia.
    + rewrite (lookup_ge_None_2 cs) by lia.
      cbn. symmetry. apply lookup_ge_None_2. rewrite length_take. lia.
  - intros Hfour. by eapply do_import_first_three.
Qed.

End Fourth.

Lemma foldl_accumulate_None xs : foldl accumulate None xs = total_weight xs.
Proof. done. Qed.

Lemma sum_weights_cons x xs : sum_weights (x :: xs) = x + sum_weights xs.
Proof. done. Qed.

Lemma clamp_weight_id x : 0 ≤ x → x ≤ 1 → clamp_weight x = x.
Proof.
  intros H0 H1. unfold clamp_weight.
  rewrite bool_decide_eq_false_2 by (by apply Qcle_ngt).
  by rewrite bool_decide_eq_false_2 by (by apply Qcle_ngt).
Qed.

Lemma sum_weights_nonneg xs : Forall (λ x, 0 ≤ x) xs → 0 ≤ sum_weights xs.
Proof.
  induction 1 as [|x xs Hx _ IH]; [done|].
  rewrite sum_weights_cons. by apply Qcplus_nonneg_nonneg.
Qed.

Lemma Qcle_add_nonneg_r (a b c : Qc) : 0 ≤ b → a + b ≤ c → a ≤ c.
Proof.
  intros Hb H. etrans; [|exact H].
  rewrite <- (Qcplus_0_r a) at 1. by apply Qcplus_le_mono_l.
Qed.

Lemma foldl_accumulate_sum xs : ∀ a,
  0 ≤ a → Forall (λ x, 0 ≤ x) xs → a + sum_weights xs ≤ 1 →
  foldl accumulate (Some a) xs = Some (a + sum_weights xs).
Proof.
  induction xs as [|x xs IH]; intros a Ha Hxs Hsum.
  { cbn. f_equal. ring. }
  apply list.Forall_cons in Hxs as [Hx Hxs].
  rewrite sum_weights_cons in Hsum |- *. rewrite Qcplus_assoc in Hsum |- *.
  pose proof (sum_weights_nonneg xs Hxs) as Hrest.
  assert (Hax : a + x ≤ 1) by (by eapply Qcle_add_nonneg_r).
  assert (Hx1 : x ≤ 1).
  { apply (Qcle_add_nonneg_r x a); [done|]. by rewrite Qcplus_comm. }
  cbn [foldl]. unfold accumulate at 2. rewrite (clamp_weight_id x) by done.
  assert (H0ax : 0 ≤ a + x) by (by apply Qcplus_nonneg_nonneg).
  case_bool_decide as Hone.
  - assert (a + x = 1) as Heq by (by apply Qcle_antisym).
    rewrite <- Heq. by apply IH.
  - by apply IH.
Qed.

Lemma total_weight_sum x xs :
  Forall (λ y, 0 ≤ y) (x :: xs) → sum_weights (x :: xs) ≤ 1 →
  total_weight (x :: xs) = Some (sum_weights (x :: xs)).
Proof.
  intros [Hx Hxs]%list.Forall_cons Hsum. unfold total_weight. cbn [foldl].
  rewrite sum_weights_cons in Hsum |- *.
  unfold accumulate at 2.
  pose proof (sum_weights_nonneg xs Hxs) as Hrest.
  rewrite (clamp_weight_id x); [by apply foldl_accumulate_sum|done|].
  by eapply Qcle_add_nonneg_r.
Qed.

Lemma weight_of_assign_add ws i i' x :
  weight_of (assign_weight ADD i' x ws) i
  = if bool_decide (i = i') then accumulate (weight_of ws i) x else weight_of ws i.
Proof.
  induction ws as [|[k old] ws IH]; cbn [assign_weight weight_of].
  - repeat case_bool_decide; by simplify_eq.
  - destruct (decide (k = i')) as [->|Hk].
    + rewrite (bool_decide_eq_true_2 (i' = i')) by done. cbn [weight_of].
      destruct (decide (i' = i)) as [->|Hi].
      * by rewrite !(bool_decide_eq_true_2 (i = i)) by done.
      * rewrite (bool_decide_eq_false_2 (i' = i)) by done.
        by rewrite (bool_decide_eq_false_2 (i = i')) by done.
    + rewrite (bool_decide_eq_false_2 (k = i')) by done. cbn [weight_of].
      rewrite IH. repeat case_bool_decide; by simplify_eq.
Qed.

Lemma find_group_alter f nm gi gs :
  (∀ g, vg_name (f g) = vg_name g) →
  find_group nm (alter f gi gs) = find_group nm gs.
Proof.
  intros Hf. revert gi. induction gs as [|g gs IH]; intros [|gi]; cbn; try done.
  - by rewrite Hf.
  - by rewrite IH.
Qed.

Lemma find_group_lookup nm gs gi :
  find_group nm gs = Some gi → ∃ g, gs !! gi = Some g ∧ vg_name g = nm.
Proof.
  revert gi. induction gs as [|g gs IH]; intros gi; cbn; [done|].
  case_bool_decide.
  - intros [= <-]. by exists g.
  - destruct (find_group nm gs) as [gj|]; [|done]. intros [= <-]. by apply IH.
Qed.

Lemma group_weight_add g' i' x gs g i :
  is_Some (find_group g' gs) →
  group_weight (add_to_group g' i' x gs) g i
  = if bool_decide (g = g' ∧ i = i') then accumulate (group_weight gs g i) x
    else group_weight gs g i.
Proof.
  intros [gi' Hgi']. unfold add_to_group, group_weight. rewrite Hgi'.
  rewrite find_group_alter by done.
  destruct (find_group g gs) as [gi|] eqn:Hgi; cbn [mbind option_bind].
  - destruct (find_group_lookup _ _ _ Hgi) as (grp & Hgrp & Hname).
    destruct (decide (gi = gi')) as [->|Hne].
    + assert (g = g') as -> by (destruct (find_group_lookup _ _ _ Hgi')
        as (? & ? & ?); congruence).
      rewrite list_lookup_alter_eq, Hgrp. cbn.
      rewrite weight_of_assign_add.
      destruct (decide (i = i')) as [->|Hi].
      * by rewrite !bool_decide_eq_true_2.
      * rewrite !bool_decide_eq_false_2; [done|by intros [_ ?]|done].
    + rewrite list_lookup_alter_ne by done.
      rewrite bool_decide_eq_false_2; [done|]. intros [-> _]. congruence.
  - rewrite bool_decide_eq_false_2; [done|]. intros [-> _]. congruence.
Qed.

Lemma find_group_is_Some nm gs : nm ∈ map vg_name gs → is_Some (find_group nm gs).
Proof. intros H. destruct (find_group_Some nm gs H) as (gi & ? & -> & _). eauto. Qed.

Lemma replay_weight i' calls g i : ∀ gs,
  Forall (λ c, c.1 ∈ map vg_name gs) calls →
  group_weight (replay i' calls gs) g i
  = foldl accumulate (group_weight gs g i)
      (if bool_decide (i = i') then map snd (filter (λ c, c.1 = g) calls) else []).
Proof.
  induction calls as [|[g' x] calls IH]; intros gs Hnames.
  - by case_bool_decide.
  - apply list.Forall_cons in Hnames as [Hg' Hnames]. cbn [fst] in Hg'.
    unfold replay. cbn [foldl fst snd]. fold (replay i' calls (add_to_group g' i' x gs)).
    rewrite IH by (by rewrite (map_vg_name_add g' i' x gs)).
    rewrite group_weight_add by (by apply find_group_is_Some).
    rewrite list.filter_cons. cbn [fst].
    destruct (decide (i = i')) as [->|Hi].
    + rewrite !(bool_decide_eq_true_2 (i' = i')) by done.
      destruct (decide (g' = g)) as [->|Hg].
      * by rewrite bool_decide_eq_true_2.
      * by rewrite bool_decide_eq_false_2 by (intros [? _]; congruence).
    + rewrite !(bool_decide_eq_false_2 (i = i')) by done.
      by rewrite bool_decide_eq_false_2 by (by intros [_ ?]).
Qed.

Lemma replay_all_weight ics g i : ∀ gs,
  Forall (λ ic, Forall (λ c, c.1 ∈ map vg_name gs) ic.2) ics →
  group_weight (replay_all ics gs) g i
  = foldl accumulate (group_weight gs g i)
      (flat_map (λ ic, if bool_decide (i = ic.1)
                       then map snd (filter (λ c, c.1 = g) ic.2) else []) ics).
Proof.
  induction ics as [|[i' cs] ics IH]; intros gs Hnames; [done|].
  apply list.Forall_cons in Hnames as [Hcs Hnames]. cbn [snd] in Hcs.
  unfold replay_all. cbn [foldl fst snd flat_map].
  fold (replay_all ics (replay i' cs gs)).
  rewrite IH by (by rewrite (map_vg_name_replay i' cs gs)).
  by rewrite replay_weight, foldl_app.
Qed.

Lemma vertex_adds_flat b_model ob i ics :
  vertex_adds ob i (flat_map (vertex_events b_model ob) ics)
  = flat_map (λ ic, if bool_decide (i = ic.1) then map tag_add ic.2 else []) ics.
Proof.
  induction ics as [|ic ics IH]; [done|]. cbn [flat_map].
  by rewrite vertex_adds_app, vertex_adds_vertex_events, IH.
Qed.

Lemma contributions_tag g cs :
  map (λ a : string * Qc * AssignMode, a.1.2) (filter (λ a, a.1.1 = g) (map tag_add cs))
  = map snd (filter (λ c, c.1 = g) cs).
Proof.
  induction cs as [|c cs IH]; [done|]. cbn [map]. rewrite !list.filter_cons.
  cbn [tag_add fst snd]. case_decide; cbn [map]; by rewrite IH.
Qed.

Lemma contributions_flat g i ics :
  map (λ a : string * Qc * AssignMode, a.1.2)
    (filter (λ a, a.1.1 = g)
       (flat_map (λ ic : nat * list (string * Qc),
          if bool_decide (i = ic.1) then map tag_add ic.2 else []) ics))
  = flat_map (λ ic, if bool_decide (i = ic.1)
                    then map snd (filter (λ c, c.1 = g) ic.2) else []) ics.
Proof.
  induction ics as [|ic ics IH]; [done|]. cbn [flat_map].
  rewrite list.filter_app, map_app, IH. f_equal.
  case_bool_decide; [apply contributions_tag|done].
Qed.

Lemma group_weight_empty {Row} (tbl : list (string * Row)) g i :
  group_weight (empty_groups tbl) g i = None.
Proof.
  unfold group_weight. destruct (find_group g _) as [gi|]; [|done]. cbn.
  unfold empty_groups. rewrite list_lookup_fmap.
  by destruct (tbl !! gi).
Qed.

Section Accumulate.
Context {Row : Type}.
Variable bone_parent_table : list (string * Row).

Lemma row_calls_names rest weights j remainder calls :
  row_calls bone_parent_table rest weights j remainder = Some calls →
  Forall (λ c, c.1 ∈ map fst bone_parent_table) calls.
Proof.
  intros H. apply Forall_lookup. intros k [g x] Hk.
  destruct (row_calls_lookup _ _ _ _ _ _ _ _ _ H Hk) as [(b & val & _ & Hval & ->) _].
  cbn. apply list_elem_of_fmap_2. by eapply py_index_elem_of.
Qed.

Lemma vertex_calls_names b_model ids css :
  mapM (vertex_calls bone_parent_table b_model) ids = Some css →
  Forall (λ ic : nat * list (string * Qc),
            Forall (λ c, c.1 ∈ map vg_name (empty_groups bone_parent_table)) ic.2)
         (zip ids css).
Proof.
  intros H%mapM_Some_1. rewrite map_vg_name_empty_groups.
  apply Forall_lookup. intros k [i cs] [Hi Hcs]%lookup_zip_Some.
  pose proof (Forall2_lookup_lr _ _ _ _ _ _ H Hi Hcs) as Hc. cbn in Hc |- *.
  unfold vertex_calls in Hc. destruct (bone_assign b_model !! i); [|done].
  by eapply row_calls_names.
Qed.

(** The weight a vertex of an imported group ends with in a group. *)
Lemma imported_stored_weight b_model armature w w' i g :
  do_import bone_parent_table b_model armature w
    = Ok (imported_message b_model) w' →
  ∃ o,
    objects w' !! length (objects w) = Some o ∧
    group_weight (ob_vertex_groups o) g i
    = total_weight
        (contributions g (vertex_adds (length (objects w)) i (new_events w w'))).
Proof.
  intros H. apply do_import_imported in H as (mesh & css & _ & Hcss & ->).
  eexists. split; [cbn; by rewrite list_lookup_middle|].
  rewrite new_events_group_world, vertex_adds_app.
  change (vertex_adds _ i [_; _]) with (@nil (string * Qc * AssignMode)).
  cbn [app]. rewrite vertex_adds_flat.
  cbn [ob_vertex_groups group_object]. unfold contributions.
  rewrite replay_all_weight by (by apply (vertex_calls_names b_model)).
  by rewrite group_weight_empty, foldl_accumulate_None, contributions_flat.
Qed.

(** C5: for a vertex of a group that [do_import] reports as imported,
    every entry of its [bone_assign] row gets one [vertgroup.add], in
    order and in mode ADD, to the group named by the entry's bone table
    row; a bone group the row lists twice therefore receives two adds,
    and no add ever replaces.  What the group then stores for the vertex
    is what the host makes of these contributions in order: the first is
    stored, each later one is added to what is stored (the host stops at
    one).  When the contributions to a group are not negative and sum to
    at most one, the stored weight is their sum. *)
Theorem do_import_weights_accumulate b_model armature w w' :
  do_import bone_parent_table b_model armature w
    = Ok (imported_message b_model) w' →
  ∃ o,
    objects w' !! length (objects w) = Some o ∧
    ∀ i row, bone_assign b_model !! i = Some row →
      let adds := vertex_adds (length (objects w)) i (new_events w w') in
      length adds = length row ∧
      (∀ j b, row !! j = Some b →
         ∃ val x, py_index bone_parent_table b = Some val ∧
                  adds !! j = Some (val.1, x, ADD)) ∧
      ∀ g,
        group_weight (ob_vertex_groups o) g i
          = total_weight (contributions g adds) ∧
        (contributions g adds ≠ [] →
         Forall (λ x, 0 ≤ x) (contributions g adds) →
         sum_weights (contributions g adds) ≤ 1 →
         group_weight (ob_vertex_groups o) g i
           = Some (sum_weights (contributions g adds))).
Proof.
  intros H.
  destruct (imported_stored_weight _ _ _ _ 0%nat "" H) as (o & Ho & _).
  exists o. split; [done|]. intros i row Hrow adds.
  destruct (imported_vertex_adds _ _ _ _ _ _ _ H Hrow)
    as (wrow & cs & Hw & Hcs & Ha).
  pose proof (row_calls_length _ _ _ _ _ _ Hcs) as Hlen.
  subst adds. split; [by rewrite Ha, length_map|]. split.
  - intros j b Hj.
    destruct (lookup_lt_is_Some_2 cs j) as [[g x] Hc].
    { rewrite Hlen. by eapply lookup_lt_Some. }
    destruct (row_calls_lookup _ _ _ _ _ _ _ _ _ Hcs Hc)
      as [(b' & val & Hb' & Hval & ->) _].
    simplify_eq. exists val, x. split; [done|].
    by rewrite Ha, list_lookup_fmap, Hc.
  - intros g.
    destruct (imported_stored_weight _ _ _ _ i g H) as (o' & Ho' & Hstored).
    simplify_eq. split; [done|]. intros Hne Hpos Hsum. rewrite Hstored.
    destruct (contributions g _) as [|x xs]; [done|]. by apply total_weight_sum.
Qed.

End Accumulate.

Lemma do_import_implicit_fourth_weight_witness :
  ∃ val w0 w1 w2 wrest g0 g1 g2 more,
    py_index demo_table 3 = Some val ∧
    bone_weight demo_group !! 0%nat = Some (w0 :: w1 :: w2 :: wrest) ∧
    vertex_adds (length (objects empty_world)) 0
      (new_events empty_world demo_group_world)
      = (g0, w0, ADD) :: (g1, w1, ADD) :: (g2, w2, ADD)
        :: (val.1, 1 - w0 - w1 - w2, ADD) :: more ∧
    w0 + w1 + w2 + (1 - w0 - w1 - w2) = 1.
Proof.
  apply (do_import_implicit_fourth_weight demo_table demo_group 0 empty_world
           demo_group_world 0 [0; 1; 2; 3]%Z 3%Z);
    [vm_compute; reflexivity | reflexivity | reflexivity].
Defined.

Lemma do_import_weights_accumulate_witness :
  ∃ o,
    objects demo_group_world !! length (objects empty_world) = Some o ∧
    ∀ i row, bone_assign demo_group !! i = Some row →
      let adds := vertex_adds (length (objects empty_world)) i
                    (new_events empty_world demo_group_world) in
      length adds = length row ∧
      (∀ j b, row !! j = Some b →
         ∃ val x, py_index demo_table b = Some val ∧
                  adds !! j = Some (val.1, x, ADD)) ∧
      ∀ g,
        group_weight (ob_vertex_groups o) g i
          = total_weight (contributions g adds) ∧
        (contributions g adds ≠ [] →
         Forall (λ x, 0 ≤ x) (contributions g adds) →
         sum_weights (contributions g adds) ≤ 1 →
         group_weight (ob_vertex_groups o) g i
           = Some (sum_weights (contributions g adds))).
Proof.
  apply (do_import_weights_accumulate demo_table demo_group 0 empty_world).
  vm_compute. reflexivity.
Defined.

Lemma do_import_remainder_only_at_fourth_witness :
  ∃ wrow,
    bone_weight demo_group !! 1%nat = Some wrow ∧
    length (vertex_adds (length (objects empty_world)) 1
              (new_events empty_world demo_group_world)) = length [1; 1]%Z ∧
    (∀ j g x mode,
       vertex_adds (length (objects empty_world)) 1
         (new_events empty_world demo_group_world) !! j = Some (g, x, mode) →
       mode = ADD ∧
       (∃ b val, [1; 1]%Z !! j = Some b ∧ py_index demo_table b = Some val ∧
                 g = val.1) ∧
       (j ≠ 3%nat → wrow !! j = Some x) ∧
       (j = 3%nat → ∃ w0 w1 w2 wrest,
                      wrow = w0 :: w1 :: w2 :: wrest ∧ x = 1 - w0 - w1 - w2)) ∧
    ((length [1; 1]%Z ≤ 3)%nat →
       map (λ a, a.1.2)
         (vertex_adds (length (objects empty_world)) 1
            (new_events empty_world demo_group_world))
       = take (length [1; 1]%Z) wrow) ∧
    (length [1; 1]%Z = 4%nat →
       do_import demo_table
         (with_bone_weight (<[1%nat := take 3 wrow]> (bone_weight demo_group))
            demo_group) 0 empty_world
       = do_import demo_table demo_group 0 empty_world).
Proof.
  apply (do_import_remainder_only_at_fourth demo_table demo_group 0 empty_world
           demo_group_world 1 [1; 1]%Z);
    [vm_compute; reflexivity | reflexivity].
Defined.

(** The second vertex of [demo_group] lists bone 1 twice, with weights 1/4
    and 1/2: it ends with 3/4 in that bone's group. *)
Example demo_duplicate_bone_accumulates :
  ∃ o, objects demo_group_world !! 0%nat = Some o ∧
       group_weight (ob_vertex_groups o) "root_trans" 1 = Some (Q2Qc (3 # 4)).
Proof.
  eexists. split; [vm_compute; reflexivity|]. by_compute.
Qed.

(** * Further properties *)

(** ** Where the loop over the bones stops *)

Lemma py_position_None {A} (l : list A) (p : Z) :
  py_position l p = None ↔ ¬ (- Z.of_nat (length l) ≤ p < Z.of_nat (length l))%Z.
Proof.
  unfold py_position. repeat case_bool_decide; split; intros; try done; lia.
Qed.

Lemma built_bone_None prev bd :
  built_bone prev bd = None ↔
  ∃ p, bd_parent bd = Some p ∧
       ¬ (- Z.of_nat (S (length prev)) ≤ p ≤ Z.of_nat (length prev))%Z.
Proof.
  unfold built_bone. destruct (bd_parent bd) as [p|]; [|split; [done|by intros (? & ? & _)]].
  set (l := prev ++ _).
  assert (Hl : length l = S (length prev)) by (unfold l; rewrite length_app; cbn; lia).
  destruct (py_position l p) as [q|] eqn:Hq; cbn [mbind option_bind].
  - destruct (lookup_lt_is_Some_2 l q (py_position_lt _ _ _ Hq)) as [pb ->].
    cbn. split; [done|]. intros (p' & [= <-] & Hp).
    assert (py_position l p ≠ None) as Hne by (by rewrite Hq).
    rewrite py_position_None in Hne. lia.
  - split; [|done]. intros _. exists p. split; [done|].
    apply py_position_None in Hq. lia.
Qed.

Lemma first_bad_parent_resolve skel : ∀ k,
  first_bad_parent k skel = None ↔ parents_resolve k skel = true.
Proof.
  induction skel as [|bd rest IH]; intros k; cbn [first_bad_parent parents_resolve]; [done|].
  destruct (bd_parent bd) as [p|].
  - case_bool_decide; cbn [andb]; [apply IH|done].
  - cbn [andb]. apply IH.
Qed.

Lemma first_bad_parent_ge skel : ∀ k j, first_bad_parent k skel = Some j → (k ≤ j)%nat.
Proof.
  induction skel as [|bd rest IH]; intros k j; cbn [first_bad_parent]; [done|].
  destruct (bd_parent bd) as [p|]; [case_bool_decide as Hc|].
  - intros Hj%IH. lia.
  - intros [= <-]. lia.
  - intros Hj%IH. lia.
Qed.

(** Where the loop stops, and with which bones. *)
Lemma built_bones_stop skel : ∀ prev j,
  first_bad_parent (length prev) skel = Some j →
  built_bones prev skel = None ∧
  ∃ bs bd p,
    built_bones prev (take (j - length prev) skel) = Some bs ∧
    length bs = j ∧
    skel !! (j - length prev)%nat = Some bd ∧
    bd_parent bd = Some p ∧
    ¬ (- Z.of_nat (S j) ≤ p ≤ Z.of_nat j)%Z ∧
    bones_at_stop prev skel = bs ++ [half_bone bd].
Proof.
  induction skel as [|bd rest IH]; intros prev j; cbn [first_bad_parent]; [done|].
  intros H. cbn [built_bones bones_at_stop].
  destruct (built_bone prev bd) as [b|] eqn:Hb.
  - assert (Hnext : first_bad_parent (S (length prev)) rest = Some j).
    { destruct (bd_parent bd) as [p|] eqn:Hp; [|done].
      case_bool_decide as Hr; [done|].
      assert (built_bone prev bd = None) as Hn by (apply built_bone_None; eauto).
      congruence. }
    pose proof (first_bad_parent_ge _ _ _ Hnext) as Hge.
    specialize (IH (prev ++ [b]) j).
    rewrite length_app, Nat.add_1_r in IH. destruct (IH Hnext) as (Hnone & bs & bd' & p & Hbs & Hlen & Hbd & Hp & Hout & Hstop).
    cbn [mbind option_bind]. split; [done|].
    exists bs, bd', p.
    replace (j - length prev)%nat with (S (j - S (length prev))) by lia.
    cbn [take built_bones]. rewrite Hb. cbn [mbind option_bind].
    done.
  - apply built_bone_None in Hb as (p & Hp & Hout).
    rewrite Hp in H. rewrite bool_decide_eq_false_2 in H by done.
    injection H as <-. cbn [mbind option_bind]. split; [done|].
    exists prev, bd, p. rewrite Nat.sub_diag. cbn [take built_bones lookup list_lookup].
    done.
Qed.

Lemma built_bones_None skel prev :
  parents_resolve (length prev) skel = false → built_bones prev skel = None.
Proof.
  intros H. destruct (first_bad_parent (length prev) skel) as [j|] eqn:Hj.
  - by apply built_bones_stop in Hj as [? _].
  - apply first_bad_parent_resolve in Hj. congruence.
Qed.

Lemma build_bone_stop h a prev bd w :
  (h < length (armatures w))%nat →
  built_bone prev bd = None →
  build_bone h bd (put_bones h a prev w)
  = Raise IndexError (put_bones h a (prev ++ [half_bone bd]) w).
Proof.
  intros H (p & Hp & Hout)%built_bone_None. unfold build_bone.
  mred. rewrite edit_bones_new_put by done. mred.
  rewrite modify_bone_put by done. mred. rewrite Hp. mred.
  rewrite edit_bones_index_put by done.
  replace (py_position _ p) with (@None nat); [done|].
  symmetry. apply py_position_None. rewrite length_app. cbn [length]. lia.
Qed.

Lemma build_loop_stop h a skeldata : ∀ prev w,
  (h < length (armatures w))%nat →
  built_bones prev skeldata = None →
  for_each skeldata (build_bone h) (put_bones h a prev w)
  = Raise IndexError (put_bones h a (bones_at_stop prev skeldata) w).
Proof.
  induction skeldata as [|bd rest IH]; intros prev w H; [done|].
  cbn [built_bones for_each bones_at_stop]. mred.
  pose proof (build_bone_put h a prev bd w H) as Hb.
  destruct (built_bone prev bd) as [b|] eqn:Hbb; cbn [mbind option_bind].
  - rewrite Hb. apply IH, H.
  - intros _. by rewrite build_bone_stop.
Qed.

Lemma build_armature_stop gmdc w :
  built_bones [] (build_bones_result gmdc) = None →
  build_armature gmdc w
  = Raise IndexError
      (armature_world w (bones_at_stop [] (build_bones_result gmdc)) EDIT).
Proof.
  intros Hnone.
  unfold build_armature, build_bones, bpy_ops_object_add_armature, bpy_context_object.
  mred. wred. mred.
  set (o := {| ob_name := "Armature"; ob_data := _ |}).
  set (l := map (set_ob_select false) (objects w)).
  assert (Hl : length (objects w) = length l) by (unfold l; by rewrite length_map).
  rewrite Hl.
  rewrite (modify_object_last _ _ l o) by done. mred.
  rewrite (modify_object_last _ _ l (set_ob_show_x_ray true o)) by done. mred.
  unfold object_armature, get_object. mred.
  cbn [objects set_objects]. rewrite list_lookup_middle by done. mred.
  cbn [ob_data set_ob_name set_ob_show_x_ray o]. mred.
  set (a0 := {| arm_draw_type := "STICK"; arm_bones := [] |}).
  match goal with |- context [modify_armature _ _ ?W] => set (W0 := W) end.
  assert (Hlen : (length (armatures w) < length (armatures W0))%nat).
  { cbn. rewrite length_app. cbn. lia. }
  assert (HW0 : W0 = put_armature (length (armatures w))
            {| arm_draw_type := "OCTAHEDRAL"; arm_bones := [] |} W0).
  { symmetry. apply put_armature_id. cbn. by rewrite list_lookup_middle. }
  assert (Hmod : modify_armature (length (armatures w)) (set_arm_draw_type "STICK") W0
                 = Ok tt (put_bones (length (armatures w)) a0 [] W0)).
  { change (put_bones ?h a0 [] W0)
      with (put_armature h (set_arm_draw_type "STICK"
              {| arm_draw_type := "OCTAHEDRAL"; arm_bones := [] |}) W0).
    rewrite <- modify_armature_put by done. by rewrite <- HW0. }
  rewrite Hmod. mred.
  rewrite (build_loop_stop _ a0 _ [] W0 Hlen Hnone). f_equal.
  unfold put_bones, put_armature, set_armatures, armature_world. cbn.
  by rewrite insert_last, Hl.
Qed.

Lemma import_skeleton_stop gmdc w :
  built_bones [] (build_bones_result gmdc) = None →
  import_skeleton gmdc w
  = Raise IndexError
      (armature_world w (bones_at_stop [] (build_bones_result gmdc)) EDIT).
Proof.
  intros H. unfold import_skeleton. mred. by rewrite build_armature_stop.
Qed.

Lemma built_bone_shape prev bd b :
  built_bone prev bd = Some b →
  eb_name b = bd_name bd ∧
  eb_props b = bone_props bd ∧
  eb_tail b = stretch (quat_rotate (bd_rotation bd) (bd_position bd)) (eb_head b).
Proof.
  unfold built_bone. destruct (bd_parent bd) as [p|].
  - destruct (py_position _ p) as [q|]; [|done]. cbn [mbind option_bind].
    destruct (_ !! q) as [pb|]; [|done]. cbn. by intros [= <-].
  - by intros [= <-].
Qed.

(** ** More on the skeleton *)

(** [import_skeleton] returns exactly when every parent index names a
    bone that exists when line 101 looks it up (bone number [k] may name
    positions [0..k], or [-1..-(k+1)] counted back from itself); otherwise
    line 101 raises [IndexError].  There is no third outcome. *)
Theorem import_skeleton_returns_iff gmdc w :
  ((∃ ob w', import_skeleton gmdc w = Ok ob w')
   ↔ parents_resolve 0 (build_bones_result gmdc) = true) ∧
  ((∃ w', import_skeleton gmdc w = Raise IndexError w')
   ↔ parents_resolve 0 (build_bones_result gmdc) = false).
Proof.
  pose proof (import_skeleton_spec gmdc w) as Hs.
  destruct (parents_resolve 0 (build_bones_result gmdc)) eqn:Hp.
  - destruct (built_bones_resolve _ [] Hp) as [bs Hbs]. rewrite Hbs in Hs.
    split; split; try done.
    + intros _. eauto.
    + intros [w' H]. by rewrite Hs in H.
  - rewrite (built_bones_None _ [] Hp) in Hs. destruct Hs as [w' Hs].
    split; split; try done.
    + intros (ob & w'' & H). by rewrite Hs in H.
    + intros _. eauto.
Qed.

(** When bone number [j] is the first whose parent index is out of
    range, [import_skeleton] raises [IndexError] at line 101 and lines
    121-123 never run: the editor is left in edit mode with the new
    armature object active; the armature holds the [j] bones built before
    (each with its stored properties, none of them mirrored) and bone [j]
    itself with only its tail set; no mesh is touched. *)
Theorem import_skeleton_stops_at_bad_parent gmdc w j :
  first_bad_parent 0 (build_bones_result gmdc) = Some j →
  ∃ w' a bd p,
    import_skeleton gmdc w = Raise IndexError w' ∧
    build_bones_result gmdc !! j = Some bd ∧
    bd_parent bd = Some p ∧
    ¬ (- Z.of_nat (S j) ≤ p ≤ Z.of_nat j)%Z ∧
    mode w' = EDIT ∧
    active_object w' = Some (length (objects w)) ∧
    length (objects w') = S (length (objects w)) ∧
    meshes w' = meshes w ∧
    armatures w' !! length (armatures w) = Some a ∧
    length (arm_bones a) = S j ∧
    arm_bones a !! j
      = Some {| eb_name := bd_name bd; eb_head := vec3_zero;
                eb_tail := quat_rotate (bd_rotation bd) (bd_position bd);
                eb_parent := None; eb_props := [] |} ∧
    ∀ k bd', (k < j)%nat → build_bones_result gmdc !! k = Some bd' →
      ∃ b, arm_bones a !! k = Some b ∧
           eb_props b = bone_props bd' ∧
           eb_tail b = stretch (quat_rotate (bd_rotation bd') (bd_position bd'))
                               (eb_head b).
Proof.
  intros Hj.
  destruct (built_bones_stop _ [] j Hj)
    as (Hnone & bs & bd & p & Hbs & Hlen & Hbd & Hp & Hout & Hstop).
  cbn [length] in Hbs, Hbd. rewrite Nat.sub_0_r in Hbs, Hbd.
  eexists _, _, bd, p. split; [by apply import_skeleton_stop|].
  split; [done|]. split; [done|]. split; [done|].
  cbn [mode active_object meshes objects armature_world].
  split; [done|]. split; [done|].
  split; [rewrite length_app, length_map; cbn; lia|]. split; [done|].
  split; [apply armature_world_lookup|]. rewrite Hstop. cbn [arm_bones].
  split; [rewrite length_app; cbn; lia|].
  split; [by rewrite <- Hlen, list_lookup_middle|].
  intros k bd' Hk Hbd'.
  apply built_bones_lookup in Hbs as (_ & _ & Hshape). cbn [length] in Hshape.
  destruct (Hshape k bd') as (b & Hb & Hbuilt).
  { by rewrite lookup_take_lt. }
  cbn in Hb. exists b. split; [by rewrite lookup_app_l by lia|].
  by apply built_bone_shape in Hbuilt as (_ & ? & ?).
Qed.

Lemma import_skeleton_stops_at_bad_parent_witness :
  ∃ w' a bd p,
    import_skeleton demo_broken_file demo_scene = Raise IndexError w' ∧
    build_bones_result demo_broken_file !! 2%nat = Some bd ∧
    bd_parent bd = Some p ∧
    ¬ (- Z.of_nat 3 ≤ p ≤ Z.of_nat 2)%Z ∧
    mode w' = EDIT ∧
    active_object w' = Some (length (objects demo_scene)) ∧
    length (objects w') = S (length (objects demo_scene)) ∧
    meshes w' = meshes demo_scene ∧
    armatures w' !! length (armatures demo_scene) = Some a ∧
    length (arm_bones a) = 3%nat ∧
    arm_bones a !! 2%nat
      = Some {| eb_name := bd_name bd; eb_head := vec3_zero;
                eb_tail := quat_rotate (bd_rotation bd) (bd_position bd);
                eb_parent := None; eb_props := [] |} ∧
    ∀ k bd', (k < 2)%nat → build_bones_result demo_broken_file !! k = Some bd' →
      ∃ b, arm_bones a !! k = Some b ∧
           eb_props b = bone_props bd' ∧
           eb_tail b = stretch (quat_rotate (bd_rotation bd') (bd_position bd'))
                               (eb_head b).
Proof.
  apply (import_skeleton_stops_at_bad_parent demo_broken_file demo_scene 2).
  reflexivity.
Defined.

(** The custom properties written at lines 110-117 give back the bone's
    translation and rotation as the file had them (not mirrored): a bone
    of the finished armature carries exactly the keys [tX tY tZ rW rX rY
    rZ], and reading them rebuilds the position vector and the w-first
    quaternion of its bone record. *)
Theorem import_skeleton_stores_file_values gmdc w ob w' :
  import_skeleton gmdc w = Ok ob w' →
  ∃ a, armatures w' !! length (armatures w) = Some a ∧
    ∀ k bd, build_bones_result gmdc !! k = Some bd →
    ∃ b tX tY tZ rW rX rY rZ,
      arm_bones a !! k = Some b ∧
      eb_name b = bd_name bd ∧
      map fst (eb_props b) = ["tX"; "tY"; "tZ"; "rW"; "rX"; "rY"; "rZ"] ∧
      dict_get "tX" (eb_props b) = Some tX ∧
      dict_get "tY" (eb_props b) = Some tY ∧
      dict_get "tZ" (eb_props b) = Some tZ ∧
      dict_get "rW" (eb_props b) = Some rW ∧
      dict_get "rX" (eb_props b) = Some rX ∧
      dict_get "rY" (eb_props b) = Some rY ∧
      dict_get "rZ" (eb_props b) = Some rZ ∧
      V3 tX tY tZ = bd_position bd ∧
      Quat rW rX rY rZ = bd_rotation bd.
Proof.
  intros H. destruct (final_bone_shape _ _ _ _ H) as (a & Ha & _ & Hk).
  exists a. split; [done|]. intros k bd Hbd.
  destruct (Hk k bd Hbd) as (b & Hb & Hname & Hprops & _).
  exists b. rewrite Hprops. unfold bone_props.
  do 7 eexists. split; [done|]. split; [done|].
  do 8 (split; [reflexivity|]).
  by destruct (bd_position bd), (bd_rotation bd).
Qed.

Lemma import_skeleton_stores_file_values_witness :
  ∃ a, armatures (final_world (import_skeleton demo_skeleton_file demo_scene))
         !! length (armatures demo_scene) = Some a ∧
    ∀ k bd, build_bones_result demo_skeleton_file !! k = Some bd →
    ∃ b tX tY tZ rW rX rY rZ,
      arm_bones a !! k = Some b ∧
      eb_name b = bd_name bd ∧
      map fst (eb_props b) = ["tX"; "tY"; "tZ"; "rW"; "rX"; "rY"; "rZ"] ∧
      dict_get "tX" (eb_props b) = Some tX ∧
      dict_get "tY" (eb_props b) = Some tY ∧
      dict_get "tZ" (eb_props b) = Some tZ ∧
      dict_get "rW" (eb_props b) = Some rW ∧
      dict_get "rX" (eb_props b) = Some rX ∧
      dict_get "rY" (eb_props b) = Some rY ∧
      dict_get "rZ" (eb_props b) = Some rZ ∧
      V3 tX tY tZ = bd_position bd ∧
      Quat rW rX rY rZ = bd_rotation bd.
Proof.
  apply (import_skeleton_stores_file_values demo_skeleton_file demo_scene 2%nat).
  vm_compute. reflexivity.
Defined.

(** [import_skeleton] acts on the new armature alone.  The [object.add]
    of line 82 deselects every object that was in the scene, so the
    resize and apply of lines 122-123 reach no other object: existing
    objects keep their name, data, scale and vertex groups (only their
    selection is cleared), and no existing mesh or armature is changed.
    The new object is drawn in front ([show_x_ray]), selected and active,
    with scale one and no vertex group; its armature is drawn as sticks;
    the editor is back in object mode.  The object is called "Armature"
    when no object of the scene had that name. *)
Theorem import_skeleton_touches_only_new_armature gmdc w ob w' :
  import_skeleton gmdc w = Ok ob w' →
  ob = length (objects w) ∧
  meshes w' = meshes w ∧
  take (length (armatures w)) (armatures w') = armatures w ∧
  length (armatures w') = S (length (armatures w)) ∧
  scene_objects w' = scene_objects w ++ [ob] ∧
  active_object w' = Some ob ∧
  mode w' = OBJECT ∧
  (∃ a, armatures w' !! length (armatures w) = Some a ∧ arm_draw_type a = "STICK") ∧
  ∃ o,
    objects w' = map (set_ob_select false) (objects w) ++ [o] ∧
    ob_data o = DataArmature (length (armatures w)) ∧
    ob_scale o = vec3_one ∧
    ob_select o = true ∧
    ob_show_x_ray o = true ∧
    ob_vertex_groups o = [] ∧
    ("Armature" ∉ map ob_name (objects w) → ob_name o = "Armature").
Proof.
  intros H. apply import_skeleton_ok in H as (bs & _ & -> & ->).
  cbn [meshes armatures objects scene_objects active_object mode armature_world].
  split; [done|]. split; [done|].
  split; [by rewrite take_app_length|].
  split; [rewrite length_app; cbn; lia|].
  do 3 (split; [done|]).
  split; [eexists; split; [by rewrite list_lookup_middle|done]|].
  eexists. split; [reflexivity|]. by cbn.
Qed.

Lemma import_skeleton_touches_only_new_armature_witness :
  let w' := final_world (import_skeleton demo_skeleton_file demo_scene) in
  2%nat = length (objects demo_scene) ∧
  meshes w' = meshes demo_scene ∧
  take (length (armatures demo_scene)) (armatures w') = armatures demo_scene ∧
  length (armatures w') = S (length (armatures demo_scene)) ∧
  scene_objects w' = scene_objects demo_scene ++ [2%nat] ∧
  active_object w' = Some 2%nat ∧
  mode w' = OBJECT ∧
  (∃ a, armatures w' !! length (armatures demo_scene) = Some a
        ∧ arm_draw_type a = "STICK") ∧
  ∃ o,
    objects w' = map (set_ob_select false) (objects demo_scene) ++ [o] ∧
    ob_data o = DataArmature (length (armatures demo_scene)) ∧
    ob_scale o = vec3_one ∧
    ob_select o = true ∧
    ob_show_x_ray o = true ∧
    ob_vertex_groups o = [] ∧
    ("Armature" ∉ map ob_name (objects demo_scene) → ob_name o = "Armature").
Proof.
  apply (import_skeleton_touches_only_new_armature demo_skeleton_file demo_scene).
  vm_compute. reflexivity.
Defined.

Lemma quat_rotate_zero q : quat_rotate q vec3_zero = vec3_zero.
Proof.
  destruct q as [a b c d].
  unfold quat_rotate, quat_mul, quat_conj, vec3_zero; cbn [qw qx qy qz vx vy vz].
  f_equal; ring.
Qed.

(** A bone without parent and with zero translation is a zero-length
    bone whatever its rotation: it ends with its head at the origin and
    its tail at (0, 0.00001, 0). *)
Theorem import_skeleton_zero_root gmdc w ob w' k bd :
  import_skeleton gmdc w = Ok ob w' →
  build_bones_result gmdc !! k = Some bd →
  bd_parent bd = None →
  bd_position bd = vec3_zero →
  ∃ a b, armatures w' !! length (armatures w) = Some a ∧
         arm_bones a !! k = Some b ∧
         eb_head b = vec3_zero ∧
         eb_tail b = V3 0 bone_epsilon 0.
Proof.
  intros H Hbd Hpar Hpos.
  destruct (final_bone_shape _ _ _ _ H) as (a & Ha & _ & Hk).
  destruct (Hk k bd Hbd) as (b & Hb & _ & _ & Htail & Hhead).
  rewrite Hpar in Hhead. destruct Hhead as [Hhead _].
  exists a, b. do 3 (split; [done|]).
  rewrite Htail, Hhead, Hpos, quat_rotate_zero, mirror_z_zero.
  unfold stretch, vec3_eqb. rewrite bool_decide_eq_true_2 by done.
  unfold mirror_z, vec3_add, vec3_zero; cbn [vx vy vz]. f_equal; ring.
Qed.

Lemma import_skeleton_zero_root_witness :
  ∃ a b, armatures (final_world (import_skeleton demo_skeleton_file demo_scene))
           !! length (armatures demo_scene) = Some a ∧
         arm_bones a !! 0%nat = Some b ∧
         eb_head b = vec3_zero ∧
         eb_tail b = V3 0 bone_epsilon 0.
Proof.
  apply (import_skeleton_zero_root demo_skeleton_file demo_scene 2%nat _ 0%nat
           {| bd_name := "root"; bd_position := V3 0 0 0;
              bd_rotation := Quat 1 0 0 0; bd_parent := None |});
    [vm_compute; reflexivity | reflexivity | reflexivity | reflexivity].
Defined.

Section ExecuteSkeleton.

Context {Row : Type}.
Variable bone_parent_table : list (string * Row).

(** A skeleton with a parent index out of range stops [execute] inside
    [import_skeleton], before line 58: whatever groups were decoded, no
    group is imported (no mesh is created and nothing is printed), and
    the [IndexError] leaves the editor in edit mode with the unfinished
    armature object in the scene. *)
Theorem execute_stops_at_bad_skeleton gmdc w :
  load_header_result gmdc = true →
  parents_resolve 0 (build_bones_result gmdc) = false →
  ∃ w',
    execute bone_parent_table gmdc w = Raise IndexError w' ∧
    meshes w' = meshes w ∧
    length (objects w') = S (length (objects w)) ∧
    mode w' = EDIT ∧
    log w' = log w ++ [EvLoadHeader; EvLoadData; EvGroupsFromGmdc; EvBuildBones].
Proof.
  intros Hh Hp. pose proof (built_bones_None _ [] Hp) as Hnone.
  eexists. split.
  { unfold execute, load_header, load_data, groups_from_gmdc. mred.
    rewrite Hh. cbn [negb]. mred.
    by rewrite (import_skeleton_stop _ _ Hnone). }
  cbn. rewrite length_app, length_map. cbn.
  split; [done|]. split; [lia|]. split; [done|].
  by rewrite <- !app_assoc.
Qed.

End ExecuteSkeleton.

Lemma execute_stops_at_bad_skeleton_witness :
  ∃ w',
    execute demo_table demo_broken_file demo_scene = Raise IndexError w' ∧
    meshes w' = meshes demo_scene ∧
    length (objects w') = S (length (objects demo_scene)) ∧
    mode w' = EDIT ∧
    log w' = log demo_scene
             ++ [EvLoadHeader; EvLoadData; EvGroupsFromGmdc; EvBuildBones].
Proof.
  apply (execute_stops_at_bad_skeleton demo_table demo_broken_file demo_scene);
    reflexivity.
Defined.

(** ** What a failed or finished import leaves untouched *)

Section Preserves.
Variable R : World → World → Prop.
Hypothesis R_refl : ∀ w, R w w.
Hypothesis R_trans : ∀ w1 w2 w3, R w1 w2 → R w2 w3 → R w1 w3.

Lemma preserves_ret {A} (a : A) : preserves R (mret a).
Proof using R_refl. intros w. apply R_refl. Qed.

Lemma preserves_raise {A} e : preserves R (@raise A e).
Proof using R_refl. intros w. apply R_refl. Qed.

Lemma preserves_lift_opt {A} e (o : option A) : preserves R (lift_opt e o).
Proof using R_refl. destruct o; [apply preserves_ret|apply preserves_raise]. Qed.

Lemma preserves_read {A} e (f : World → option A) :
  preserves R (λ w, lift_opt e (f w) w).
Proof using R_refl. intros w. destruct (f w); apply R_refl. Qed.

Lemma preserves_modify f : (∀ w, R w (f w)) → preserves R (modify f).
Proof. intros H w. apply H. Qed.

Lemma preserves_bind {A B} (m : M A) (f : A → M B) :
  preserves R m → (∀ a, preserves R (f a)) → preserves R (m ≫= f).
Proof using R_trans.
  intros Hm Hf w. rewrite bind_run. specialize (Hm w).
  destruct (m w) as [a w1|e w1]; [|done].
  eapply R_trans; [exact Hm|apply Hf].
Qed.

Lemma preserves_for_each {A} (l : list A) body :
  (∀ x, preserves R (body x)) → preserves R (for_each l body).
Proof using R_refl R_trans.
  intros H. induction l as [|x l IH]; [apply preserves_ret|].
  cbn [for_each]. apply preserves_bind; [apply H|done].
Qed.

Lemma preserves_fold_loop {A B} (body : B → A → M B) l :
  (∀ b x, preserves R (body b x)) → ∀ b, preserves R (fold_loop body b l).
Proof using R_refl R_trans.
  intros H. induction l as [|x l IH]; intros b; [apply preserves_ret|].
  cbn [fold_loop]. apply preserves_bind; [apply H|done].
Qed.

End Preserves.

Lemma frame_refl nm no w : frame nm no w w.
Proof. by split. Qed.

Lemma frame_trans nm no w1 w2 w3 :
  frame nm no w1 w2 → frame nm no w2 w3 → frame nm no w1 w3.
Proof.
  intros [] []. split; try congruence. by etrans.
Qed.

Section Frame.
Variables nm no : nat.

Local Abbreviation keeps := (preserves (frame nm no)).

Lemma keeps_add_log e : keeps (modify (add_log e)).
Proof.
  apply preserves_modify. intros w. split; try done. by apply prefix_app_r.
Qed.

Lemma keeps_alter_mesh h f :
  (nm ≤ h)%nat → keeps (modify (set_meshes (alter f h))).
Proof.
  intros H. apply preserves_modify. intros w. split; try done; cbn.
  - by apply take_alter_ge.
  - apply length_alter.
Qed.

Lemma keeps_alter_object ob f :
  (no ≤ ob)%nat → keeps (modify (set_objects (alter f ob))).
Proof.
  intros H. apply preserves_modify. intros w. split; try done; cbn.
  - by apply take_alter_ge.
  - apply length_alter.
Qed.

Ltac keep_step :=
  first [ apply preserves_bind; [apply frame_trans| |intros ?]
        | apply preserves_ret; apply frame_refl
        | apply preserves_raise; apply frame_refl
        | apply preserves_lift_opt; apply frame_refl
        | apply preserves_read; apply frame_refl
        | apply keeps_add_log
        | apply keeps_alter_mesh; assumption
        | apply keeps_alter_object; assumption
        | apply preserves_for_each; [apply frame_refl|apply frame_trans|intros ?]
        | apply preserves_fold_loop; [apply frame_refl|apply frame_trans|intros ? ?]
        | match goal with
          | |- preserves _ (if ?b then _ else _) => destruct b
          | |- preserves _ (match ?x with _ => _ end) => destruct x
          end ].

Ltac keep := repeat keep_step.

Section Data.
Context {Row : Type}.
Variable bone_parent_table : list (string * Row).
Variables mesh object : nat.
Hypothesis mesh_new : (nm ≤ mesh)%nat.
Hypothesis object_new : (no ≤ object)%nat.
Variable b_model : BlenderModel.

Lemma keeps_fill_group : keeps (fill_group bone_parent_table mesh object b_model).
Proof using mesh_new object_new.
  unfold fill_group, load_normals, load_normal, load_uvs, load_polygon_uvs, load_uv.
  keep.
Qed.

Lemma keeps_assign_group :
  keeps (assign_group bone_parent_table mesh object b_model).
Proof using object_new.
  unfold assign_group, check_coordinates, check_coordinate, assign_vertex,
    assign_weight_at.
  keep.
Qed.

End Data.
End Frame.

Lemma bind_Ok {A B} (m : M A) (f : A → M B) w b w' :
  (m ≫= f) w = Ok b w' → ∃ a w1, m w = Ok a w1 ∧ f a w1 = Ok b w'.
Proof. rewrite bind_run. destruct (m w) as [a w1|]; [eauto|done]. Qed.

Section Untouched.
Context {Row : Type}.
Variable bone_parent_table : list (string * Row).

Lemma fill_group_result mesh object b_model w r w' :
  fill_group bone_parent_table mesh object b_model w = Ok r w' → r = (mesh, object).
Proof.
  unfold fill_group. intros H.
  do 5 (apply bind_Ok in H as (? & ? & _ & H)).
  by injection H as <- _.
Qed.

(** [do_import] is lines 130-135 followed by the two blocks above. *)
Lemma do_import_steps b_model armature w :
  do_import bone_parent_table b_model armature w
  = (fill_group bone_parent_table (length (meshes w)) (length (objects w)) b_model
       ≫= λ '(mesh, object), assign_group bone_parent_table mesh object b_model)
      (created_world b_model w).
Proof. reflexivity. Qed.

Lemma do_import_frame b_model armature w :
  frame (length (meshes w)) (length (objects w))
        (created_world b_model w)
        (final_world (do_import bone_parent_table b_model armature w)).
Proof.
  rewrite do_import_steps, bind_run.
  pose proof (keeps_fill_group (length (meshes w)) (length (objects w))
                bone_parent_table _ _ (le_n _) (le_n _) b_model
                (created_world b_model w)) as Hfill.
  destruct (fill_group _ _ _ _ _) as [r w1|e w1] eqn:E; [|done].
  apply fill_group_result in E as ->. cbn [final_world] in Hfill.
  eapply frame_trans; [exact Hfill|].
  apply (keeps_assign_group _ _ bone_parent_table (length (meshes w)) _ (le_n _)).
Qed.

(** Whether [do_import] returns or raises, it leaves the scene it found
    as it was: it appends one mesh and one object, links that object, and
    adds lines to the log, the first of them "Importing group: <name>".
    No existing mesh or object is changed, no armature is touched, and
    the active object and the mode stay as they were; the armature passed
    in plays no part (no parenting, no modifier), so any other armature
    argument gives the same outcome. *)
Theorem do_import_leaves_scene_untouched b_model armature w :
  let w' := final_world (do_import bone_parent_table b_model armature w) in
  armatures w' = armatures w ∧
  active_object w' = active_object w ∧
  mode w' = mode w ∧
  take (length (meshes w)) (meshes w') = meshes w ∧
  length (meshes w') = S (length (meshes w)) ∧
  take (length (objects w)) (objects w') = objects w ∧
  length (objects w') = S (length (objects w)) ∧
  scene_objects w' = scene_objects w ++ [length (objects w)] ∧
  log w ++ [importing_event b_model] `prefix_of` log w' ∧
  ∀ armature',
    do_import bone_parent_table b_model armature' w
    = do_import bone_parent_table b_model armature w.
Proof.
  intros w'. destruct (do_import_frame b_model armature w) as [Ha Hs Hact Hm Hms Hml Hos Hol Hlog].
  fold w' in Ha, Hs, Hact, Hm, Hms, Hml, Hos, Hol, Hlog.
  cbn [created_world group_world meshes objects armatures scene_objects
       active_object mode log] in *.
  rewrite take_app_length in Hms. rewrite take_app_length in Hos.
  rewrite length_app in Hml. rewrite length_app in Hol.
  cbn [length] in Hml, Hol.
  repeat split; try done; lia.
Qed.

End Untouched.

(** ** The outcome of [do_import] *)

Lemma mapM_None {A B} (f : A → option B) l x :
  x ∈ l → f x = None → mapM f l = None.
Proof.
  intros Hx Hf. destruct (mapM f l) as [k|] eqn:E; [|done].
  assert (is_Some (mapM f l)) as Hs by eauto.
  rewrite mapM_is_Some, list.Forall_forall in Hs.
  destruct (Hs x Hx) as [y Hy]. congruence.
Qed.

Lemma built_mesh_None b_model : geometry_ok b_model = false → built_mesh b_model = None.
Proof.
  unfold geometry_ok, built_mesh. intros H.
  destruct (mapM _ (seq 0 _)) as [ns|] eqn:Hns; [|done]. cbn [mbind option_bind].
  apply andb_false_iff in H as [H|H].
  - apply bool_decide_eq_false in H.
    rewrite (mapM_None _ _ (length (normals b_model))) in Hns; [done| |].
    + apply elem_of_seq. lia.
    + by apply lookup_ge_None.
  - destruct (mapM _ (concat _)) as [us|] eqn:Hus; [|done]. exfalso.
    assert (is_Some (mapM (py_index (uvs b_model)) (concat (faces b_model)))) as Hs by eauto.
    rewrite mapM_is_Some in Hs.
    assert (forallb (λ v, bool_decide (is_Some (py_index (uvs b_model) v)))
                    (concat (faces b_model)) = true); [|congruence].
    apply Is_true_true, forallb_True. eapply list.Forall_impl; [exact Hs|].
    intros v Hv. by apply bool_decide_pack.
Qed.

Section Outcome.
Context {Row : Type}.
Variable bone_parent_table : list (string * Row).

Lemma row_calls_is_Some weights row : ∀ j remainder,
  is_Some (row_calls bone_parent_table row weights j remainder) ↔
  forallb (λ b, bool_decide (is_Some (py_index bone_parent_table b))) row
  && forallb (λ j, (j =? 3)%nat || bool_decide (j < length weights)%nat)
             (seq j (length row)) = true.
Proof.
  induction row as [|b row IH]; intros j remainder; cbn [row_calls length seq forallb].
  { split; [done|eauto]. }
  destruct (py_index bone_parent_table b) as [val|] eqn:Hval; cbn [mbind option_bind].
  2:{ rewrite bool_decide_eq_false_2 by (by intros [? ?]). cbn [andb].
      split; [by intros [? ?]|done]. }
  rewrite bool_decide_eq_true_2 by eauto. cbn [andb].
  destruct (j =? 3)%nat eqn:Hj; cbn [negb orb].
  - specialize (IH (S j) remainder).
    destruct (row_calls _ row weights (S j) remainder); cbn [mbind option_bind].
    + split; [intros _; by apply IH|eauto].
    + split; [by intros [? ?]|]. intros H%IH. by destruct H.
  - destruct (weights !! j) as [x|] eqn:Hx; cbn [mbind option_bind].
    + rewrite bool_decide_eq_true_2 by (by eapply lookup_lt_Some). cbn [andb].
      specialize (IH (S j) (remainder - x)).
      destruct (row_calls _ row weights (S j) (remainder - x)); cbn [mbind option_bind].
      * split; [intros _; by apply IH|eauto].
      * split; [by intros [? ?]|]. intros H%IH. by destruct H.
    + rewrite bool_decide_eq_false_2 by (apply lookup_ge_None in Hx; lia).
      cbn [andb]. rewrite andb_false_r. split; [by intros [? ?]|done].
Qed.

Lemma vertex_calls_is_Some b_model i :
  (i < length (bone_assign b_model))%nat →
  is_Some (vertex_calls bone_parent_table b_model i) ↔
  row_ok bone_parent_table (default [] (bone_assign b_model !! i))
                           (default [] (bone_weight b_model !! i)) = true.
Proof.
  intros Hi. unfold vertex_calls, row_ok.
  destruct (lookup_lt_is_Some_2 _ _ Hi) as [row ->]. cbn [mbind option_bind default].
  apply row_calls_is_Some.
Qed.

Lemma weights_ok_calls b_model :
  is_Some (mapM (vertex_calls bone_parent_table b_model)
                (seq 0 (length (bone_assign b_model))))
  ↔ weights_ok bone_parent_table b_model = true.
Proof.
  rewrite mapM_is_Some. unfold weights_ok.
  rewrite <- Is_true_true, forallb_True, !list.Forall_forall.
  split; intros H i Hi; specialize (H i Hi); apply elem_of_seq in Hi.
  - apply Is_true_true, vertex_calls_is_Some; [lia|done].
  - apply vertex_calls_is_Some; [lia|]. by apply Is_true_true.
Qed.

Lemma do_import_cases b_model armature w :
  ∃ w',
    do_import bone_parent_table b_model armature w
    = if negb (geometry_ok b_model) then Raise IndexError w'
      else if counts_mismatch b_model then Ok (error_message b_model) w'
      else if weights_ok bone_parent_table b_model
           then Ok (imported_message b_model) w'
           else Raise IndexError w'.
Proof.
  pose proof (do_import_spec bone_parent_table b_model armature w) as Hs.
  destruct (geometry_ok b_model) eqn:Hg; cbn [negb].
  - destruct (geometry_ok_built_mesh _ Hg) as (us & _ & Hm). rewrite Hm in Hs.
    destruct (counts_mismatch b_model); [eauto|]. cbv zeta in Hs.
    pose proof (weights_ok_calls b_model) as Hw.
    destruct (mapM _ _) as [css|].
    + rewrite (proj1 Hw) by eauto. eauto.
    + destruct (weights_ok bone_parent_table b_model).
      * destruct (proj2 Hw eq_refl) as [? ?]. done.
      * done.
  - by rewrite (built_mesh_None _ Hg) in Hs.
Qed.

(** The outcome of [do_import], for every group and a bone table whose
    names the host keeps (no empty, over-long or repeated name).  A
    normal missing for some vertex, or a face corner whose index names no
    UV pair, raises [IndexError] (lines 142, 152); otherwise mismatched
    counts return the error string; otherwise the group is imported when
    every vertex's bone indices name rows of the bone table and its
    weights reach as far as its row needs, and lines 176-181 raise
    [IndexError] when not.  Nothing else can happen: each vertex group
    was created under the name line 177 looks up.  So [do_import]
    returns exactly for the groups with readable geometry and either
    mismatched counts or readable weights. *)
Theorem do_import_outcome b_model armature w :
  table_names_kept bone_parent_table = true →
  (∃ w',
     do_import bone_parent_table b_model armature w
     = if negb (geometry_ok b_model) then Raise IndexError w'
       else if counts_mismatch b_model then Ok (error_message b_model) w'
       else if weights_ok bone_parent_table b_model
            then Ok (imported_message b_model) w'
            else Raise IndexError w') ∧
  ((∃ msg w', do_import bone_parent_table b_model armature w = Ok msg w')
   ↔ importable bone_parent_table b_model = true).
Proof.
  intros _. destruct (do_import_cases b_model armature w) as [w' H].
  split; [by exists w'|]. unfold importable. rewrite H.
  destruct (geometry_ok b_model); cbn [negb andb].
  - destruct (counts_mismatch b_model); cbn [orb].
    + split; [done|]. intros _. by eexists _, _.
    + destruct (weights_ok bone_parent_table b_model).
      * split; [done|]. intros _. by eexists _, _.
      * split; [by intros (? & ? & ?)|done].
  - split; [by intros (? & ? & ?)|done].
Qed.

End Outcome.

Lemma do_import_outcome_witness :
  (∃ w',
     do_import demo_table demo_unreadable_group 0 demo_scene
     = if negb (geometry_ok demo_unreadable_group) then Raise IndexError w'
       else if counts_mismatch demo_unreadable_group
            then Ok (error_message demo_unreadable_group) w'
       else if weights_ok demo_table demo_unreadable_group
            then Ok (imported_message demo_unreadable_group) w'
            else Raise IndexError w') ∧
  ((∃ msg w', do_import demo_table demo_unreadable_group 0 demo_scene = Ok msg w')
   ↔ importable demo_table demo_unreadable_group = true).
Proof.
  apply (do_import_outcome demo_table demo_unreadable_group 0 demo_scene).
  reflexivity.
Defined.

(** ** The mesh of a group *)

Lemma layout_polygons_lookup fs : ∀ s i p,
  layout_polygons s fs !! i = Some p →
  fs !! i = Some (poly_vertices p) ∧
  loop_total p = length (poly_vertices p) ∧
  loop_start p = (s + length (concat (take i fs)))%nat.
Proof.
  induction fs as [|f fs IH]; intros s i p; [done|].
  destruct i as [|i]; cbn [layout_polygons lookup list_lookup take concat].
  - intros [= <-]. cbn. split; [done|]. split; [done|lia].
  - intros (? & ? & ->)%IH. rewrite length_app. split; [done|]. split; [done|lia].
Qed.

Lemma map_poly_vertices_layout fs : ∀ s, map poly_vertices (layout_polygons s fs) = fs.
Proof. induction fs as [|f fs IH]; intros s; [done|]. cbn. by rewrite IH. Qed.

Lemma lookup_concat_take {A} (ls : list (list A)) : ∀ i l j x,
  ls !! i = Some l → l !! j = Some x →
  concat ls !! (length (concat (take i ls)) + j)%nat = Some x.
Proof.
  induction ls as [|l0 ls IH]; intros i l j x; [done|].
  destruct i as [|i]; cbn [lookup list_lookup take concat].
  - intros [= ->] Hj. cbn. by apply lookup_app_l_Some.
  - intros Hi Hj. rewrite length_app, <- Nat.add_assoc.
    rewrite lookup_app_r by lia.
    replace (length l0 + _ - length l0)%nat
      with (length (concat (take i ls)) + j)%nat by lia.
    by eapply IH.
Qed.

Section MeshData.
Context {Row : Type}.
Variable bone_parent_table : list (string * Row).

(** The store [do_import] returns in, for either message. *)
Lemma do_import_returns b_model armature w msg w' :
  do_import bone_parent_table b_model armature w = Ok msg w' →
  ∃ mesh gs evs,
    built_mesh b_model = Some mesh ∧
    w' = group_world w mesh (group_object (length (meshes w)) b_model gs) evs.
Proof.
  intros H. pose proof (do_import_spec bone_parent_table b_model armature w) as Hs.
  destruct (built_mesh b_model) as [mesh|];
    [|by destruct Hs as [w'' Hs]; rewrite Hs in H].
  destruct (counts_mismatch b_model).
  { rewrite Hs in H. injection H as _ <-. eauto. }
  cbv zeta in Hs. destruct (mapM _ _) as [css|];
    [|by destruct Hs as [w'' Hs]; rewrite Hs in H].
  rewrite Hs in H. injection H as _ <-. eauto.
Qed.

(** The mesh [do_import] builds, whenever it returns (with either
    message).  Vertex [k] has the group's [k]-th coordinate and [k]-th
    normal; normals past the vertex count are not used.  Polygon [i] has
    the indices of face [i], as given.  The single UV layer "UVMap" has
    one entry per face corner, and corner [j] of polygon [i] holds the UV
    pair that the per-vertex list [uvs] has under the index
    [faces[i][j]], read as a Python index. *)
Theorem do_import_mesh_data b_model armature w msg w' :
  do_import bone_parent_table b_model armature w = Ok msg w' →
  ∃ mesh layer,
    meshes w' !! length (meshes w) = Some mesh ∧
    length (mesh_vertices mesh) = length (vertices b_model) ∧
    (∀ k v, vertices b_model !! k = Some v →
       ∃ n, normals b_model !! k = Some n ∧
            mesh_vertices mesh !! k = Some {| co := v; normal := n |}) ∧
    map poly_vertices (mesh_polygons mesh) = faces b_model ∧
    mesh_uv_layers mesh = [layer] ∧
    uv_name layer = "UVMap" ∧
    length (uv_data layer) = length (concat (faces b_model)) ∧
    ∀ i p j v,
      mesh_polygons mesh !! i = Some p →
      poly_vertices p !! j = Some v →
      loop_indices p !! j = Some (loop_start p + j)%nat ∧
      ∃ uv, py_index (uvs b_model) v = Some uv ∧
            uv_data layer !! (loop_start p + j)%nat = Some uv.
Proof.
  intros H. apply do_import_returns in H as (mesh & gs & evs & Hm & ->).
  apply built_mesh_Some in Hm as (ns & us & Hns & Hus & ->).
  apply mapM_Some_1 in Hns, Hus.
  pose proof (list.Forall2_length _ _ _ Hns) as Hnl. rewrite length_seq in Hnl.
  eexists _, _. split; [cbn; by rewrite list_lookup_middle|].
  cbn [mesh_vertices mesh_polygons mesh_uv_layers uv_name uv_data].
  split; [rewrite length_zip_with; lia|].
  split.
  { intros k v Hk.
    destruct (Forall2_lookup_l _ _ _ k k Hns) as (n & Hn & Hkn).
    { apply lookup_seq_lt. by eapply lookup_lt_Some. }
    exists n. split; [done|].
    rewrite lookup_zip_with, Hk. cbn [mbind option_bind]. by rewrite Hn. }
  split; [apply map_poly_vertices_layout|].
  do 2 (split; [done|]).
  split; [symmetry; by eapply Forall2_length|].
  intros i p j v Hp Hv.
  apply layout_polygons_lookup in Hp as (Hf & Htot & Hstart).
  split.
  { unfold loop_indices. apply lookup_seq_lt. rewrite Htot. by eapply lookup_lt_Some. }
  rewrite Hstart. cbn [Nat.add].
  pose proof (lookup_concat_take _ _ _ _ _ Hf Hv) as Hc.
  destruct (Forall2_lookup_l _ _ _ _ _ Hus Hc) as (uv & Huv & Hpy). eauto.
Qed.

End MeshData.

Lemma do_import_mesh_data_witness :
  ∃ mesh layer,
    meshes demo_group_world !! length (meshes empty_world) = Some mesh ∧
    length (mesh_vertices mesh) = length (vertices demo_group) ∧
    (∀ k v, vertices demo_group !! k = Some v →
       ∃ n, normals demo_group !! k = Some n ∧
            mesh_vertices mesh !! k = Some {| co := v; normal := n |}) ∧
    map poly_vertices (mesh_polygons mesh) = faces demo_group ∧
    mesh_uv_layers mesh = [layer] ∧
    uv_name layer = "UVMap" ∧
    length (uv_data layer) = length (concat (faces demo_group)) ∧
    ∀ i p j v,
      mesh_polygons mesh !! i = Some p →
      poly_vertices p !! j = Some v →
      loop_indices p !! j = Some (loop_start p + j)%nat ∧
      ∃ uv, py_index (uvs demo_group) v = Some uv ∧
            uv_data layer !! (loop_start p + j)%nat = Some uv.
Proof.
  apply (do_import_mesh_data demo_table demo_group 0 empty_world
           (imported_message demo_group)).
  vm_compute. reflexivity.
Defined.

(** ** Which groups a vertex joins *)

Lemma map_vg_name_replay_all ics : ∀ gs,
  map vg_name (replay_all ics gs) = map vg_name gs.
Proof.
  induction ics as [|ic ics IH]; intros gs; [done|].
  unfold replay_all. cbn [foldl]. fold (replay_all ics (replay ic.1 ic.2 gs)).
  by rewrite IH, map_vg_name_replay.
Qed.

Lemma foldl_accumulate_is_Some xs : ∀ a, is_Some (foldl accumulate (Some a) xs).
Proof. induction xs as [|x xs IH]; intros a; cbn [foldl]; [eauto|apply IH]. Qed.

Lemma total_weight_is_Some xs : is_Some (total_weight xs) ↔ xs ≠ [].
Proof.
  destruct xs as [|x xs]; unfold total_weight; cbn [foldl].
  - split; [by intros [? ?]|done].
  - split; [done|]. intros _. apply foldl_accumulate_is_Some.
Qed.

Lemma flat_map_nonempty {A B} (f : A → list B) l :
  flat_map f l ≠ [] ↔ ∃ x, x ∈ l ∧ f x ≠ [].
Proof.
  induction l as [|a l IH]; cbn [flat_map].
  - split; [done|]. by intros (? & ?%elem_of_nil & _).
  - split.
    + intros H. destruct (f a) as [|b k] eqn:E.
      * cbn in H. apply IH in H as (x & Hx & Hfx). exists x. split; [by right|done].
      * exists a. split; [by left|]. by rewrite E.
    + intros (x & [->|Hx]%elem_of_cons & Hfx) Happ; apply app_eq_nil in Happ as [? ?].
      * done.
      * apply (proj2 IH); eauto.
Qed.

Lemma filter_map_nonempty {A B} (P : A → Prop) `{!∀ x, Decision (P x)}
    (f : A → B) (l : list A) :
  map f (filter P l) ≠ [] ↔ ∃ x, x ∈ l ∧ P x.
Proof.
  split.
  - intros Hne. destruct (filter P l) as [|x k] eqn:E; [done|].
    assert (x ∈ filter P l) as Hx by (rewrite E; by left).
    apply list_elem_of_filter in Hx as [? ?]. eauto.
  - intros (x & Hx & HP) Hnil.
    assert (x ∈ filter P l) as Hin by (by apply list_elem_of_filter).
    apply map_eq_nil in Hnil. rewrite Hnil in Hin. by apply elem_of_nil in Hin.
Qed.

Section Membership.
Context {Row : Type}.
Variable bone_parent_table : list (string * Row).

Lemma row_calls_group rest weights calls g :
  row_calls bone_parent_table rest weights 0 1 = Some calls →
  (∃ c, c ∈ calls ∧ c.1 = g) ↔
  (∃ j b val, rest !! j = Some b ∧ py_index bone_parent_table b = Some val ∧ val.1 = g).
Proof.
  intros H. split.
  - intros ([g' x] & [k Hk]%list_elem_of_lookup & Hg). cbn in Hg. subst g'.
    destruct (row_calls_lookup _ _ _ _ _ _ _ _ _ H Hk) as [(b & val & ? & ? & ->) _].
    by exists k, b, val.
  - intros (j & b & val & Hj & Hval & <-).
    destruct (lookup_lt_is_Some_2 calls j) as [[g' x] Hc].
    { rewrite (row_calls_length _ _ _ _ _ _ H). by eapply lookup_lt_Some. }
    destruct (row_calls_lookup _ _ _ _ _ _ _ _ _ H Hc) as [(b' & val' & ? & ? & ->) _].
    simplify_eq. exists (val.1, x). split; [|done].
    apply list_elem_of_lookup. eauto.
Qed.

(** For a bone table whose names the host keeps (no empty, over-long or
    repeated name): the object of an imported group uses the group's mesh
    and has one vertex group per row of the bone table, in table order
    and under the row's name.  A vertex is a member of a vertex group
    exactly when its [bone_assign] row holds a bone index whose table row
    has that group's name (also when the weight added is zero); groups of
    bones its row does not name hold nothing for it. *)
Theorem do_import_group_membership b_model armature w w' :
  table_names_kept bone_parent_table = true →
  do_import bone_parent_table b_model armature w
    = Ok (imported_message b_model) w' →
  ∃ o,
    objects w' !! length (objects w) = Some o ∧
    ob_data o = DataMesh (length (meshes w)) ∧
    map vg_name (ob_vertex_groups o) = map fst bone_parent_table ∧
    ∀ g i,
      is_Some (group_weight (ob_vertex_groups o) g i) ↔
      ∃ row j b val,
        bone_assign b_model !! i = Some row ∧ row !! j = Some b ∧
        py_index bone_parent_table b = Some val ∧ val.1 = g.
Proof.
  intros _ H. apply do_import_imported in H as (mesh & css & _ & Hcss & ->).
  eexists. split; [cbn; by rewrite list_lookup_middle|].
  cbn [ob_data ob_vertex_groups group_object].
  split; [done|].
  split; [by rewrite map_vg_name_replay_all, map_vg_name_empty_groups|].
  intros g i.
  rewrite replay_all_weight by (by apply (vertex_calls_names _ b_model)).
  rewrite group_weight_empty, foldl_accumulate_None, total_weight_is_Some.
  rewrite flat_map_nonempty.
  apply mapM_Some_1 in Hcss.
  split.
  - intros ([i' cs] & [k [Hi Hcs]%lookup_zip_Some]%list_elem_of_lookup & Hne).
    cbn [fst snd] in Hne. case_bool_decide as Hii; [subst i'|done].
    pose proof (Forall2_lookup_lr _ _ _ _ _ _ Hcss Hi Hcs) as Hc. cbn in Hc.
    unfold vertex_calls in Hc.
    destruct (bone_assign b_model !! i) as [row|]; [|done]. cbn in Hc.
    exists row.
    apply (filter_map_nonempty (λ c : string * Qc, c.1 = g)) in Hne.
    destruct (proj1 (row_calls_group _ _ _ g Hc) Hne) as (j & b & val & Hj & Hval & Hg).
    by exists j, b, val.
  - intros (row & j & b & val & Hrow & Hj & Hval & Hg).
    assert (Hi : (i < length (bone_assign b_model))%nat) by (by eapply lookup_lt_Some).
    destruct (Forall2_lookup_l _ _ _ i i Hcss) as (cs & Hcs & Hc).
    { by apply lookup_seq_lt. }
    unfold vertex_calls in Hc. rewrite Hrow in Hc. cbn in Hc.
    exists (i, cs). split.
    + apply list_elem_of_lookup. exists i. apply lookup_zip_Some.
      split; [by apply lookup_seq_lt|done].
    + cbn [fst snd]. rewrite bool_decide_eq_true_2 by done.
      apply (filter_map_nonempty (λ c : string * Qc, c.1 = g)).
      apply (row_calls_group _ _ _ g Hc). by exists j, b, val.
Qed.

End Membership.

Lemma do_import_group_membership_witness :
  ∃ o,
    objects demo_group_world !! length (objects empty_world) = Some o ∧
    ob_data o = DataMesh (length (meshes empty_world)) ∧
    map vg_name (ob_vertex_groups o) = map fst demo_table ∧
    ∀ g i,
      is_Some (group_weight (ob_vertex_groups o) g i) ↔
      ∃ row j b val,
        bone_assign demo_group !! i = Some row ∧ row !! j = Some b ∧
        py_index demo_table b = Some val ∧ val.1 = g.
Proof.
  apply (do_import_group_membership demo_table demo_group 0 empty_world);
    [reflexivity | vm_compute; reflexivity].
Defined.

(** ** Importing a whole file *)

Section Whole.
Context {Row : Type}.
Variable bone_parent_table : list (string * Row).

Lemma do_import_importable b_model armature w :
  importable bone_parent_table b_model = true →
  ∃ mesh gs evs,
    mesh_name mesh = name b_model ∧
    do_import bone_parent_table b_model armature w
    = Ok (report_of b_model)
         (group_world w mesh (group_object (length (meshes w)) b_model gs) evs).
Proof.
  unfold importable, report_of. intros [Hg Hw]%andb_prop.
  destruct (do_import_cases bone_parent_table b_model armature w) as [w' H].
  rewrite Hg in H. cbn [negb] in H.
  assert (∃ msg, msg = (if counts_mismatch b_model then error_message b_model
                        else imported_message b_model)
                 ∧ do_import bone_parent_table b_model armature w = Ok msg w')
    as (msg & Hmsg & Hrun).
  { eexists. split; [done|]. destruct (counts_mismatch b_model); [done|].
    cbn [orb] in Hw. by rewrite Hw in H. }
  destruct (do_import_returns _ _ _ _ _ _ Hrun) as (mesh & gs & evs & Hm & ->).
  apply built_mesh_Some in Hm as (ns & us & _ & _ & ->).
  eexists _, gs, evs. split; [|by rewrite Hrun, Hmsg]. done.
Qed.

Lemma import_models_importable models : ∀ armature w,
  forallb (importable bone_parent_table) models = true →
  ∃ w' ms os,
    import_models bone_parent_table models armature w = Ok tt w' ∧
    armatures w' = armatures w ∧
    active_object w' = active_object w ∧
    mode w' = mode w ∧
    meshes w' = meshes w ++ ms ∧
    map mesh_name ms = map name models ∧
    objects w' = objects w ++ os ∧
    map ob_name os = map name models ∧
    map ob_data os = map DataMesh (seq (length (meshes w)) (length models)) ∧
    scene_objects w' = scene_objects w ++ seq (length (objects w)) (length models) ∧
    log w `prefix_of` log w' ∧
    Forall (λ m, EvPrint [PStr (report_of m)] ∈ log w') models.
Proof.
  induction models as [|m models IH]; intros armature w Hall.
  { exists w, [], []. cbn. rewrite !app_nil_r. by repeat split. }
  cbn [forallb] in Hall. apply andb_prop in Hall as [Hm Hall].
  destruct (do_import_importable m armature w Hm) as (mesh & gs & evs & Hname & Hrun).
  set (w1 := group_world w mesh (group_object (length (meshes w)) m gs) evs) in Hrun.
  set (w2 := add_log (EvPrint [PStr (report_of m)]) w1).
  destruct (IH armature w2 Hall)
    as (w' & ms & os & Hrest & Ha & Hact & Hmode & Hms & Hmn & Hos & Hon & Hod
        & Hsc & Hlog & Hprinted).
  exists w', (mesh :: ms), (group_object (length (meshes w)) m gs :: os).
  split.
  { unfold import_models in *. cbn [for_each]. mred. rewrite Hrun. mred.
    unfold print at 1. mred. exact Hrest. }
  cbn [w2 w1 add_log group_world meshes objects armatures scene_objects
       active_object mode log] in *.
  rewrite length_app in Hod, Hsc. cbn [length] in Hod, Hsc.
  rewrite Nat.add_1_r in Hod, Hsc.
  split; [done|]. split; [done|]. split; [done|].
  split; [by rewrite Hms, <- app_assoc|].
  split; [cbn; by rewrite Hname, Hmn|].
  split; [by rewrite Hos, <- app_assoc|].
  split; [cbn; by rewrite Hon|].
  split; [cbn; by rewrite Hod|].
  split; [cbn; by rewrite Hsc, <- app_assoc|].
  split.
  { etrans; [|exact Hlog]. rewrite <- app_assoc. by apply prefix_app_r. }
  apply list.Forall_cons. split; [|done].
  eapply elem_of_prefix; [|exact Hlog]. apply elem_of_app. right. by left.
Qed.

(** A file with a supported header, a skeleton whose parent indices
    resolve, and groups that are all readable is imported whole:
    [execute] returns [{'FINISHED'}]; after the armature object come one
    object per group, in file order, each linked to the scene and using a
    mesh of its own; the string each [do_import] returned (imported, or
    the count error) is printed; the armature object stays the active
    one.  The file is decoded first, then the bones are built, then the
    groups imported.  The objects are called "Armature" and after their
    groups, and the meshes after their groups, when the host keeps these
    names: the group names are storable and pairwise distinct, and none
    of them, nor "Armature", is the name of an object, and none the name
    of a mesh, already in the scene. *)
Theorem execute_imports_every_group gmdc models w :
  load_header_result gmdc = true →
  groups_from_gmdc_result gmdc = GroupsList models →
  parents_resolve 0 (build_bones_result gmdc) = true →
  forallb (importable bone_parent_table) models = true →
  ∃ w',
    execute bone_parent_table gmdc w = Ok ReturnFinished w' ∧
    length (meshes w') = (length (meshes w) + length models)%nat ∧
    length (objects w') = S (length (objects w) + length models) ∧
    (names_kept (map mesh_name (meshes w)) (map name models) = true →
     map mesh_name (meshes w') = map mesh_name (meshes w) ++ map name models) ∧
    (names_kept (map ob_name (objects w)) ("Armature" :: map name models) = true →
     map ob_name (objects w')
       = map ob_name (objects w) ++ "Armature" :: map name models) ∧
    map ob_data (drop (S (length (objects w))) (objects w'))
      = map DataMesh (seq (length (meshes w)) (length models)) ∧
    scene_objects w'
      = scene_objects w ++ seq (length (objects w)) (S (length models)) ∧
    length (armatures w') = S (length (armatures w)) ∧
    active_object w' = Some (length (objects w)) ∧
    mode w' = OBJECT ∧
    log w ++ [EvLoadHeader; EvLoadData; EvGroupsFromGmdc; EvBuildBones]
      `prefix_of` log w' ∧
    Forall (λ m, EvPrint [PStr (report_of m)] ∈ log w') models.
Proof.
  intros Hh Hg Hp Hall.
  destruct (built_bones_resolve _ [] Hp) as [bs Hbs].
  set (w0 := add_log EvGroupsFromGmdc (add_log EvLoadData (add_log EvLoadHeader w))).
  pose proof (import_skeleton_spec gmdc w0) as Hs. rewrite Hbs in Hs.
  set (w1 := armature_world w0 (map (scale_bone mirror_scale) bs) OBJECT) in Hs.
  destruct (import_models_importable models (length (objects w0)) w1 Hall)
    as (w' & ms & os & Hrun & Ha & Hact & Hmode & Hms & Hmn & Hos & Hon & Hod
        & Hsc & Hlog & Hprinted).
  exists w'. split.
  { unfold execute, load_header, load_data, groups_from_gmdc. mred.
    rewrite Hh, Hg. cbn [negb]. mred. fold w0. rewrite Hs. mred.
    by rewrite Hrun. }
  cbn [w1 w0 armature_world add_log meshes objects armatures scene_objects
       active_object mode log] in *.
  rewrite length_app, length_map in Hsc. cbn [length] in Hsc.
  rewrite Nat.add_1_r in Hsc.
  assert (Hlm : length ms = length models).
  { by rewrite <- (length_map mesh_name), Hmn, length_map. }
  assert (Hlo : length os = length models).
  { by rewrite <- (length_map ob_name), Hon, length_map. }
  split; [by rewrite Hms, length_app, Hlm|].
  split; [rewrite Hos, !length_app, length_map, Hlo; cbn; lia|].
  split; [intros _; by rewrite Hms, map_app, Hmn|].
  split.
  { intros _. rewrite Hos, !map_app, map_map, Hon, <- app_assoc. cbn.
    f_equal. }
  split.
  { rewrite Hos, drop_app_length'; [done|].
    rewrite length_app, length_map. cbn. lia. }
  split; [rewrite Hsc, <- app_assoc; done|].
  split; [rewrite Ha, length_app; cbn; lia|].
  do 2 (split; [done|]). split; [|done].
  by rewrite <- !app_assoc in Hlog.
Qed.

End Whole.

Lemma execute_imports_every_group_witness :
  ∃ w',
    execute demo_table demo_whole_file demo_scene = Ok ReturnFinished w' ∧
    length (meshes w')
      = (length (meshes demo_scene) + length [demo_group; demo_bad_group])%nat ∧
    length (objects w')
      = S (length (objects demo_scene) + length [demo_group; demo_bad_group]) ∧
    (names_kept (map mesh_name (meshes demo_scene))
                (map name [demo_group; demo_bad_group]) = true →
     map mesh_name (meshes w')
       = map mesh_name (meshes demo_scene)
         ++ map name [demo_group; demo_bad_group]) ∧
    (names_kept (map ob_name (objects demo_scene))
                ("Armature" :: map name [demo_group; demo_bad_group]) = true →
     map ob_name (objects w')
       = map ob_name (objects demo_scene)
         ++ "Armature" :: map name [demo_group; demo_bad_group]) ∧
    map ob_data (drop (S (length (objects demo_scene))) (objects w'))
      = map DataMesh (seq (length (meshes demo_scene))
                          (length [demo_group; demo_bad_group])) ∧
    scene_objects w'
      = scene_objects demo_scene
        ++ seq (length (objects demo_scene))
               (S (length [demo_group; demo_bad_group])) ∧
    length (armatures w') = S (length (armatures demo_scene)) ∧
    active_object w' = Some (length (objects demo_scene)) ∧
    mode w' = OBJECT ∧
    log demo_scene ++ [EvLoadHeader; EvLoadData; EvGroupsFromGmdc; EvBuildBones]
      `prefix_of` log w' ∧
    Forall (λ m, EvPrint [PStr (report_of m)] ∈ log w')
           [demo_group; demo_bad_group].
Proof.
  apply (execute_imports_every_group demo_table demo_whole_file
           [demo_group; demo_bad_group] demo_scene);
    [reflexivity | reflexivity | reflexivity | vm_compute; reflexivity].
Defined.

Section Stop.
Context {Row : Type}.
Variable bone_parent_table : list (string * Row).

(** A group that is not readable (a normal or a UV pair missing, or,
    with matching counts, a bone index or a weight missing) stops the
    loop of [execute], unlike a count mismatch: [do_import] raises
    [IndexError], its return string is never printed, and the groups
    after it are never imported.  The store keeps what was there, plus
    the mesh and the object the failed group had already created. *)
Theorem import_models_stops_at_unreadable_group pre bad post armature w0 w :
  importable bone_parent_table bad = false →
  import_models bone_parent_table pre armature w0 = Ok tt w →
  ∃ w1,
    do_import bone_parent_table bad armature w = Raise IndexError w1 ∧
    import_models bone_parent_table (pre ++ bad :: post) armature w0
      = Raise IndexError w1 ∧
    take (length (meshes w)) (meshes w1) = meshes w ∧
    length (meshes w1) = S (length (meshes w)) ∧
    take (length (objects w)) (objects w1) = objects w ∧
    length (objects w1) = S (length (objects w)) ∧
    armatures w1 = armatures w.
Proof.
  intros Hbad Hpre.
  destruct (do_import_cases bone_parent_table bad armature w) as [w1 H].
  assert (Hraise : do_import bone_parent_table bad armature w = Raise IndexError w1).
  { unfold importable in Hbad. destruct (geometry_ok bad); [|done].
    cbn [negb andb] in H, Hbad. apply orb_false_elim in Hbad as [Hc Hw].
    by rewrite Hc, Hw in H. }
  exists w1. split; [done|]. split.
  { unfold import_models. rewrite for_each_app.
    fold (import_models bone_parent_table pre armature w0). rewrite Hpre.
    cbn [for_each]. mred. by rewrite Hraise. }
  destruct (do_import_frame bone_parent_table bad armature w)
    as [Ha _ _ _ Hms Hml Hos Hol _].
  rewrite Hraise in Ha, Hms, Hml, Hos, Hol.
  cbn [final_world created_world group_world meshes objects armatures] in *.
  rewrite take_app_length in Hms. rewrite take_app_length in Hos.
  rewrite length_app in Hml. rewrite length_app in Hol. cbn [length] in Hml, Hol.
  repeat split; try done; lia.
Qed.

End Stop.

Lemma import_models_stops_at_unreadable_group_witness :
  let w := final_world (import_models demo_table [demo_group] 0 empty_world) in
  ∃ w1,
    do_import demo_table demo_unreadable_group 0 w = Raise IndexError w1 ∧
    import_models demo_table
      ([demo_group] ++ demo_unreadable_group :: [demo_bad_group]) 0 empty_world
      = Raise IndexError w1 ∧
    take (length (meshes w)) (meshes w1) = meshes w ∧
    length (meshes w1) = S (length (meshes w)) ∧
    take (length (objects w)) (objects w1) = objects w ∧
    length (objects w1) = S (length (objects w)) ∧
    armatures w1 = armatures w.
Proof.
  apply (import_models_stops_at_unreadable_group demo_table [demo_group]
           demo_unreadable_group [demo_bad_group] 0 empty_world);
    vm_compute; reflexivity.
Defined.


(** ** The coordinate check *)

Lemma vertex_events_no_coordinate_report b_model ob ics :
  forallb (λ e, negb (coordinate_report e))
          (flat_map (vertex_events b_model ob) ics) = true.
Proof.
  induction ics as [|ic ics IH]; [done|]. cbn [flat_map].
  rewrite forallb_app, IH, andb_true_r.
  unfold vertex_events. cbn [forallb coordinate_report negb andb].
  unfold row_events. induction (ic.2) as [|c cs IHc]; [done|].
  cbn [flat_map]. by rewrite forallb_app, IHc.
Qed.

Section CoordinateCheck.
Context {Row : Type}.
Variable bone_parent_table : list (string * Row).

(** The check of lines 166-169 never reports anything: when [do_import]
    returns, none of the lines it printed is a pair of coordinates.  The
    mesh holds the coordinates [from_pydata] was given, so the comparison
    of line 167 is true for every vertex. *)
Theorem do_import_reports_no_coordinate b_model armature w msg w' :
  do_import bone_parent_table b_model armature w = Ok msg w' →
  log w' = log w ++ new_events w w' ∧
  Forall (λ e, coordinate_report e = false) (new_events w w').
Proof.
  intros H. pose proof (do_import_spec bone_parent_table b_model armature w) as Hs.
  destruct (built_mesh b_model) as [mesh|];
    [|by destruct Hs as [w'' Hs]; rewrite Hs in H].
  assert (∃ o evs, w' = group_world w mesh o evs
                   ∧ forallb (λ e, negb (coordinate_report e)) evs = true)
    as (o & evs & -> & Hevs).
  { destruct (counts_mismatch b_model).
    - rewrite Hs in H. injection H as _ <-. by eexists _, _.
    - cbv zeta in Hs. destruct (mapM _ _) as [css|];
        [|by destruct Hs as [w'' Hs]; rewrite Hs in H].
      rewrite Hs in H. injection H as _ <-. eexists _, _. split; [done|].
      cbn [forallb]. by rewrite vertex_events_no_coordinate_report. }
  rewrite new_events_group_world. split; [done|].
  apply Is_true_true, forallb_True in Hevs.
  eapply list.Forall_impl; [exact Hevs|]. intros e He.
  by apply Is_true_true, negb_true_iff in He.
Qed.

End CoordinateCheck.

Lemma do_import_reports_no_coordinate_witness :
  log demo_group_world = log empty_world ++ new_events empty_world demo_group_world ∧
  Forall (λ e, coordinate_report e = false) (new_events empty_world demo_group_world).
Proof.
  apply (do_import_reports_no_coordinate demo_table demo_group 0 empty_world
           (imported_message demo_group)).
  vm_compute. reflexivity.
Defined.
